(** * Project Tag Mover: a shallow embedding of [main.js]

    The plugin reads a Markdown note, collects its tags (YAML frontmatter
    and body), picks a destination folder from a rule table or from a
    prefix convention, and asks the host application to move the note.

    JavaScript strings are sequences of UTF-16 code units; they are
    modelled as lists of [N].  The host application (vault, adapter, file
    manager, [parseYaml], [normalizePath]) is an interface: the plugin
    code is written against it and every general theorem holds for all
    implementations.  Asynchronous calls are awaited one after the other,
    so the code is sequential: a state monad over the host state with
    exceptions, and a log of everything the plugin asks of the host. *)

From Stdlib Require Import List NArith ZArith Bool Arith Lia Ascii String.
Import ListNotations.

Set Implicit Arguments.

(* ================================================================== *)
(** * JavaScript strings *)
(* ================================================================== *)

Module JS.

Definition char := N.
Definition jsstring := list char.

(** An ASCII literal as a JavaScript string. *)
Definition lit (s : string) : jsstring :=
  map N_of_ascii (list_ascii_of_string s).

Definition LF : char := 10%N.
Definition HASH : char := 35%N.
Definition DQUOTE : char := 34%N.
Definition SQUOTE : char := 39%N.
Definition SLASH : char := 47%N.
Definition DASH : char := 45%N.
Definition BACKSLASH : char := 92%N.

(** Lines joined by a line feed (for writing documents). *)
Fixpoint unlines (ls : list jsstring) : jsstring :=
  match ls with
  | [] => []
  | [l] => l
  | l :: ls' => l ++ LF :: unlines ls'
  end.

Fixpoint str_eqb (a b : jsstring) : bool :=
  match a, b with
  | [], [] => true
  | x :: a', y :: b' => N.eqb x y && str_eqb a' b'
  | _, _ => false
  end.

(** [s.startsWith(p)] *)
Fixpoint startsWith (s p : jsstring) : bool :=
  match p, s with
  | [], _ => true
  | y :: p', x :: s' => N.eqb x y && startsWith s' p'
  | _ :: _, [] => false
  end.

(** [s.endsWith(p)] *)
Definition endsWith (s p : jsstring) : bool :=
  (List.length p <=? List.length s)
  && str_eqb (skipn (List.length s - List.length p) s) p.

(** [s.lastIndexOf(c)] for a one-character needle; [-1] when absent. *)
Fixpoint lastIndexOf_from (i : Z) (s : jsstring) (c : char) : Z :=
  match s with
  | [] => (-1)%Z
  | x :: s' =>
      let later := lastIndexOf_from (i + 1) s' c in
      if (0 <=? later)%Z then later
      else if N.eqb x c then i else (-1)%Z
  end.

Definition lastIndexOf (s : jsstring) (c : char) : Z := lastIndexOf_from 0 s c.

(** [s.substring(0, e)]: a negative end counts as 0, an end beyond the
    length as the length. *)
Definition substring0 (s : jsstring) (e : Z) : jsstring := firstn (Z.to_nat e) s.

(** [s.substring(n)] *)
Definition substringFrom (s : jsstring) (n : nat) : jsstring := skipn n s.

(** A string is falsy exactly when it is empty. *)
Definition nonempty (s : jsstring) : bool :=
  match s with [] => false | _ :: _ => true end.

(** ** Character classes of the regular expressions *)

Definition between (lo hi c : N) : bool := N.leb lo c && N.leb c hi.

(** [\s]: WhiteSpace and LineTerminator of ECMAScript. *)
Definition is_space (c : char) : bool :=
  between 9 13 c || N.eqb c 32 || N.eqb c 160 || N.eqb c 5760
  || between 8192 8202 c || N.eqb c 8232 || N.eqb c 8233 || N.eqb c 8239
  || N.eqb c 8287 || N.eqb c 12288 || N.eqb c 65279.

(** [\w] without the [u] and [i] flags: [[A-Za-z0-9_]]. *)
Definition is_word (c : char) : bool :=
  between 65 90 c || between 97 122 c || between 48 57 c || N.eqb c 95.

(** [[\w/-]] *)
Definition is_tagchar (c : char) : bool :=
  is_word c || N.eqb c SLASH || N.eqb c DASH.

(** The class of the first alternative of the quote-stripping expression:
    double quote, single quote, hash. *)
Definition is_quote_or_hash (c : char) : bool :=
  N.eqb c DQUOTE || N.eqb c SQUOTE || N.eqb c HASH.

(** The class of its second alternative: double quote, single quote. *)
Definition is_quote (c : char) : bool :=
  N.eqb c DQUOTE || N.eqb c SQUOTE.

End JS.
Import JS.

(* ================================================================== *)
(** * Tag normalisation *)
(* ================================================================== *)

(** [t.replace(/^#/, '')]: drops one leading [#]
    (main.js 157, 182, 186, 199). *)
Definition strip_hash (t : jsstring) : jsstring :=
  match t with
  | c :: t' => if N.eqb c HASH then t' else t
  | [] => []
  end.

(** The scan of the quote-stripping replace (see [strip_quotes]) once
    position 0 is behind: only the second alternative can match, at the first position
    from which the rest of the string is a non-empty run of quotes; the
    match reaches the end of the string, so nothing is left to scan. *)
Fixpoint drop_trailing_quotes (s : jsstring) : jsstring :=
  match s with
  | [] => []
  | c :: s' =>
      if forallb is_quote (c :: s') then []
      else c :: drop_trailing_quotes s'
  end.

(** The greedy run of the first alternative, which is anchored at
    position 0; returns what follows the run. *)
Fixpoint drop_leading_quotes_hashes (s : jsstring) : jsstring :=
  match s with
  | c :: s' => if is_quote_or_hash c then drop_leading_quotes_hashes s' else s
  | [] => []
  end.

(** [t.replace(/^[Q'#]+|[Q']+$/g, '')] where Q stands for the double
    quote character (main.js 98).  At position 0 the
    first alternative is tried first; when it matches, its run is removed
    and the scan goes on behind it. *)
Definition strip_quotes (t : jsstring) : jsstring :=
  match t with
  | c :: _ =>
      if is_quote_or_hash c
      then drop_trailing_quotes (drop_leading_quotes_hashes t)
      else drop_trailing_quotes t
  | [] => []
  end.

(** [String(t).replace(/^[Q'#]+|[Q']+$/g, '').replace(/^#/, '')]
    for a string [t] (main.js 98). *)
Definition normalize (t : jsstring) : jsstring :=
  strip_hash (strip_quotes t).

(* ================================================================== *)
(** * The two regular expressions of [processFile] *)
(* ================================================================== *)

(** ** Frontmatter: [/^---\s*\n([\s\S]*?)\n---/] (main.js 150)

    The matcher follows the backtracking order of the expression: the
    greedy [\s*] tries its longest run first and gives characters back one
    at a time; the lazy group tries its shortest extent first. *)

(** [([\s\S]*?)\n---]: group 1 and what is left behind the match. *)
Fixpoint lazy_group_then_fence (s : jsstring) : option (jsstring * jsstring) :=
  if startsWith s (LF :: lit "---") then Some ([], skipn 4 s)
  else match s with
       | [] => None
       | c :: s' =>
           match lazy_group_then_fence s' with
           | Some (g, rest) => Some (c :: g, rest)
           | None => None
           end
       end.

(** [\n([\s\S]*?)\n---] *)
Definition newline_group_fence (s : jsstring) : option (jsstring * jsstring) :=
  match s with
  | c :: s' => if N.eqb c LF then lazy_group_then_fence s' else None
  | [] => None
  end.

(** [\s*\n([\s\S]*?)\n---] *)
Fixpoint spaces_newline_group_fence (s : jsstring)
  : option (jsstring * jsstring) :=
  match s with
  | c :: s' =>
      if is_space c then
        match spaces_newline_group_fence s' with
        | Some r => Some r
        | None => newline_group_fence s
        end
      else newline_group_fence s
  | [] => None
  end.

(** [content.match(...)]: [Some (fmMatch[0], fmMatch[1])], or [None] for
    [null].  The expression is anchored, so position 0 is the only
    candidate. *)
Definition fm_match (content : jsstring) : option (jsstring * jsstring) :=
  if startsWith content (lit "---") then
    match spaces_newline_group_fence (skipn 3 content) with
    | Some (g, rest) =>
        Some (firstn (List.length content - List.length rest) content, g)
    | None => None
    end
  else None.

(** ** Body tags: [/(?:^|\s)(?:#)?([\w/-]+)(?=\s|$)/g] (main.js 167) *)

(** [(?=\s|$)] *)
Definition lookahead_space_or_end (s : jsstring) : bool :=
  match s with
  | [] => true
  | c :: _ => is_space c
  end.

(** [([\w/-]+)(?=\s|$)]: the greedy run, given back one character at a
    time until the lookahead holds; group 1 and what is left. *)
Fixpoint tag_run (s : jsstring) : option (jsstring * jsstring) :=
  match s with
  | c :: s' =>
      if is_tagchar c then
        match tag_run s' with
        | Some (g, rest) => Some (c :: g, rest)
        | None => if lookahead_space_or_end s' then Some ([c], s') else None
        end
      else None
  | [] => None
  end.

(** [(?:#)?([\w/-]+)(?=\s|$)]: the optional hash is taken first, and
    given back when the rest fails. *)
Definition hash_tag_run (s : jsstring) : option (jsstring * jsstring) :=
  match s with
  | c :: s' =>
      if N.eqb c HASH then
        match tag_run s' with
        | Some r => Some r
        | None => tag_run s
        end
      else tag_run s
  | [] => tag_run s
  end.

(** One attempt of the whole expression at the current position;
    [at_start] says whether that position is 0, where [^] holds. *)
Definition match_here (at_start : bool) (s : jsstring)
  : option (jsstring * jsstring) :=
  match (if at_start then hash_tag_run s else None) with
  | Some r => Some r
  | None =>
      match s with
      | c :: s' => if is_space c then hash_tag_run s' else None
      | [] => None
      end
  end.

(** The loop [while ((match = regex.exec(body)) !== null) tags.push(match[1])]:
    [exec] tries the positions from [lastIndex] on, and a match moves
    [lastIndex] behind itself.  Every step uses up at least one character;
    [fuel] bounds the number of steps. *)
Fixpoint exec_loop (fuel : nat) (at_start : bool) (s : jsstring)
  : list jsstring :=
  match fuel with
  | O => []
  | S fuel' =>
      match match_here at_start s with
      | Some (g, rest) => g :: exec_loop fuel' false rest
      | None =>
          match s with
          | [] => []
          | _ :: s' => exec_loop fuel' false s'
          end
      end
  end.

Definition body_tags (body : jsstring) : list jsstring :=
  exec_loop (S (List.length body)) true body.

(* ================================================================== *)
(** * Values returned by [parseYaml] *)
(* ================================================================== *)

#[local] Set Warnings "-register-all".

(** The values of JavaScript the parser can hand back: finite trees of
    data, without functions.  A value of any other kind (a number, a date,
    ...) is [VOther]: the plugin sees it only through its truthiness and
    its [String()] rendering, which does not throw. *)
Inductive jsval :=
| VUndefined
| VNull
| VBool (b : bool)
| VStr (s : jsstring)
| VOther (truthy : bool) (text : jsstring)
| VArr (items : list jsval)
| VObj (fields : list (jsstring * jsval)).

Definition truthy (v : jsval) : bool :=
  match v with
  | VUndefined | VNull => false
  | VBool b => b
  | VStr s => nonempty s
  | VOther t _ => t
  | VArr _ | VObj _ => true
  end.

Fixpoint lookup_field (k : jsstring) (fields : list (jsstring * jsval)) : jsval :=
  match fields with
  | [] => VUndefined
  | (k', v) :: fields' => if str_eqb k' k then v else lookup_field k fields'
  end.

(** [v.tags] for a truthy [v]: only an object can own the property. *)
Definition get_tags (v : jsval) : jsval :=
  match v with
  | VObj fields => lookup_field (lit "tags") fields
  | _ => VUndefined
  end.

(** [fields] has an own property [k]. *)
Definition owns (k : jsstring) (fields : list (jsstring * jsval)) : bool :=
  existsb (fun kv => str_eqb (fst kv) k) fields.

(** [String(v)]; [None] when the conversion throws a [TypeError].  A parsed
    mapping is a plain object whose own properties are data, never
    functions, so an own [toString] is not callable: the conversion passes
    it over, gets the object itself back from the inherited [valueOf], and
    throws.  Without an own [toString] the inherited one answers.  An array
    joins its elements with commas, left to right, an [undefined] or [null]
    element giving the empty string. *)
Fixpoint to_String (v : jsval) : option jsstring :=
  match v with
  | VUndefined => Some (lit "undefined")
  | VNull => Some (lit "null")
  | VBool true => Some (lit "true")
  | VBool false => Some (lit "false")
  | VStr s => Some s
  | VOther _ text => Some text
  | VArr items =>
      (fix join (l : list jsval) : option jsstring :=
         match l with
         | [] => Some []
         | x :: l' =>
             match match x with
                   | VUndefined | VNull => Some []
                   | _ => to_String x
                   end with
             | None => None
             | Some sx =>
                 match l' with
                 | [] => Some sx
                 | _ :: _ =>
                     match join l' with
                     | None => None
                     | Some rest => Some (sx ++ lit "," ++ rest)
                     end
                 end
             end
         end) items
  | VObj fields =>
      if owns (lit "toString") fields then None else Some (lit "[object Object]")
  end.

(** [Array.isArray(v) ? v : [v]] *)
Definition as_array (v : jsval) : list jsval :=
  match v with
  | VArr items => items
  | _ => [v]
  end.

(** [items.map(t => post(String(t)))]: the first element whose conversion
    throws ends the [map], and nothing of it is kept. *)
Fixpoint coerce_all (post : jsstring -> jsstring) (items : list jsval)
  : option (list jsstring) :=
  match items with
  | [] => Some []
  | t :: items' =>
      match to_String t with
      | None => None
      | Some s =>
          match coerce_all post items' with
          | None => None
          | Some ss => Some (post s :: ss)
          end
      end
  end.

(** Lines 154-158: the tags a parsed frontmatter contributes; [None] when
    the [map] of line 157 throws. *)
Definition frontmatter_tags (fmObj : jsval) : option (list jsstring) :=
  if truthy fmObj && truthy (get_tags fmObj)
  then coerce_all strip_hash (as_array (get_tags fmObj))
  else Some [].

(* ================================================================== *)
(** * Files, settings, exceptions and the log *)
(* ================================================================== *)

(** A [TFile] of the host: its vault path and its base name. *)
Module Vault.
Record TFile := mkTFile { path : jsstring; name : jsstring }.
End Vault.
Import Vault.

Record TagRule := mkRule { tagPattern : jsstring; destination : jsstring }.

Record Settings := mkSettings {
  tagPrefix : jsstring;
  rootFolder : jsstring;
  notesFolder : jsstring;
  tagRules : list TagRule
}.

Definition DEFAULT_SETTINGS : Settings :=
  {| tagPrefix := lit "#pjt/";
     rootFolder := lit "03_project";
     notesFolder := lit "02/notes";
     tagRules :=
       [ {| tagPattern := lit "work/urgent"; destination := lit "01_inbox/urgent" |};
         {| tagPattern := lit "personal/health"; destination := lit "04_personal/health" |} ] |}.

(** The [Error]s the plugin throws itself (main.js 144, 176, 192, 206, 211). *)
Inductive ErrorMessage :=
| ReadFailed
| NoTagsFound
| RuleMoveFailed (pattern dest : jsstring)
| PrefixMoveFailed (pjtTag : jsstring)
| NoMatchingTag.

Inductive exn :=
| HostError (what : jsstring)
| Error (m : ErrorMessage).

Definition result (A : Type) := sum exn A.

(** The exception of a [String()] that cannot convert its argument. *)
Definition TypeError : exn :=
  HostError (lit "TypeError: Cannot convert object to primitive value").

Definition converted {A : Type} (o : option A) : result A :=
  match o with
  | Some a => inr a
  | None => inl TypeError
  end.

Inductive NoticeMsg :=
| NoticeInvalidPath (path : jsstring)
| NoticeBlocked (targetPath : jsstring)
| NoticeMoved (targetPath : jsstring)
| NoticeMoveFailed
| NoticeNoTargets
| NoticeDone (successCount failCount : nat).

Inductive Level := Log | Warn | Err.

Inductive ConsoleMsg :=
| CReadFailed (e : exn)
| CYamlFailed (e : exn)
| CDetectedTags (path : jsstring) (tags : list jsstring)
| CRuleMatched (pattern normalizedPattern dest : jsstring)
| CDefault (pjtTag relativePath : jsstring)
| CInvalidPath (path : jsstring)
| CBlockedPath (targetPath : jsstring)
| CTarget (targetPath : jsstring)
| CFolder (folderPath : jsstring)
| CVaultRoot (targetPath : jsstring)
| CMoved (from to : jsstring)
| CMoveFailed (e : exn)
| CFileFailed (path : jsstring) (e : exn).

(** What the plugin asks of the storage collaborators. *)
Inductive Request :=
| ReqRead (file : TFile)
| ReqExists (p : jsstring)
| ReqMkdir (p : jsstring)
| ReqRename (file : TFile) (newPath : jsstring).

(** One entry of the log: a request with the exception it ended in, if
    any; a notice shown to the user; a console line. *)
Inductive Event :=
| Requested (r : Request) (thrown : option exn)
| Notice (m : NoticeMsg)
| Console (l : Level) (m : ConsoleMsg).

(* ================================================================== *)
(** * The host interface and the monad of the plugin *)
(* ================================================================== *)

(** The capabilities of the host application over its state [W]. *)
Class Host (W : Type) := {
  vault_read : TFile -> W -> result jsstring * W;
  vault_getMarkdownFiles : W -> list TFile;
  adapter_exists : jsstring -> W -> result bool * W;
  adapter_mkdir : jsstring -> W -> result unit * W;
  fileManager_renameFile : TFile -> jsstring -> W -> result unit * W;
  parseYaml : jsstring -> result jsval;
  normalizePath : jsstring -> jsstring
}.

Record State (W : Type) := mkState { world : W; log : list Event }.

Module PluginMonad.

Definition M (W A : Type) := State W -> result A * State W.

Definition ret {W A} (a : A) : M W A := fun st => (inr a, st).

Definition bind {W A B} (m : M W A) (k : A -> M W B) : M W B :=
  fun st =>
    match m st with
    | (inr a, st') => k a st'
    | (inl e, st') => (inl e, st')
    end.

Definition throw {W A} (e : exn) : M W A := fun st => (inl e, st).

(** [try { m } catch (e) { handler e }] *)
Definition try_catch {W A} (m : M W A) (handler : exn -> M W A) : M W A :=
  fun st =>
    match m st with
    | (inr a, st') => (inr a, st')
    | (inl e, st') => handler e st'
    end.

Definition emit {W} (ev : Event) : M W unit :=
  fun st => (inr tt, {| world := world st; log := log st ++ [ev] |}).

(** A pure host function that may throw. *)
Definition lift {W A} (r : result A) : M W A := fun st => (r, st).

(** A request to a storage collaborator: the host state moves on and the
    request is logged with its outcome. *)
Definition request {W A} (r : Request) (call : W -> result A * W) : M W A :=
  fun st =>
    let (res, w') := call (world st) in
    (res, {| world := w';
             log := log st ++ [Requested r (match res with
                                            | inl e => Some e
                                            | inr _ => None
                                            end)] |}).

Declare Scope plugin_scope.
Delimit Scope plugin_scope with plugin.
Notation "x <- m ;; k" := (bind m (fun x => k))
  (at level 61, m at next level, right associativity) : plugin_scope.
Notation "m ;; k" := (bind m (fun _ => k))
  (at level 61, right associativity) : plugin_scope.

End PluginMonad.
Import PluginMonad.
Local Open Scope plugin_scope.

(* ================================================================== *)
(** * The plugin *)
(* ================================================================== *)

Section Plugin.

Context {W : Type} {host : Host W}.
Variable settings : Settings.

Definition notice (m : NoticeMsg) : M W unit := emit (Notice m).
Definition console (l : Level) (m : ConsoleMsg) : M W unit := emit (Console l m).

(** ** [moveFileToProject] (main.js 214-276) *)
Definition moveFileToProject (file : TFile) (path : jsstring) (isFullPath : bool)
  : M W bool :=
  let sanitizedPathSegment := normalizePath path in
  if negb (nonempty sanitizedPathSegment)
     || str_eqb sanitizedPathSegment (lit ".")
     || startsWith sanitizedPathSegment (lit "..")
  then
    notice (NoticeInvalidPath path) ;;
    console Err (CInvalidPath path) ;;
    ret false
  else
    let baseFolder := if isFullPath then [] else rootFolder settings in
    let preliminaryTargetPath :=
      if isFullPath
      then sanitizedPathSegment ++ lit "/" ++ name file
      else baseFolder ++ lit "/" ++ sanitizedPathSegment ++ lit "/" ++ name file in
    let targetPath := normalizePath preliminaryTargetPath in
    if startsWith targetPath (lit "../")
    then
      notice (NoticeBlocked targetPath) ;;
      console Err (CBlockedPath targetPath) ;;
      ret false
    else
      let folderPath := substring0 targetPath (lastIndexOf targetPath SLASH) in
      console Log (CTarget targetPath) ;;
      console Log (CFolder folderPath) ;;
      try_catch
        ((if nonempty folderPath
          then
            present <- request (ReqExists folderPath) (adapter_exists folderPath) ;;
            if negb present
            then request (ReqMkdir folderPath) (adapter_mkdir folderPath)
            else ret tt
          else console Log (CVaultRoot targetPath)) ;;
         request (ReqRename file targetPath) (fileManager_renameFile file targetPath) ;;
         notice (NoticeMoved targetPath) ;;
         console Log (CMoved (Vault.path file) targetPath) ;;
         ret true)
        (fun e =>
           console Err (CMoveFailed e) ;;
           notice NoticeMoveFailed ;;
           ret false).

(** ** [processFile] (main.js 138-212) *)

(** Lines 147-171: the tags of a note.  The frontmatter block is handed to
    [parseYaml] inside a [try] that also holds the [map] over the tags; the
    tags are pushed only once the whole [map] is done, so a failure of
    either leaves nothing of the frontmatter. *)
Definition extract_tags (content : jsstring) : M W (list jsstring) :=
  let fmMatch := fm_match content in
  fmTags <-
    match fmMatch with
    | Some (_, group1) =>
        try_catch
          (fmObj <- lift (parseYaml group1) ;;
           lift (converted (frontmatter_tags fmObj)))
          (fun e => console Warn (CYamlFailed e) ;; ret [])
    | None => ret []
    end ;;
  let body :=
    match fmMatch with
    | Some (whole, _) => skipn (List.length whole) content
    | None => content
    end in
  ret (fmTags ++ body_tags body).

(** [r => r.tagPattern.replace(/^#/, '') === normalizedPattern] *)
Definition rule_matches (normalizedPattern : jsstring) (r : TagRule) : bool :=
  str_eqb (strip_hash (tagPattern r)) normalizedPattern.

(** Lines 180-196: [for (const pattern of tags)].  The result says whether
    the loop has returned from [processFile]. *)
Fixpoint rule_loop (file : TFile) (tags : list jsstring) : M W bool :=
  match tags with
  | [] => ret false
  | pattern :: tags' =>
      let normalizedPattern := strip_hash pattern in
      match find (rule_matches normalizedPattern) (tagRules settings) with
      | Some rule =>
          console Log (CRuleMatched pattern normalizedPattern (destination rule)) ;;
          moveSuccess <- moveFileToProject file (destination rule) true ;;
          if negb moveSuccess
          then throw (Error (RuleMoveFailed pattern (destination rule)))
          else ret true
      | None => rule_loop file tags'
      end
  end.

(** Lines 198-211: the prefix convention.  [tags.find] returns a string,
    and [if (pjtTag)] takes an empty one for "not found". *)
Definition prefix_fallback (file : TFile) (tags : list jsstring) : M W unit :=
  let pjtPrefix := strip_hash (tagPrefix settings) in
  match find (fun t => startsWith t pjtPrefix) tags with
  | Some pjtTag =>
      if nonempty pjtTag then
        let relativePath := substringFrom pjtTag (List.length pjtPrefix) in
        console Log (CDefault pjtTag relativePath) ;;
        moveSuccess <- moveFileToProject file relativePath false ;;
        if negb moveSuccess
        then throw (Error (PrefixMoveFailed pjtTag))
        else ret tt
      else throw (Error NoMatchingTag)
  | None => throw (Error NoMatchingTag)
  end.

(** Lines 175-211: what happens once the tags are known. *)
Definition process_tags (file : TFile) (tags : list jsstring) : M W unit :=
  if Nat.eqb (List.length tags) 0
  then throw (Error NoTagsFound)
  else
    returned <- rule_loop file tags ;;
    if returned then ret tt else prefix_fallback file tags.

Definition processFile (file : TFile) : M W unit :=
  content <-
    try_catch
      (request (ReqRead file) (vault_read file))
      (fun e => console Err (CReadFailed e) ;; throw (Error ReadFailed)) ;;
  tags <- extract_tags content ;;
  console Log (CDetectedTags (path file) tags) ;;
  process_tags file tags.

(** ** [moveAllFiles] (main.js 110-136) *)

(** Lines 112-115. *)
Definition targetFiles (files : list TFile) : list TFile :=
  filter (fun file =>
            startsWith (path file) (notesFolder settings)
            && endsWith (path file) (lit ".md"))
         files.

(** Lines 125-133, with the two counters passed along. *)
Fixpoint batch_loop (files : list TFile) (successCount failCount : nat)
  : M W (nat * nat) :=
  match files with
  | [] => ret (successCount, failCount)
  | file :: files' =>
      counts <-
        try_catch
          (processFile file ;; ret (S successCount, failCount))
          (fun e =>
             console Err (CFileFailed (path file) e) ;;
             ret (successCount, S failCount)) ;;
      batch_loop files' (fst counts) (snd counts)
  end.

Definition moveAllFiles : M W unit :=
  fun st =>
    let files := vault_getMarkdownFiles (world st) in
    let targets := targetFiles files in
    (if Nat.eqb (List.length targets) 0
     then notice NoticeNoTargets
     else
       counts <- batch_loop targets 0 0 ;;
       notice (NoticeDone (fst counts) (snd counts))) st.

End Plugin.

(* ================================================================== *)
(** * Resolution as a function of the tag list *)
(* ================================================================== *)

(** The decision taken by lines 180-211, without the move: the
    destination handed to [moveFileToProject] and its [isFullPath] flag.
    [rule_loop_pass1] and [process_tags_resolve] below show that the code
    acts on exactly this decision. *)

(** Pass 1, the search of [rule_loop]: the first tag, in order, for which
    [tagRules.find] returns a rule. *)
Fixpoint pass1 (rules : list TagRule) (tags : list jsstring)
  : option (jsstring * TagRule) :=
  match tags with
  | [] => None
  | pattern :: tags' =>
      match find (rule_matches (strip_hash pattern)) rules with
      | Some rule => Some (pattern, rule)
      | None => pass1 rules tags'
      end
  end.

(** Pass 2, the search of [prefix_fallback]: [tags.find] and the
    truthiness test on what it returns. *)
Definition pass2 (prefix : jsstring) (tags : list jsstring) : option jsstring :=
  match find (fun t => startsWith t (strip_hash prefix)) tags with
  | Some pjtTag => if nonempty pjtTag then Some pjtTag else None
  | None => None
  end.

Definition resolve (settings : Settings) (tags : list jsstring)
  : option (jsstring * bool) :=
  match pass1 (tagRules settings) tags with
  | Some (_, rule) => Some (destination rule, true)
  | None =>
      match pass2 (tagPrefix settings) tags with
      | Some pjtTag =>
          Some (substringFrom pjtTag (List.length (strip_hash (tagPrefix settings))), false)
      | None => None
      end
  end.

(* ================================================================== *)
(** * The specification's wording, for comparison *)
(* ================================================================== *)

Module Spec.

(** Splitting at every whitespace character: the pieces are the maximal
    whitespace-free stretches (empty ones included). *)
Fixpoint split_ws (s : jsstring) : list jsstring :=
  match s with
  | [] => [[]]
  | c :: s' =>
      if is_space c then [] :: split_ws s'
      else match split_ws s' with
           | w :: ws => (c :: w) :: ws
           | [] => [[c]]
           end
  end.

(** A token bounded by whitespace or the ends of the text is a tag when,
    behind an optional single [#], it is a non-empty run of
    [[A-Za-z0-9_/-]]; the tag is the run. *)
Definition token_tag (w : jsstring) : option jsstring :=
  let run := match w with
             | c :: w' => if N.eqb c HASH then w' else w
             | [] => w
             end in
  if nonempty run && forallb is_tagchar run then Some run else None.

Fixpoint collect (ws : list jsstring) : list jsstring :=
  match ws with
  | [] => []
  | w :: ws' =>
      match token_tag w with
      | Some t => t :: collect ws'
      | None => collect ws'
      end
  end.

(** Body tags, left to right. *)
Definition body_tags (body : jsstring) : list jsstring :=
  collect (split_ws body).

(** Frontmatter tags as section 4.1 words them: the value of the [tags]
    key, a scalar taken as a one-element sequence, every element coerced
    to its string form; nothing when the key is absent.  [None] when an
    element has no string form. *)
Definition frontmatter_tags (fmObj : jsval) : option (list jsstring) :=
  match get_tags fmObj with
  | VUndefined => Some []
  | VArr items => coerce_all (fun s => s) items
  | v => coerce_all (fun s => s) [v]
  end.

(** Pass 1 as section 4.2 words it: the candidate is compared after its
    quotes and hash marks are stripped. *)
Fixpoint pass1 (rules : list TagRule) (tags : list jsstring)
  : option (jsstring * bool) :=
  match tags with
  | [] => None
  | t :: tags' =>
      match find (rule_matches (normalize t)) rules with
      | Some rule => Some (destination rule, true)
      | None => pass1 rules tags'
      end
  end.

(** Pass 2 as section 4.2 words it: the first tag whose normalized form
    starts with the normalized prefix; the destination is what follows the
    prefix. *)
Definition pass2 (prefix : jsstring) (tags : list jsstring)
  : option (jsstring * bool) :=
  match find (fun t => startsWith (strip_hash t) (strip_hash prefix)) tags with
  | Some t =>
      Some (substringFrom (strip_hash t) (List.length (strip_hash prefix)), false)
  | None => None
  end.

(** The target path as section 4.4, step 1, words it. *)
Definition target_path (settings : Settings) (targetDirectory : jsstring)
    (isFullPath : bool) (baseName : jsstring) : jsstring :=
  if isFullPath
  then targetDirectory ++ lit "/" ++ baseName
  else rootFolder settings ++ lit "/" ++ targetDirectory ++ lit "/" ++ baseName.

End Spec.

(* ================================================================== *)
(** * A small host, to run the plugin on concrete vaults *)
(* ================================================================== *)

(** Modelled from the spec: the host application is not part of the
    repository.  Section 6 lists what the plugin needs of it: reading a
    text, listing the Markdown documents, checking that a path exists,
    creating a directory, moving a file; section 4.1 a parser of a minimal
    key-value document; section 4.3 a lexical path normalization.  This
    module is one such host, used for the concrete runs only: the general
    theorems quantify over all hosts. *)
Module Demo.

(** Notes by path, and the folders that exist. *)
Record Disk := mkDisk {
  notes : list (jsstring * jsstring);
  folders : list jsstring
}.

Fixpoint split_on (sep : char) (s : jsstring) : list jsstring :=
  match s with
  | [] => [[]]
  | c :: s' =>
      if N.eqb c sep then [] :: split_on sep s'
      else match split_on sep s' with
           | w :: ws => (c :: w) :: ws
           | [] => [[c]]
           end
  end.

Fixpoint join_with (sep : char) (parts : list jsstring) : jsstring :=
  match parts with
  | [] => []
  | [p] => p
  | p :: parts' => p ++ sep :: join_with sep parts'
  end.

(** Modelled from the spec: the host's [normalizePath] is not part of the
    repository.  Section 4.3: separators are normalized and redundant
    segments collapsed (resolving [.] and redundant slashes), without
    touching the filesystem; [..] segments stay, for the checks that
    follow to see them. *)
Definition normalizePath (p : jsstring) : jsstring :=
  let unified := map (fun c => if N.eqb c BACKSLASH then SLASH else c) p in
  join_with SLASH
    (filter (fun seg => nonempty seg && negb (str_eqb seg (lit ".")))
            (split_on SLASH unified)).

Definition basename_of (p : jsstring) : jsstring :=
  match split_on SLASH p with
  | [] => p
  | parts => last parts []
  end.

Fixpoint find_note (p : jsstring) (ns : list (jsstring * jsstring)) : option jsstring :=
  match ns with
  | [] => None
  | (q, text) :: ns' => if str_eqb q p then Some text else find_note p ns'
  end.

Definition read (file : TFile) (d : Disk) : result jsstring * Disk :=
  match find_note (path file) (notes d) with
  | Some text => (inr text, d)
  | None => (inl (HostError (lit "ENOENT")), d)
  end.

Definition getMarkdownFiles (d : Disk) : list TFile :=
  map (fun n => {| path := fst n; name := basename_of (fst n) |})
      (filter (fun n => endsWith (fst n) (lit ".md")) (notes d)).

Definition exists_ (p : jsstring) (d : Disk) : result bool * Disk :=
  (inr (existsb (str_eqb p) (folders d)), d).

Definition mkdir (p : jsstring) (d : Disk) : result unit * Disk :=
  (inr tt, {| notes := notes d; folders := folders d ++ [p] |}).

(** A rename fails when the note is gone or the destination is taken. *)
Definition renameFile (file : TFile) (newPath : jsstring) (d : Disk)
  : result unit * Disk :=
  match find_note (path file) (notes d), find_note newPath (notes d) with
  | Some _, None =>
      (inr tt,
       {| notes := map (fun n => if str_eqb (fst n) (path file)
                                 then (newPath, snd n) else n) (notes d);
          folders := folders d |})
  | None, _ => (inl (HostError (lit "ENOENT")), d)
  | Some _, Some _ => (inl (HostError (lit "EEXIST")), d)
  end.

(** ** A parser for a small part of YAML *)

Definition COLON : char := 58%N.
Definition COMMA : char := 44%N.
Definition SPACE : char := 32%N.

Definition is_blank (c : char) : bool := N.eqb c SPACE || N.eqb c 9%N.
Definition is_letter (c : char) : bool := between 65%N 90%N c || between 97%N 122%N c.
Definition is_digit (c : char) : bool := between 48%N 57%N c.

Fixpoint drop_blanks (s : jsstring) : jsstring :=
  match s with
  | c :: s' => if is_blank c then drop_blanks s' else s
  | [] => []
  end.

Definition trim (s : jsstring) : jsstring :=
  rev (drop_blanks (rev (drop_blanks s))).

(** What stands between the first and the last character. *)
Definition inside (s : jsstring) : jsstring :=
  firstn (List.length s - 2) (skipn 1 s).

Definition enclosed (opening closing : char) (s : jsstring) : bool :=
  (2 <=? List.length s) && startsWith s [opening] && endsWith s [closing].

(** Words that some versions of YAML read as booleans or nulls. *)
Definition ambiguous_words : list jsstring :=
  map lit ["True"; "TRUE"; "False"; "FALSE"; "Null"; "NULL";
           "yes"; "Yes"; "YES"; "no"; "No"; "NO";
           "on"; "On"; "ON"; "off"; "Off"; "OFF";
           "y"; "Y"; "n"; "N"]%string.

(** A scalar: a quoted string without quotes or escapes inside, one of
    [true], [false], [null], a decimal integer without sign or leading
    zero, or a plain word over [[A-Za-z0-9_/.-]] that starts with a letter,
    an underscore or a slash. *)
Definition parse_scalar (s : jsstring) : option jsval :=
  match s with
  | [] => None
  | c :: s' =>
      if N.eqb c DQUOTE then
        if enclosed DQUOTE DQUOTE s
           && forallb (fun x => negb (N.eqb x DQUOTE || N.eqb x BACKSLASH)) (inside s)
        then Some (VStr (inside s)) else None
      else if N.eqb c SQUOTE then
        if enclosed SQUOTE SQUOTE s
           && forallb (fun x => negb (N.eqb x SQUOTE)) (inside s)
        then Some (VStr (inside s)) else None
      else if str_eqb s (lit "true") then Some (VBool true)
      else if str_eqb s (lit "false") then Some (VBool false)
      else if str_eqb s (lit "null") then Some VNull
      else if existsb (str_eqb s) ambiguous_words then None
      else if forallb is_digit s then
        if str_eqb s (lit "0") then Some (VOther false s)
        else if N.eqb c 48%N then None
        else Some (VOther true s)
      else if (is_letter c || N.eqb c 95%N || N.eqb c SLASH)
              && forallb (fun x => is_tagchar x || N.eqb x 46%N) s'
      then Some (VStr s)
      else None
  end.

(** The text before the first colon and the text behind it. *)
Fixpoint split_colon (s : jsstring) : option (jsstring * jsstring) :=
  match s with
  | [] => None
  | c :: s' =>
      if N.eqb c COLON then Some ([], s')
      else match split_colon s' with
           | Some (k, v) => Some (c :: k, v)
           | None => None
           end
  end.

Definition is_key (k : jsstring) : bool :=
  match k with
  | c :: k' => is_letter c && forallb (fun x => is_word x || N.eqb x DASH) k'
  | [] => false
  end.

(** [key: scalar] *)
Definition parse_pair (s : jsstring) : option (jsstring * jsval) :=
  match split_colon s with
  | Some (k, SPACE :: v) =>
      if is_key k then
        match parse_scalar (trim v) with
        | Some x => Some (k, x)
        | None => None
        end
      else None
  | _ => None
  end.

(** An element of a sequence: a scalar, or a mapping [{key: scalar}]. *)
Definition parse_element (s : jsstring) : option jsval :=
  if startsWith s [123%N] then
    if enclosed 123%N 125%N s then
      match parse_pair (trim (inside s)) with
      | Some kv => Some (VObj [kv])
      | None => None
      end
    else None
  else parse_scalar s.

Fixpoint parse_elements (parts : list jsstring) : option (list jsval) :=
  match parts with
  | [] => Some []
  | e :: parts' =>
      match parse_element (trim e), parse_elements parts' with
      | Some x, Some xs => Some (x :: xs)
      | _, _ => None
      end
  end.

(** The value of a key: nothing (null), a sequence [[e, ...]] on one line,
    or an element. *)
Definition parse_value (s : jsstring) : option jsval :=
  match s with
  | [] => Some VNull
  | _ :: _ =>
      if startsWith s [91%N] then
        if enclosed 91%N 93%N s then
          match trim (inside s) with
          | [] => Some (VArr [])
          | inner =>
              match parse_elements (split_on COMMA inner) with
              | Some xs => Some (VArr xs)
              | None => None
              end
          end
        else None
      else parse_element s
  end.

(** The pairs of the lines [key: value], blank lines apart; [None] when a
    line is of another shape or a key comes twice. *)
Fixpoint parse_lines (ls : list jsstring) : option (list (jsstring * jsval)) :=
  match ls with
  | [] => Some []
  | l :: ls' =>
      match parse_lines ls' with
      | None => None
      | Some kvs =>
          match trim l with
          | [] => Some kvs
          | _ :: _ =>
              match split_colon l with
              | Some (k, rest) =>
                  if is_key k && negb (owns k kvs)
                     && (negb (nonempty rest) || startsWith rest [SPACE])
                  then match parse_value (trim rest) with
                       | Some v => Some ((k, v) :: kvs)
                       | None => None
                       end
                  else None
              | None => None
              end
          end
      end
  end.

(** Modelled from the spec: the host's [parseYaml] is not part of the
    repository.  Section 4.1: the block is a minimal key-value document
    whose [tags] key holds a scalar or a sequence; other keys are carried
    along and ignored.  This parser reads such documents, one key to a
    line, with the values described above; a block without any key is
    null; every other text is a parse error, among them the texts that are
    no YAML at all, such as a sequence left open. *)
Definition parseYaml (text : jsstring) : result jsval :=
  match parse_lines (split_on LF text) with
  | Some [] => inr VNull
  | Some kvs => inr (VObj kvs)
  | None => inl (HostError (lit "YAMLParseError"))
  end.

#[global] Instance host : Host Disk := {
  vault_read := read;
  vault_getMarkdownFiles := getMarkdownFiles;
  adapter_exists := exists_;
  adapter_mkdir := mkdir;
  fileManager_renameFile := renameFile;
  parseYaml := parseYaml;
  normalizePath := normalizePath
}.

Definition start (d : Disk) : State Disk := {| world := d; log := [] |}.

End Demo.

(* ================================================================== *)
(** * Notions used in the statements *)
(* ================================================================== *)

(** A string that is empty or starts outside the class of quotes and
    hash marks. *)
Definition clean_head (s : jsstring) : Prop :=
  match s with
  | [] => True
  | c :: _ => is_quote_or_hash c = false
  end.

(** The first whitespace-free stretch of a text, and the text behind it. *)
Definition first_word (s : jsstring) : jsstring := hd [] (Spec.split_ws s).

Definition drop_word (s : jsstring) : jsstring :=
  skipn (List.length (first_word s)) s.

(** The text behind the frontmatter block: [content.slice(fmMatch[0].length)],
    or the whole text when there is no block (main.js 165). *)
Definition body_of (content : jsstring) : jsstring :=
  match fm_match content with
  | Some (whole, _) => skipn (List.length whole) content
  | None => content
  end.

(** A line feed followed by three dashes occurs somewhere in the text. *)
Fixpoint contains_fence (s : jsstring) : bool :=
  startsWith s (LF :: lit "---")
  || match s with
     | [] => false
     | _ :: s' => contains_fence s'
     end.

(** Extraction as the specification words it, for a frontmatter already
    parsed (or absent, or unparsable: [None]) and a body. *)
Definition spec_extract (parsed : option jsval) (body : jsstring) : list jsstring :=
  match parsed with
  | Some fmObj =>
      match Spec.frontmatter_tags fmObj with
      | Some tags => tags
      | None => []
      end
  | None => []
  end ++ Spec.body_tags body.

(** The same host state with more entries in the log. *)
Definition logged {W : Type} (st : State W) (evs : list Event) : State W :=
  {| world := world st; log := log st ++ evs |}.

(** The test of main.js 219 on the normalized segment: empty, a single
    dot, or starting with two dots. *)
Definition segment_rejected (seg : jsstring) : bool :=
  negb (nonempty seg) || str_eqb seg (lit ".") || startsWith seg (lit "..").

(** The path handed to the rename: the normalization of the path joined
    from the normalized segment (main.js 216, 235-241). *)
Definition target_of {W : Type} {host : Host W} (settings : Settings)
    (path : jsstring) (isFullPath : bool) (baseName : jsstring) : jsstring :=
  normalizePath
    (Spec.target_path settings (normalizePath path) isFullPath baseName).

(** The requests among the entries of a log. *)
Fixpoint requests_of (evs : list Event) : list Request :=
  match evs with
  | [] => []
  | Requested r _ :: evs' => r :: requests_of evs'
  | _ :: evs' => requests_of evs'
  end.

(** The files whose text was asked for, in order. *)
Fixpoint reads_of (evs : list Event) : list TFile :=
  match evs with
  | [] => []
  | Requested (ReqRead f) _ :: evs' => f :: reads_of evs'
  | _ :: evs' => reads_of evs'
  end.

(** The tags [processFile] works with, as a function of the text. *)
Definition tags_of {W : Type} {host : Host W} (content : jsstring) : list jsstring :=
  match fm_match content with
  | Some (_, group1) =>
      match parseYaml group1 with
      | inr fmObj =>
          match frontmatter_tags fmObj with
          | Some tags => tags
          | None => []
          end
      | inl _ => []
      end
  | None => []
  end ++ body_tags (body_of content).

(** ** Concrete vaults and notes for the examples *)

Definition note_x : TFile := {| path := lit "02/notes/x.md"; name := lit "x.md" |}.

Definition note_archived : TFile :=
  {| path := lit "02/notesarchive/x.md"; name := lit "x.md" |}.

Definition note_z : TFile := {| path := lit "02/notes/z.md"; name := lit "z.md" |}.

(** One note in the notes folder, tagged [pjt/q1] in its body. *)
Definition disk_x : Demo.Disk :=
  Demo.mkDisk [(lit "02/notes/x.md", lit "pjt/q1")] [].

(** One note in a sibling of the notes folder. *)
Definition disk_archived : Demo.Disk :=
  Demo.mkDisk [(lit "02/notesarchive/x.md", lit "pjt/q1")] [].

(** Three notes, the second without any tag. *)
Definition disk_three : Demo.Disk :=
  Demo.mkDisk
    [(lit "02/notes/a.md", lit "pjt/q1");
     (lit "02/notes/z.md", lit "no! tags?");
     (lit "02/notes/b.md",
      unlines [lit "---"; lit "tags: [a, work/urgent]"; lit "---"; lit "#c d"])]
    [].

(** The default settings with a trailing slash typed into the root folder. *)
Definition settings_slash : Settings :=
  {| tagPrefix := lit "#pjt/";
     rootFolder := lit "03_project/";
     notesFolder := lit "02/notes";
     tagRules := [] |}.

(** Settings whose root folder points out of the vault. *)
Definition settings_outside : Settings :=
  {| tagPrefix := lit "#pjt/";
     rootFolder := lit "..";
     notesFolder := lit "02/notes";
     tagRules := [] |}.


(** A frontmatter whose second tag is a mapping with a [toString] key. *)
Definition doc_tag_object : jsstring :=
  unlines [lit "---"; lit "tags: [pjt/a, {toString: 1}]"; lit "---"; lit "foo #bar"].

Definition doc_unterminated : jsstring :=
  unlines [lit "---"; lit "tags: [a]"; lit "foo"].

Definition doc_ab_cd : jsstring :=
  unlines [lit "---"; lit "tags: [a, b]"; lit "---"; lit "#c d"].

Definition doc_tags_false : jsstring :=
  unlines [lit "---"; lit "tags: false"; lit "---"; lit "x"].

(* ================================================================== *)
(** * Further notions: strings and paths *)
(* ================================================================== *)

(** The last character of the string is a quote. *)
Fixpoint ends_with_quote (t : jsstring) : bool :=
  match t with
  | [] => false
  | [c] => is_quote c
  | _ :: t' => ends_with_quote t'
  end.

(** The closing (and opening) fence of a frontmatter block behind a line
    feed. *)
Definition fence : jsstring := LF :: lit "---".

(** [targetPath.substring(0, targetPath.lastIndexOf('/'))] (main.js 252). *)
Definition parent_of (targetPath : jsstring) : jsstring :=
  substring0 targetPath (lastIndexOf targetPath SLASH).

(** The renames that went through, among the entries of a log. *)
Fixpoint renamed_of (evs : list Event) : list (TFile * jsstring) :=
  match evs with
  | [] => []
  | Requested (ReqRename f p) None :: evs' => (f, p) :: renamed_of evs'
  | _ :: evs' => renamed_of evs'
  end.

(** The files given up with a console line by the batch loop. *)
Fixpoint failed_of (evs : list Event) : list jsstring :=
  match evs with
  | [] => []
  | Console Err (CFileFailed p _) :: evs' => p :: failed_of evs'
  | _ :: evs' => failed_of evs'
  end.

(** The same settings with a hash mark put in front of the prefix and of
    every rule pattern. *)
Definition with_hashes (settings : Settings) : Settings :=
  {| tagPrefix := HASH :: tagPrefix settings;
     rootFolder := rootFolder settings;
     notesFolder := notesFolder settings;
     tagRules := map (fun r => {| tagPattern := HASH :: tagPattern r;
                                  destination := destination r |})
                     (tagRules settings) |}.

(** A string that does not start with a hash mark. *)
Definition no_leading_hash (t : jsstring) : Prop := strip_hash t = t.

(** A tag list without its repetitions, first occurrences kept. *)
Fixpoint first_occurrences (tags : list jsstring) : list jsstring :=
  match tags with
  | [] => []
  | t :: tags' =>
      t :: filter (fun u => negb (str_eqb u t)) (first_occurrences tags')
  end.

(** The default settings without any rule and with another notes folder. *)
Definition settings_no_rules : Settings :=
  {| tagPrefix := lit "#pjt/";
     rootFolder := lit "03_project";
     notesFolder := lit "inbox";
     tagRules := [] |}.

(** The default settings written without the hash mark in the prefix. *)
Definition settings_plain : Settings :=
  {| tagPrefix := lit "pjt/";
     rootFolder := lit "03_project";
     notesFolder := lit "02/notes";
     tagRules := tagRules DEFAULT_SETTINGS |}.

(* ================================================================== *)
(** * [moveActiveFile] (main.js 51-108) *)
(* ================================================================== *)

(** The command for the note in the active pane.  It shares the read, the
    frontmatter handling and [moveFileToProject] with [processFile], but
    finds its body tags with an expression built from the prefix, applies
    the quote-stripping normalisation to every tag, and never looks at
    the rule table. *)

(** ** The body expression [new RegExp(`[#]?${prefixEsc}[^\\s#]+`, 'g')]
    (main.js 86-89)

    [prefixEsc] is the prefix with a backslash put before its first
    slash, pasted into the source of the expression.  The definitions
    below read the prefix character by character; that is what the
    expression does when no character of the prefix has a meaning of its
    own in a regular expression ([regex_plain]), and the theorems on
    [moveActiveFile] ask for it. *)

(** A character that stands for itself in the source of an expression:
    none of [\ ^ $ . * + ? ( ) [ ] { } |]. *)
Definition regex_plain_char (c : char) : bool :=
  negb (existsb (N.eqb c)
          [92; 94; 36; 46; 42; 43; 63; 40; 41; 91; 93; 123; 125; 124]%N).

Definition regex_plain (prefix : jsstring) : bool :=
  forallb regex_plain_char prefix.

(** [[^\s#]] *)
Definition is_tag_rest (c : char) : bool :=
  negb (is_space c) && negb (N.eqb c HASH).

(** The greedy run of [[^\s#]]; the expression ends with it, so nothing
    is ever given back.  Returns the run and what follows. *)
Fixpoint take_rest (s : jsstring) : jsstring * jsstring :=
  match s with
  | c :: s' =>
      if is_tag_rest c
      then let (run, behind) := take_rest s' in (c :: run, behind)
      else ([], s)
  | [] => ([], [])
  end.

(** [prefixEsc[^\s#]+]: the matched text and what follows. *)
Definition prefix_rest (rawPrefix s : jsstring) : option (jsstring * jsstring) :=
  if startsWith s rawPrefix then
    match take_rest (skipn (List.length rawPrefix) s) with
    | ([], _) => None
    | (run, behind) => Some (rawPrefix ++ run, behind)
    end
  else None.

(** [[#]?prefixEsc[^\s#]+]: the optional hash mark is taken first and
    given back when the rest fails. *)
Definition hash_prefix_rest (rawPrefix s : jsstring)
  : option (jsstring * jsstring) :=
  match s with
  | c :: s' =>
      if N.eqb c HASH then
        match prefix_rest rawPrefix s' with
        | Some (m, behind) => Some (HASH :: m, behind)
        | None => prefix_rest rawPrefix s
        end
      else prefix_rest rawPrefix s
  | [] => prefix_rest rawPrefix s
  end.

(** [body.match(regex)] with the [g] flag: all matches, left to right,
    each search starting behind the previous match. *)
Fixpoint match_all (fuel : nat) (rawPrefix s : jsstring) : list jsstring :=
  match fuel with
  | O => []
  | S fuel' =>
      match hash_prefix_rest rawPrefix s with
      | Some (m, behind) => m :: match_all fuel' rawPrefix behind
      | None =>
          match s with
          | [] => []
          | _ :: s' => match_all fuel' rawPrefix s'
          end
      end
  end.

Definition body_matches (rawPrefix body : jsstring) : list jsstring :=
  match_all (S (List.length body)) rawPrefix body.

(** Lines 74-77: the frontmatter tags, as strings and nothing else; [None]
    when the [map] of line 76 throws. *)
Definition frontmatter_strings (fmObj : jsval) : option (list jsstring) :=
  if truthy fmObj && truthy (get_tags fmObj)
  then coerce_all (fun s => s) (as_array (get_tags fmObj))
  else Some [].

(** The active pane of the host: [workspace.getActiveFile()], [None] for
    [null]. *)
Class Workspace (W : Type) := {
  workspace_getActiveFile : W -> option TFile
}.

(** What [moveActiveFile] shows and logs: three notices and one console
    line of its own (main.js 54, 63, 102, 94), and everything the shared
    code logs. *)
Inductive ActiveLine :=
| NoticeNoActiveFile
| NoticeReadFailed
| NoticeNoPrefixTag
| ConsoleTagList (tags : list jsstring)
| Shared (ev : Event).

Record Desk (W : Type) := mkDesk { desk_world : W; desk_log : list ActiveLine }.

Definition say {W : Type} (l : ActiveLine) (d : Desk W) : Desk W :=
  {| desk_world := desk_world d; desk_log := desk_log d ++ [l] |}.

(** A computation of the shared code, run at the desk: its log entries go
    to the end of the desk's log. *)
Definition shared {W A : Type} (m : M W A) (d : Desk W) : result A * Desk W :=
  let (r, st) := m {| world := desk_world d; log := [] |} in
  (r, {| desk_world := world st;
         desk_log := desk_log d ++ map Shared (log st) |}).

Section ActiveFile.

Context {W : Type} {host : Host W} {workspace : Workspace W}.
Variable settings : Settings.

Definition moveActiveFile (d : Desk W) : result unit * Desk W :=
  match workspace_getActiveFile (desk_world d) with
  | None => (inr tt, say NoticeNoActiveFile d)
  | Some file =>
      if negb (endsWith (path file) (lit ".md"))
      then (inr tt, say NoticeNoActiveFile d)
      else
        match shared (request (ReqRead file) (vault_read file)) d with
        | (inl e, d1) =>
            (inr tt,
             say NoticeReadFailed (say (Shared (Console Err (CReadFailed e))) d1))
        | (inr content, d1) =>
            let fmMatch := fm_match content in
            let (fmTags, d2) :=
              match fmMatch with
              | Some (_, group1) =>
                  match parseYaml group1 with
                  | inr fmObj =>
                      match frontmatter_strings fmObj with
                      | Some strings => (strings, d1)
                      | None =>
                          ([], say (Shared (Console Warn (CYamlFailed TypeError))) d1)
                      end
                  | inl e => ([], say (Shared (Console Warn (CYamlFailed e))) d1)
                  end
              | None => ([], d1)
              end in
            let body :=
              match fmMatch with
              | Some (whole, _) => skipn (List.length whole) content
              | None => content
              end in
            let rawPrefix := strip_hash (tagPrefix settings) in
            let tags := fmTags ++ body_matches rawPrefix body in
            let d3 := say (ConsoleTagList tags) d2 in
            match find (fun t => startsWith t rawPrefix) (map normalize tags) with
            | Some first =>
                if nonempty first then
                  let relativePath := substringFrom first (List.length rawPrefix) in
                  match shared (moveFileToProject settings file relativePath false) d3 with
                  | (inl e, d4) => (inl e, d4)
                  | (inr _, d4) => (inr tt, d4)
                  end
                else (inr tt, say NoticeNoPrefixTag d3)
            | None => (inr tt, say NoticeNoPrefixTag d3)
            end
        end
  end.

End ActiveFile.

(** The small host with a note in its active pane. *)
Record DemoDesk := mkDemoDesk { on_disk : Demo.Disk; active : option TFile }.

#[global] Instance demo_desk_host : Host DemoDesk := {
  vault_read f w :=
    let (r, d) := Demo.read f (on_disk w) in (r, mkDemoDesk d (active w));
  vault_getMarkdownFiles w := Demo.getMarkdownFiles (on_disk w);
  adapter_exists p w :=
    let (r, d) := Demo.exists_ p (on_disk w) in (r, mkDemoDesk d (active w));
  adapter_mkdir p w :=
    let (r, d) := Demo.mkdir p (on_disk w) in (r, mkDemoDesk d (active w));
  fileManager_renameFile f p w :=
    let (r, d) := Demo.renameFile f p (on_disk w) in (r, mkDemoDesk d (active w));
  parseYaml := Demo.parseYaml;
  normalizePath := Demo.normalizePath
}.

#[global] Instance demo_workspace : Workspace DemoDesk := {
  workspace_getActiveFile := active
}.

Definition desk_start (d : Demo.Disk) (f : option TFile) : Desk DemoDesk :=
  {| desk_world := mkDemoDesk d f; desk_log := [] |}.

(** A note whose only tag has a rule of the default table, and a note
    that names the project inside a word and between quotes. *)
Definition disk_urgent : Demo.Disk :=
  Demo.mkDisk [(lit "02/notes/x.md", lit "work/urgent")] [].

Definition disk_inline : Demo.Disk :=
  Demo.mkDisk [(lit "02/notes/x.md", lit "see:'#pjt/q1' and pjt/q2")] [].

(* ================================================================== *)
(** * The earlier version of the plugin (src/unnamed/part_000) *)
(* ================================================================== *)

(** The second source file is an earlier state of [main.js].  Its tag
    extraction (lines 166-191) and its batch loop (lines 129-155) are the
    ones above, character for character; [moveFileToProject] and the
    second half of [processFile] differ.  The class defines
    [moveFileToProject] twice; the later definition (lines 221-241), with
    three parameters, is the one in force. *)

Module Old.

Section OldPlugin.

Context {W : Type} {host : Host W}.
Variable settings : Settings.

(** [moveFileToProject] (part_000 221-241): no check of the path, no
    result. *)
Definition moveFileToProject (file : TFile) (path : jsstring) (isFullPath : bool)
  : M W unit :=
  let targetPath :=
    if isFullPath
    then path ++ lit "/" ++ name file
    else rootFolder settings ++ lit "/" ++ path ++ lit "/" ++ name file in
  let folderPath := substring0 targetPath (lastIndexOf targetPath SLASH) in
  emit (Console Log (CTarget targetPath)) ;;
  emit (Console Log (CFolder folderPath)) ;;
  try_catch
    (present <- request (ReqExists folderPath) (adapter_exists folderPath) ;;
     (if negb present
      then request (ReqMkdir folderPath) (adapter_mkdir folderPath)
      else ret tt) ;;
     request (ReqRename file targetPath) (fileManager_renameFile file targetPath) ;;
     emit (Notice (NoticeMoved targetPath)) ;;
     emit (Console Log (CMoved (Vault.path file) targetPath)) ;;
     ret tt)
    (fun e =>
       emit (Console Err (CMoveFailed e)) ;;
       emit (Notice NoticeMoveFailed) ;;
       ret tt).

(** Lines 199-206: the rule must equal the tag as it is.  The console
    line of this version names the pattern and the destination only; the
    pattern stands for the normalized pattern in [CRuleMatched]. *)
Fixpoint rule_loop (file : TFile) (tags : list jsstring) : M W bool :=
  match tags with
  | [] => ret false
  | pattern :: tags' =>
      match find (fun r => str_eqb (tagPattern r) pattern) (tagRules settings) with
      | Some rule =>
          emit (Console Log (CRuleMatched pattern pattern (destination rule))) ;;
          moveFileToProject file (destination rule) true ;;
          ret true
      | None => rule_loop file tags'
      end
  end.

(** Lines 208-218. *)
Definition prefix_fallback (file : TFile) (tags : list jsstring) : M W unit :=
  let pjtPrefix := strip_hash (tagPrefix settings) in
  match find (fun t => startsWith t pjtPrefix) tags with
  | Some pjtTag =>
      if nonempty pjtTag then
        let relativePath := substringFrom pjtTag (List.length pjtPrefix) in
        emit (Console Log (CDefault pjtTag relativePath)) ;;
        moveFileToProject file relativePath false
      else throw (Error NoMatchingTag)
  | None => throw (Error NoMatchingTag)
  end.

(** [processFile] (part_000 157-219). *)
Definition processFile (file : TFile) : M W unit :=
  content <-
    try_catch
      (request (ReqRead file) (vault_read file))
      (fun e => emit (Console Err (CReadFailed e)) ;; throw (Error ReadFailed)) ;;
  tags <- extract_tags content ;;
  emit (Console Log (CDetectedTags (path file) tags)) ;;
  if Nat.eqb (List.length tags) 0
  then throw (Error NoTagsFound)
  else
    returned <- rule_loop file tags ;;
    if returned then ret tt else prefix_fallback file tags.

(** The loop of [moveAllFiles] (part_000 144-152). *)
Fixpoint batch_loop (files : list TFile) (successCount failCount : nat)
  : M W (nat * nat) :=
  match files with
  | [] => ret (successCount, failCount)
  | file :: files' =>
      counts <-
        try_catch
          (processFile file ;; ret (S successCount, failCount))
          (fun e =>
             emit (Console Err (CFileFailed (path file) e)) ;;
             ret (successCount, S failCount)) ;;
      batch_loop files' (fst counts) (snd counts)
  end.

End OldPlugin.

(** Whether lines 199-218 find a destination for a tag list. *)
Definition resolves (settings : Settings) (tags : list jsstring) : bool :=
  existsb (fun pattern =>
             existsb (fun r => str_eqb (tagPattern r) pattern) (tagRules settings))
          tags
  || match find (fun t => startsWith t (strip_hash (tagPrefix settings))) tags with
     | Some pjtTag => nonempty pjtTag
     | None => false
     end.

End Old.

(** A vault where the destination of the note is already taken, so that
    the rename fails. *)
Definition disk_taken : Demo.Disk :=
  Demo.mkDisk [(lit "02/notes/x.md", lit "pjt/q1");
               (lit "03_project/q1/x.md", lit "the other x")]
              [lit "03_project/q1"].

(* ================================================================== *)
(** * Proof steps *)
(* ================================================================== *)

(** Unfolds the monad down to pairs of a result and a state. *)
Ltac run_monad :=
  unfold notice, console in *;
  unfold bind, ret, throw, try_catch, emit, lift, request, logged in *;
  cbn [fst snd world log] in *.

(** Reduces the matches a case split has decided. *)
Ltac step := cbv beta iota; cbn [negb world log fst snd].

(** Closes one outcome of [moveFileToProject]: the log is shown to be the
    old one with the new entries appended, the rest is read off them. *)
Ltac finish :=
  do 3 eexists; split; [repeat rewrite <- app_assoc; reflexivity|];
  cbn; repeat split; try intuition congruence.

(** Opens one outcome of [moveFileToProject] for the facts read off its
    log. *)
Ltac close_protocol :=
  do 3 eexists; split; [repeat rewrite <- app_assoc; reflexivity|];
  cbn [requests_of renamed_of failed_of reads_of app].

(** Membership in a computed log. *)
Ltac in_log := vm_compute; repeat (first [left; reflexivity | right]).

(* ================================================================== *)
(** * Strings: basic facts *)
(* ================================================================== *)

Lemma str_eqb_eq (a b : jsstring) : str_eqb a b = true <-> a = b.
Proof.
  revert b; induction a as [|x a IH]; intros [|y b]; simpl; split; intro H;
    try reflexivity; try discriminate.
  - apply andb_true_iff in H as [Hx Ha].
    apply N.eqb_eq in Hx. apply IH in Ha. congruence.
  - injection H as -> ->. rewrite N.eqb_refl. apply IH. reflexivity.
Qed.

Lemma str_eqb_refl (a : jsstring) : str_eqb a a = true.
Proof. apply str_eqb_eq. reflexivity. Qed.

Lemma startsWith_app (s p : jsstring) :
  startsWith s p = true <-> exists rest, s = p ++ rest.
Proof.
  revert s; induction p as [|y p IH]; intros s; simpl.
  - split; [intros _; exists s; reflexivity | destruct s; reflexivity].
  - destruct s as [|x s].
    + split; [discriminate | intros [rest H]; discriminate].
    + cbn [startsWith]. rewrite andb_true_iff, N.eqb_eq, IH. split.
      * intros [-> [rest ->]]. exists rest. reflexivity.
      * intros [rest H]. injection H as -> ->. split; [reflexivity | eauto].
Qed.

Lemma space_not_tagchar (c : char) : is_space c = true -> is_tagchar c = false.
Proof.
  unfold is_space, is_tagchar, is_word, between, SLASH, DASH.
  repeat rewrite orb_true_iff. repeat rewrite andb_true_iff.
  repeat rewrite N.leb_le. repeat rewrite N.eqb_eq.
  intro H.
  repeat (apply orb_false_iff; split);
    try (apply andb_false_iff;
         destruct (N.leb_spec 65 c); destruct (N.leb_spec 97 c);
         destruct (N.leb_spec 48 c);
         try (right; apply N.leb_gt; lia); try (left; reflexivity);
         try (left; apply N.leb_gt; lia));
    try (apply N.eqb_neq; lia).
Qed.

Lemma space_not_hash (c : char) : is_space c = true -> N.eqb c HASH = false.
Proof.
  unfold is_space, between, HASH.
  repeat rewrite orb_true_iff. repeat rewrite andb_true_iff.
  repeat rewrite N.leb_le. repeat rewrite N.eqb_eq.
  intro H. apply N.eqb_neq. lia.
Qed.

Lemma hash_not_tagchar : is_tagchar HASH = false.
Proof. reflexivity. Qed.

(* ================================================================== *)
(** * Normalisation *)
(* ================================================================== *)

Section Normalisation.

Lemma quote_is_quote_or_hash (c : char) :
  is_quote_or_hash c = false -> is_quote c = false.
Proof.
  unfold is_quote_or_hash, is_quote. intro H.
  apply orb_false_iff in H as [H _]. exact H.
Qed.

Lemma hash_is_quote_or_hash (c : char) :
  is_quote_or_hash c = false -> N.eqb c HASH = false.
Proof.
  unfold is_quote_or_hash. intro H.
  apply orb_false_iff in H as [_ H]. exact H.
Qed.

Lemma drop_leading_clean (t : jsstring) :
  clean_head (drop_leading_quotes_hashes t).
Proof.
  induction t as [|c t IH]; simpl; [exact I|].
  destruct (is_quote_or_hash c) eqn:E; [exact IH | exact E].
Qed.

Lemma drop_trailing_keeps_clean (s : jsstring) :
  clean_head s -> clean_head (drop_trailing_quotes s).
Proof.
  destruct s as [|c s]; simpl; [trivial|]. intro H.
  rewrite (quote_is_quote_or_hash _ H). simpl. exact H.
Qed.

Lemma not_all_quotes_after_drop (s : jsstring) :
  forallb is_quote s = false ->
  forallb is_quote (drop_trailing_quotes s) = false.
Proof.
  induction s as [|c s IH]; [discriminate|].
  intro H. cbn [drop_trailing_quotes]. rewrite H.
  cbn [forallb] in *. destruct (is_quote c); [|reflexivity].
  simpl in *. apply IH, H.
Qed.

Lemma drop_trailing_idem (s : jsstring) :
  drop_trailing_quotes (drop_trailing_quotes s) = drop_trailing_quotes s.
Proof.
  induction s as [|c s IH]; [reflexivity|].
  cbn [drop_trailing_quotes].
  destruct (forallb is_quote (c :: s)) eqn:E; [reflexivity|].
  cbn [drop_trailing_quotes].
  assert (forallb is_quote (c :: drop_trailing_quotes s) = false) as ->.
  { cbn [forallb] in *. destruct (is_quote c); [|reflexivity].
    simpl in *. apply not_all_quotes_after_drop, E. }
  rewrite IH. reflexivity.
Qed.

Lemma strip_quotes_clean (s : jsstring) :
  clean_head s -> strip_quotes s = drop_trailing_quotes s.
Proof.
  destruct s as [|c s]; [reflexivity|]. simpl. intros ->. reflexivity.
Qed.

Lemma strip_hash_clean (s : jsstring) : clean_head s -> strip_hash s = s.
Proof.
  destruct s as [|c s]; [reflexivity|]. simpl. intro H.
  rewrite (hash_is_quote_or_hash _ H). reflexivity.
Qed.

(** What [normalize] returns: the trailing quotes dropped from a string
    with a clean head. *)
Lemma normalize_shape (t : jsstring) :
  exists r, clean_head r /\ normalize t = drop_trailing_quotes r.
Proof.
  unfold normalize, strip_quotes.
  destruct t as [|c t].
  - exists []. split; [exact I | reflexivity].
  - destruct (is_quote_or_hash c) eqn:E.
    + exists (drop_leading_quotes_hashes (c :: t)). split.
      * apply drop_leading_clean.
      * apply strip_hash_clean, drop_trailing_keeps_clean, drop_leading_clean.
    + exists (c :: t). split; [exact E|].
      apply strip_hash_clean, drop_trailing_keeps_clean. exact E.
Qed.

(** C8: the tag normalisation of main.js 98 (leading quotes and hash
    marks stripped, trailing quotes stripped, then one leading hash mark)
    is idempotent: for every string [t],
    [normalize (normalize t) = normalize t]. *)
Theorem normalize_idempotent (t : jsstring) :
  normalize (normalize t) = normalize t.
Proof.
  destruct (normalize_shape t) as [r [Hr ->]].
  pose proof (drop_trailing_keeps_clean _ Hr) as Hc.
  unfold normalize.
  rewrite (strip_quotes_clean _ Hc), drop_trailing_idem.
  apply strip_hash_clean, Hc.
Qed.

End Normalisation.

(* ================================================================== *)
(** * The body scan finds the whitespace-bounded tokens *)
(* ================================================================== *)

Section BodyScan.

Lemma split_ws_cons (s : jsstring) :
  Spec.split_ws s = first_word s :: tl (Spec.split_ws s).
Proof.
  unfold first_word.
  destruct s as [|c s]; simpl; [reflexivity|].
  destruct (is_space c); [reflexivity|].
  destruct (Spec.split_ws s); reflexivity.
Qed.

Lemma first_word_space (c : char) (s : jsstring) :
  is_space c = true -> first_word (c :: s) = [].
Proof. unfold first_word. simpl. intros ->. reflexivity. Qed.

Lemma first_word_nonspace (c : char) (s : jsstring) :
  is_space c = false -> first_word (c :: s) = c :: first_word s.
Proof.
  unfold first_word. simpl. intros ->.
  destruct (Spec.split_ws s); reflexivity.
Qed.

Lemma tl_split_space (c : char) (s : jsstring) :
  is_space c = true -> tl (Spec.split_ws (c :: s)) = Spec.split_ws s.
Proof. simpl. intros ->. reflexivity. Qed.

Lemma tl_split_nonspace (c : char) (s : jsstring) :
  is_space c = false -> tl (Spec.split_ws (c :: s)) = tl (Spec.split_ws s).
Proof.
  simpl. intros ->. destruct (Spec.split_ws s) eqn:E; [|reflexivity].
  rewrite split_ws_cons in E. discriminate.
Qed.

Lemma lookahead_first_word (s : jsstring) :
  lookahead_space_or_end s = negb (nonempty (first_word s)).
Proof.
  destruct s as [|c s]; [reflexivity|]. simpl.
  destruct (is_space c) eqn:E.
  - rewrite first_word_space by exact E. reflexivity.
  - rewrite first_word_nonspace by exact E. reflexivity.
Qed.

Lemma drop_word_space (c : char) (s : jsstring) :
  is_space c = true -> drop_word (c :: s) = c :: s.
Proof. unfold drop_word. intro H. rewrite first_word_space by exact H. reflexivity. Qed.

Lemma drop_word_nonspace (c : char) (s : jsstring) :
  is_space c = false -> drop_word (c :: s) = drop_word s.
Proof.
  unfold drop_word. intro H. rewrite first_word_nonspace by exact H. reflexivity.
Qed.

Lemma drop_word_length (s : jsstring) :
  List.length (drop_word s) <= List.length s.
Proof. unfold drop_word. rewrite length_skipn. lia. Qed.

Lemma tl_split_drop_word (s : jsstring) :
  tl (Spec.split_ws (drop_word s)) = tl (Spec.split_ws s).
Proof.
  induction s as [|c s IH]; [reflexivity|].
  destruct (is_space c) eqn:E.
  - rewrite drop_word_space by exact E. reflexivity.
  - rewrite drop_word_nonspace, tl_split_nonspace by exact E. exact IH.
Qed.

(** The greedy run with its lookahead succeeds exactly on a first word
    that is a non-empty run of tag characters, and stops behind it. *)
Lemma tag_run_first_word (s : jsstring) :
  tag_run s =
  if nonempty (first_word s) && forallb is_tagchar (first_word s)
  then Some (first_word s, drop_word s)
  else None.
Proof.
  induction s as [|c s IH]; [reflexivity|].
  cbn [tag_run].
  destruct (is_space c) eqn:Esp.
  - rewrite (space_not_tagchar _ Esp), first_word_space by exact Esp.
    reflexivity.
  - rewrite first_word_nonspace, drop_word_nonspace by exact Esp.
    cbn [nonempty forallb andb].
    destruct (is_tagchar c); [|reflexivity].
    rewrite IH, lookahead_first_word.
    destruct (first_word s) as [|d w] eqn:Ew.
    + simpl. unfold drop_word. rewrite Ew. reflexivity.
    + cbn [nonempty negb andb]. cbn [andb].
      destruct (forallb is_tagchar (d :: w)); reflexivity.
Qed.

Lemma hash_tag_run_first_word (s : jsstring) :
  hash_tag_run s =
  match Spec.token_tag (first_word s) with
  | Some t => Some (t, drop_word s)
  | None => None
  end.
Proof.
  unfold hash_tag_run, Spec.token_tag.
  destruct s as [|c s]; [reflexivity|].
  destruct (N.eqb c HASH) eqn:Eh.
  - apply N.eqb_eq in Eh. subst c.
    assert (is_space HASH = false) as Esp by reflexivity.
    rewrite first_word_nonspace, drop_word_nonspace by exact Esp.
    rewrite N.eqb_refl.
    rewrite (tag_run_first_word s).
    destruct (nonempty (first_word s) && forallb is_tagchar (first_word s));
      [reflexivity|].
    cbn [tag_run]. rewrite hash_not_tagchar. reflexivity.
  - rewrite tag_run_first_word.
    destruct (is_space c) eqn:Esp.
    + rewrite first_word_space by exact Esp. reflexivity.
    + rewrite first_word_nonspace by exact Esp. rewrite Eh.
      destruct (nonempty (c :: first_word s)
                && forallb is_tagchar (c :: first_word s)); reflexivity.
Qed.

Lemma token_tag_nonempty (w t : jsstring) :
  Spec.token_tag w = Some t -> w <> [].
Proof. intros H ->. discriminate. Qed.

(** Behind position 0 the loop yields the tokens that start behind a
    whitespace character. *)
Lemma exec_loop_inside (fuel : nat) :
  forall s, List.length s < fuel ->
  exec_loop fuel false s = Spec.collect (tl (Spec.split_ws s)).
Proof.
  induction fuel as [|fuel IH]; intros s Hlen; [lia|].
  cbn [exec_loop]. unfold match_here.
  destruct s as [|c s]; [reflexivity|].
  simpl in Hlen.
  destruct (is_space c) eqn:Esp.
  - rewrite tl_split_space by exact Esp.
    rewrite hash_tag_run_first_word, (split_ws_cons s).
    cbn [Spec.collect].
    destruct (Spec.token_tag (first_word s)) as [t|].
    + rewrite IH by (pose proof (drop_word_length s); lia).
      rewrite tl_split_drop_word. reflexivity.
    + rewrite IH by lia. reflexivity.
  - rewrite tl_split_nonspace by exact Esp.
    apply IH. lia.
Qed.

Lemma exec_loop_start (fuel : nat) (s : jsstring) :
  List.length s < fuel ->
  exec_loop fuel true s = Spec.collect (Spec.split_ws s).
Proof.
  intro Hlen. destruct fuel as [|fuel]; [lia|].
  rewrite (split_ws_cons s). cbn [Spec.collect].
  destruct (Spec.token_tag (first_word s)) as [t|] eqn:Et.
  - cbn [exec_loop]. unfold match_here.
    rewrite hash_tag_run_first_word, Et.
    assert (List.length (drop_word s) < List.length s) as Hdrop.
    { unfold drop_word. rewrite length_skipn.
      apply token_tag_nonempty in Et.
      pose proof (split_ws_cons s) as Hs.
      destruct (first_word s) as [|d w] eqn:Ew; [congruence|].
      destruct s as [|c s]; [discriminate Ew|]. simpl. lia. }
    rewrite exec_loop_inside by lia.
    rewrite tl_split_drop_word. reflexivity.
  - rewrite <- (exec_loop_inside (fuel := S fuel)) by exact Hlen.
    cbn [exec_loop]. unfold match_here.
    rewrite hash_tag_run_first_word, Et. reflexivity.
Qed.

(** The scan of main.js 167-171 yields, left to right, the tokens bounded
    by whitespace or the ends of the text that are a run of
    [[A-Za-z0-9_/-]] behind an optional hash mark. *)
Lemma body_tags_tokens (body : jsstring) :
  body_tags body = Spec.body_tags body.
Proof. unfold body_tags. apply exec_loop_start. lia. Qed.

End BodyScan.

(* ================================================================== *)
(** * Tag extraction *)
(* ================================================================== *)

Section Extraction.

Context {W : Type} {host : Host W}.

(** What [extract_tags] computes, case by case. *)
Lemma extract_tags_run (content : jsstring) (st : State W) :
  extract_tags content st =
  match fm_match content with
  | Some (_, group1) =>
      match parseYaml group1 with
      | inr fmObj =>
          match frontmatter_tags fmObj with
          | Some tags => (inr (tags ++ body_tags (body_of content)), st)
          | None =>
              (inr (body_tags (body_of content)),
               logged st [Console Warn (CYamlFailed TypeError)])
          end
      | inl e =>
          (inr (body_tags (body_of content)),
           logged st [Console Warn (CYamlFailed e)])
      end
  | None => (inr (body_tags content), st)
  end.
Proof.
  unfold extract_tags, body_of.
  destruct (fm_match content) as [[whole group1]|]; run_monad.
  - destruct (parseYaml group1) as [e|fmObj]; [reflexivity|].
    destruct (frontmatter_tags fmObj); reflexivity.
  - reflexivity.
Qed.

Lemma lazy_group_contains_fence (s : jsstring) (r : jsstring * jsstring) :
  lazy_group_then_fence s = Some r -> contains_fence s = true.
Proof.
  revert r; induction s as [|c s IH]; intros r H.
  - discriminate.
  - cbn [lazy_group_then_fence] in H. cbn [contains_fence].
    destruct (startsWith (c :: s) (LF :: lit "---")); [reflexivity|].
    destruct (lazy_group_then_fence s) as [[g rest]|]; [|discriminate].
    rewrite (IH _ eq_refl). reflexivity.
Qed.

Lemma contains_fence_tail (c : char) (s : jsstring) :
  contains_fence s = true -> contains_fence (c :: s) = true.
Proof. intro H. cbn [contains_fence]. rewrite H. apply orb_true_r. Qed.

Lemma newline_group_contains_fence (s : jsstring) (r : jsstring * jsstring) :
  newline_group_fence s = Some r -> contains_fence s = true.
Proof.
  destruct s as [|c s]; [discriminate|]. unfold newline_group_fence.
  destruct (N.eqb c LF); [|discriminate].
  intro H. apply contains_fence_tail. eapply lazy_group_contains_fence, H.
Qed.

Lemma spaces_group_contains_fence (s : jsstring) (r : jsstring * jsstring) :
  spaces_newline_group_fence s = Some r -> contains_fence s = true.
Proof.
  revert r; induction s as [|c s IH]; intros r H; [discriminate|].
  cbn [spaces_newline_group_fence] in H.
  destruct (is_space c).
  - destruct (spaces_newline_group_fence s) as [r'|].
    + apply contains_fence_tail. eapply IH. reflexivity.
    + eapply newline_group_contains_fence, H.
  - eapply newline_group_contains_fence, H.
Qed.

(** Without a closing fence behind the opening dashes there is no
    frontmatter match. *)
Lemma fm_match_unterminated (content : jsstring) :
  contains_fence (skipn 3 content) = false -> fm_match content = None.
Proof.
  intro H. unfold fm_match.
  destruct (startsWith content (lit "---")); [|reflexivity].
  destruct (spaces_newline_group_fence (skipn 3 content)) as [[g rest]|] eqn:E;
    [|reflexivity].
  apply spaces_group_contains_fence in E. congruence.
Qed.


(** A [map] over elements that all convert keeps their order. *)
Lemma coerce_all_converts (post : jsstring -> jsstring)
    (items : list jsval) (strs : list jsstring) :
  Forall2 (fun t s => to_String t = Some s) items strs ->
  coerce_all post items = Some (map post strs).
Proof.
  induction 1 as [|t s items strs Ht _ IH]; [reflexivity|].
  cbn [coerce_all map]. rewrite Ht, IH. reflexivity.
Qed.

(** A [map] over elements one of which does not convert throws. *)
Lemma coerce_all_throws (post : jsstring -> jsstring)
    (items : list jsval) (t : jsval) :
  In t items -> to_String t = None -> coerce_all post items = None.
Proof.
  induction items as [|x items IH]; intros Hin Ht; [contradiction|].
  cbn [coerce_all]. destruct Hin as [->|Hin].
  - rewrite Ht. reflexivity.
  - rewrite (IH Hin Ht). destruct (to_String x); reflexivity.
Qed.

(** A [map] that returns has converted every element. *)
Lemma coerce_all_inv (post : jsstring -> jsstring)
    (items : list jsval) (out : list jsstring) :
  coerce_all post items = Some out ->
  exists strs,
    Forall2 (fun t s => to_String t = Some s) items strs /\ out = map post strs.
Proof.
  revert out; induction items as [|x items IH]; intros out H.
  - injection H as <-. exists []. split; [constructor|reflexivity].
  - cbn [coerce_all] in H. destruct (to_String x) as [s|] eqn:Ex; [|discriminate].
    destruct (coerce_all post items) as [ss|]; [|discriminate].
    injection H as <-. destruct (IH ss eq_refl) as (strs & HF & ->).
    exists (s :: strs). split; [constructor; assumption|reflexivity].
Qed.

(** The frontmatter tags of a parsed block, by the shape of its [tags]
    value. *)
Lemma frontmatter_tags_shape (fields : list (jsstring * jsval)) :
  let v := lookup_field (lit "tags") fields in
  (forall items strs, v = VArr items ->
     Forall2 (fun t s => to_String t = Some s) items strs ->
     frontmatter_tags (VObj fields) = Some (map strip_hash strs))
  /\ (forall items t, v = VArr items -> In t items -> to_String t = None ->
      frontmatter_tags (VObj fields) = None)
  /\ ((forall items, v <> VArr items) -> truthy v = true ->
      frontmatter_tags (VObj fields) =
      option_map (fun s => [strip_hash s]) (to_String v))
  /\ (truthy v = false -> frontmatter_tags (VObj fields) = Some []).
Proof.
  intro v. unfold frontmatter_tags. cbn [truthy get_tags andb]. fold v.
  split; [|split; [|split]].
  - intros items strs -> HF. cbn [truthy as_array].
    apply coerce_all_converts, HF.
  - intros items t -> Hin Ht. cbn [truthy as_array].
    eapply coerce_all_throws; eassumption.
  - intros Hna ->.
    assert (as_array v = [v]) as ->.
    { destruct v; try reflexivity. exfalso. eapply Hna. reflexivity. }
    cbn [coerce_all]. destruct (to_String v); reflexivity.
  - intros ->. reflexivity.
Qed.

(** A parsed block that is not a key-value document has no [tags]. *)
Lemma frontmatter_tags_not_object (fmObj : jsval) :
  (forall fields, fmObj <> VObj fields) -> frontmatter_tags fmObj = Some [].
Proof.
  intro H. unfold frontmatter_tags.
  destruct fmObj; cbn [truthy get_tags andb]; try reflexivity.
  - destruct b; reflexivity.
  - destruct (nonempty s); reflexivity.
  - destruct truthy0; reflexivity.
  - exfalso. eapply H. reflexivity.
Qed.

(** C4, as the code has it: for every document the extraction returns the
    frontmatter tags first, then the body tags, nothing removed.  The
    frontmatter tags are the elements of a truthy [tags] value in their
    order (a value that is not an array taken as its only element), each
    converted to a string and without one leading hash mark; a falsy value
    ([false], [0], the empty string, [null], an absent key) and an
    unparsable block give none.  A string converts to itself; a mapping
    converts unless it has a [toString] key of its own, and then the
    conversion throws: when the conversion of any element throws, the
    block gives no tag at all and a warning is logged, as for an
    unparsable block.  The body tags are, left to right, the tokens bounded
    by whitespace or the ends of the body that are a run of
    [[A-Za-z0-9_/-]] behind an optional hash mark.  A document with
    frontmatter [tags: [a, b]] and body [#c d] yields [a, b, c, d]. *)
Theorem extraction_order (content : jsstring) (st : State W) :
  (exists fm,
      fst (extract_tags content st) = inr (fm ++ Spec.body_tags (body_of content))
      /\ fm = match fm_match content with
              | Some (_, group1) =>
                  match parseYaml group1 with
                  | inr fmObj =>
                      match frontmatter_tags fmObj with
                      | Some tags => tags
                      | None => []
                      end
                  | inl _ => []
                  end
              | None => []
              end)
  /\ (forall fields,
        let v := lookup_field (lit "tags") fields in
        (forall items strs, v = VArr items ->
           Forall2 (fun t s => to_String t = Some s) items strs ->
           frontmatter_tags (VObj fields) = Some (map strip_hash strs))
        /\ (forall items t, v = VArr items -> In t items -> to_String t = None ->
            frontmatter_tags (VObj fields) = None)
        /\ ((forall items, v <> VArr items) -> truthy v = true ->
            frontmatter_tags (VObj fields) =
            option_map (fun s => [strip_hash s]) (to_String v))
        /\ (truthy v = false -> frontmatter_tags (VObj fields) = Some []))
  /\ (forall fmObj, (forall fields, fmObj <> VObj fields) ->
        frontmatter_tags fmObj = Some [])
  /\ (forall s, to_String (VStr s) = Some s)
  /\ (forall fields,
        to_String (VObj fields) = None <-> owns (lit "toString") fields = true)
  /\ (forall whole group1 fmObj,
        fm_match content = Some (whole, group1) ->
        parseYaml group1 = inr fmObj ->
        frontmatter_tags fmObj = None ->
        extract_tags content st =
        (inr (body_tags (skipn (List.length whole) content)),
         logged st [Console Warn (CYamlFailed TypeError)]))
  /\ (parseYaml (lit "tags: [a, b]") =
        inr (VObj [(lit "tags", VArr [VStr (lit "a"); VStr (lit "b")])]) ->
      fst (extract_tags
             (unlines [lit "---"; lit "tags: [a, b]"; lit "---"; lit "#c d"]) st)
      = inr [lit "a"; lit "b"; lit "c"; lit "d"]).
Proof.
  split; [|split; [|split; [|split; [|split; [|split]]]]].
  - rewrite extract_tags_run.
    destruct (fm_match content) as [[whole group1]|] eqn:Em.
    + destruct (parseYaml group1) as [e|fmObj];
        [|destruct (frontmatter_tags fmObj)];
        eexists; split; try reflexivity; cbn [fst];
        rewrite body_tags_tokens; reflexivity.
    + exists []. split; [|reflexivity].
      cbn [fst]. rewrite body_tags_tokens. unfold body_of. rewrite Em.
      reflexivity.
  - apply frontmatter_tags_shape.
  - apply frontmatter_tags_not_object.
  - reflexivity.
  - intro fields. cbn [to_String].
    destruct (owns (lit "toString") fields); split; congruence.
  - intros whole group1 fmObj Hm Hp Hf.
    rewrite extract_tags_run. unfold body_of. rewrite Hm, Hp, Hf. reflexivity.
  - intro Hp. rewrite extract_tags_run.
    change (fm_match (unlines [lit "---"; lit "tags: [a, b]"; lit "---"; lit "#c d"]))
      with (Some (unlines [lit "---"; lit "tags: [a, b]"; lit "---"],
                  lit "tags: [a, b]")).
    cbv beta iota. rewrite Hp. reflexivity.
Qed.

End Extraction.

(* ================================================================== *)
(** * Rule resolution *)
(* ================================================================== *)

Section Resolution.

Context {W : Type} {host : Host W}.
Variable settings : Settings.

Lemma rule_matches_eq (n : jsstring) (r : TagRule) :
  rule_matches n r = true <-> strip_hash (tagPattern r) = n.
Proof. unfold rule_matches. apply str_eqb_eq. Qed.

(** [find] returns the first element, in order, that passes the test. *)
Lemma find_first {A : Type} (f : A -> bool) (l : list A) (x : A) :
  find f l = Some x ->
  exists before after,
    l = before ++ x :: after /\ f x = true
    /\ forall y, In y before -> f y = false.
Proof.
  induction l as [|a l IH]; [discriminate|]. simpl.
  destruct (f a) eqn:E.
  - intro H. injection H as <-. exists [], l. repeat split; [exact E|].
    intros y [].
  - intro H. destruct (IH H) as (before & after & -> & Hx & Hb).
    exists (a :: before), after. repeat split; [exact Hx|].
    intros y [<-|Hy]; [exact E | apply Hb, Hy].
Qed.

Lemma find_first_inv {A : Type} (f : A -> bool) (before after : list A) (x : A) :
  f x = true -> (forall y, In y before -> f y = false) ->
  find f (before ++ x :: after) = Some x.
Proof.
  intros Hx. induction before as [|a before IH]; intro Hb; simpl.
  - rewrite Hx. reflexivity.
  - rewrite (Hb a) by (left; reflexivity).
    apply IH. intros y Hy. apply Hb. right. exact Hy.
Qed.

Lemma find_none_iff {A : Type} (f : A -> bool) (l : list A) :
  find f l = None <-> forall y, In y l -> f y = false.
Proof.
  split; [apply find_none|].
  induction l as [|a l IH]; [reflexivity|]. intro H. simpl.
  rewrite (H a) by (left; reflexivity).
  apply IH. intros y Hy. apply H. right. exact Hy.
Qed.

(** Pass 1 is the double scan, tags outside and rules inside. *)
Lemma pass1_double_scan (rules : list TagRule) (tags : list jsstring) :
  match pass1 rules tags with
  | Some (pattern, rule) =>
      exists before after earlier later,
        tags = before ++ pattern :: after
        /\ rules = earlier ++ rule :: later
        /\ (forall t r, In t before -> In r rules ->
              strip_hash (tagPattern r) <> strip_hash t)
        /\ (forall r, In r earlier ->
              strip_hash (tagPattern r) <> strip_hash pattern)
        /\ strip_hash (tagPattern rule) = strip_hash pattern
  | None =>
      forall t r, In t tags -> In r rules ->
        strip_hash (tagPattern r) <> strip_hash t
  end.
Proof.
  induction tags as [|t tags IH]; simpl.
  - intros t r [].
  - destruct (find (rule_matches (strip_hash t)) rules) as [rule|] eqn:Ef.
    + destruct (find_first _ _ Ef) as (earlier & later & -> & Hm & He).
      exists [], tags, earlier, later. repeat split.
      * intros t' r [].
      * intros r Hr Heq. apply rule_matches_eq in Heq.
        rewrite (He r Hr) in Heq. discriminate.
      * apply rule_matches_eq, Hm.
    + pose proof (proj1 (find_none_iff _ _) Ef) as Hn.
      destruct (pass1 rules tags) as [[pattern rule]|].
      * destruct IH as (before & after & earlier & later & -> & -> & Hb & He & Hm).
        exists (t :: before), after, earlier, later. repeat split; trivial.
        intros t' r [<-|Ht'] Hr.
        -- intro Heq. apply rule_matches_eq in Heq.
           rewrite (Hn r Hr) in Heq. discriminate.
        -- apply Hb; assumption.
      * intros t' r [<-|Ht'] Hr.
        -- intro Heq. apply rule_matches_eq in Heq.
           rewrite (Hn r Hr) in Heq. discriminate.
        -- apply IH; assumption.
Qed.

(** The loop of lines 180-196 acts on the pair that [pass1] finds. *)
Lemma rule_loop_pass1 (file : TFile) (tags : list jsstring) (st : State W) :
  rule_loop settings file tags st =
  match pass1 (tagRules settings) tags with
  | Some (pattern, rule) =>
      (console Log (CRuleMatched pattern (strip_hash pattern) (destination rule)) ;;
       moveSuccess <- moveFileToProject settings file (destination rule) true ;;
       if negb moveSuccess
       then throw (Error (RuleMoveFailed pattern (destination rule)))
       else ret true) st
  | None => (inr false, st)
  end.
Proof.
  induction tags as [|t tags IH]; simpl; [reflexivity|].
  destruct (find (rule_matches (strip_hash t)) (tagRules settings));
    [reflexivity | exact IH].
Qed.

(** What [processFile] does with a non-empty tag list, by the outcome of
    [resolve]. *)
Lemma process_tags_resolve (file : TFile) (tags : list jsstring) (st : State W) :
  tags <> [] ->
  match resolve settings tags with
  | Some (dest, isFullPath) =>
      exists line failure,
        process_tags settings file tags st =
        (console Log line ;;
         moveSuccess <- moveFileToProject settings file dest isFullPath ;;
         if negb moveSuccess then throw (Error failure) else ret tt) st
  | None => process_tags settings file tags st = (inl (Error NoMatchingTag), st)
  end.
Proof.
  intro Hne.
  assert (process_tags settings file tags st =
          match pass1 (tagRules settings) tags with
          | Some (pattern, rule) =>
              (console Log (CRuleMatched pattern (strip_hash pattern) (destination rule)) ;;
               moveSuccess <- moveFileToProject settings file (destination rule) true ;;
               if negb moveSuccess
               then throw (Error (RuleMoveFailed pattern (destination rule)))
               else ret tt) st
          | None => prefix_fallback settings file tags st
          end) as ->.
  { unfold process_tags.
    destruct tags as [|t0 tags0]; [congruence|]. cbn [List.length Nat.eqb].
    unfold bind at 1. rewrite rule_loop_pass1.
    destruct (pass1 (tagRules settings) (t0 :: tags0)) as [[pattern rule]|];
      [|reflexivity].
    run_monad.
    destruct (moveFileToProject settings file (destination rule) true _)
      as [[e|[|]] st']; reflexivity. }
  unfold resolve.
  destruct (pass1 (tagRules settings) tags) as [[pattern rule]|].
  - exists (CRuleMatched pattern (strip_hash pattern) (destination rule)),
           (RuleMoveFailed pattern (destination rule)).
    reflexivity.
  - unfold prefix_fallback, pass2.
    destruct (find (fun t => startsWith t (strip_hash (tagPrefix settings))) tags)
      as [pjtTag|]; [|reflexivity].
    destruct (nonempty pjtTag); [|reflexivity].
    exists (CDefault pjtTag
              (substringFrom pjtTag (List.length (strip_hash (tagPrefix settings))))),
           (PrefixMoveFailed pjtTag).
    reflexivity.
Qed.

(** C1, as the code has it: pass 1 is a nested scan with the tags outside
    and the rules inside.  Going through the tags in extraction order and,
    for each, through the rule table in table order, the first rule whose
    [tagPattern] without one leading hash mark equals the tag without
    one leading hash mark (nothing else is stripped from the tag) is
    selected, and the move is asked for with the rule's destination and
    [isFullPath = true]; so an earlier tag matching a later rule beats a
    later tag matching an earlier rule. *)
Theorem rule_pass_tags_before_rules (file : TFile) (tags : list jsstring)
    (st : State W) :
  match pass1 (tagRules settings) tags with
  | Some (pattern, rule) =>
      (exists before after earlier later,
          tags = before ++ pattern :: after
          /\ tagRules settings = earlier ++ rule :: later
          /\ (forall t r, In t before -> In r (tagRules settings) ->
                strip_hash (tagPattern r) <> strip_hash t)
          /\ (forall r, In r earlier ->
                strip_hash (tagPattern r) <> strip_hash pattern)
          /\ strip_hash (tagPattern rule) = strip_hash pattern)
      /\ resolve settings tags = Some (destination rule, true)
      /\ rule_loop settings file tags st =
         (console Log (CRuleMatched pattern (strip_hash pattern) (destination rule)) ;;
          moveSuccess <- moveFileToProject settings file (destination rule) true ;;
          if negb moveSuccess
          then throw (Error (RuleMoveFailed pattern (destination rule)))
          else ret true) st
  | None =>
      (forall t r, In t tags -> In r (tagRules settings) ->
         strip_hash (tagPattern r) <> strip_hash t)
      /\ rule_loop settings file tags st = (inr false, st)
  end
  /\ (forall t1 t2 r1 r2,
        strip_hash (tagPattern r2) = strip_hash t1 ->
        strip_hash (tagPattern r1) = strip_hash t2 ->
        strip_hash (tagPattern r1) <> strip_hash t1 ->
        pass1 [r1; r2] [t1; t2] = Some (t1, r2)).
Proof.
  split.
  - pose proof (pass1_double_scan (tagRules settings) tags) as Hscan.
    pose proof (rule_loop_pass1 file tags st) as Hloop.
    unfold resolve.
    destruct (pass1 (tagRules settings) tags) as [[pattern rule]|];
      repeat split; assumption || reflexivity.
  - intros t1 t2 r1 r2 H21 H12 Hn. simpl.
    assert (rule_matches (strip_hash t1) r1 = false) as ->.
    { destruct (rule_matches (strip_hash t1) r1) eqn:E; [|reflexivity].
      apply rule_matches_eq in E. contradiction. }
    assert (rule_matches (strip_hash t1) r2 = true) as ->
      by (apply rule_matches_eq; exact H21).
    reflexivity.
Qed.

(** [process_tags] by the outcome of the rule pass. *)
Lemma process_tags_run (file : TFile) (tags : list jsstring) (st : State W) :
  tags <> [] ->
  process_tags settings file tags st =
  match pass1 (tagRules settings) tags with
  | Some (pattern, rule) =>
      (console Log (CRuleMatched pattern (strip_hash pattern) (destination rule)) ;;
       moveSuccess <- moveFileToProject settings file (destination rule) true ;;
       if negb moveSuccess
       then throw (Error (RuleMoveFailed pattern (destination rule)))
       else ret tt) st
  | None => prefix_fallback settings file tags st
  end.
Proof.
  intro Hne. unfold process_tags.
  destruct tags as [|t0 tags0]; [congruence|]. cbn [List.length Nat.eqb].
  unfold bind at 1. rewrite rule_loop_pass1.
  destruct (pass1 (tagRules settings) (t0 :: tags0)) as [[pattern rule]|];
    [|reflexivity].
  run_monad.
  destruct (moveFileToProject settings file (destination rule) true _)
    as [[e|[|]] st']; reflexivity.
Qed.

(** C3, as the code has it: the prefix fallback runs only when pass 1
    matched no rule.  When pass 1 selects a rule, [processFile] asks for
    the move to the rule's destination and for nothing more: it returns
    when that move succeeds and throws the rule's error when it fails,
    without looking for a prefix tag.  When no rule matches, the first tag,
    in extraction order, that as extracted (without further normalisation)
    starts with [tagPrefix] without its leading hash mark, and is not the
    empty string, yields the tag text behind the prefix as destination with
    [isFullPath = false]; and when no tag matches a rule and no tag starts
    with the prefix, nothing is resolved: [processFile] throws the
    no-matching-tag error and nothing is asked of the host. *)
Theorem prefix_fallback_after_rules (file : TFile) (tags : list jsstring)
    (st : State W) :
  tags <> [] ->
  let prefix := strip_hash (tagPrefix settings) in
  (forall pattern rule,
      pass1 (tagRules settings) tags = Some (pattern, rule) ->
      resolve settings tags = Some (destination rule, true)
      /\ process_tags settings file tags st =
         (console Log (CRuleMatched pattern (strip_hash pattern) (destination rule)) ;;
          moveSuccess <- moveFileToProject settings file (destination rule) true ;;
          if negb moveSuccess
          then throw (Error (RuleMoveFailed pattern (destination rule)))
          else ret tt) st)
  /\ (pass1 (tagRules settings) tags = None ->
      (forall before t after,
          tags = before ++ t :: after ->
          (forall u, In u before -> startsWith u prefix = false) ->
          startsWith t prefix = true ->
          t <> [] ->
          resolve settings tags =
            Some (substringFrom t (List.length prefix), false)
          /\ process_tags settings file tags st =
             (console Log (CDefault t (substringFrom t (List.length prefix))) ;;
              moveSuccess <- moveFileToProject settings file
                               (substringFrom t (List.length prefix)) false ;;
              if negb moveSuccess
              then throw (Error (PrefixMoveFailed t))
              else ret tt) st)
      /\ ((forall u, In u tags -> startsWith u prefix = false) ->
          resolve settings tags = None
          /\ process_tags settings file tags st
             = (inl (Error NoMatchingTag), st))).
Proof.
  intros Hne prefix. split.
  - intros pattern rule H. split.
    + unfold resolve. rewrite H. reflexivity.
    + rewrite (process_tags_run file st Hne), H. reflexivity.
  - intro Hp1.
    assert (process_tags settings file tags st
            = prefix_fallback settings file tags st) as Hrun.
    { rewrite (process_tags_run file st Hne), Hp1. reflexivity. }
    split.
    + intros before t after -> Hb Ht Hnn.
      pose proof (find_first_inv (fun t => startsWith t prefix) before after t Ht Hb)
        as Hfind.
      assert (nonempty t = true) as Hnt by (destruct t; [congruence | reflexivity]).
      split.
      * unfold resolve, pass2. rewrite Hp1. fold prefix. rewrite Hfind, Hnt.
        reflexivity.
      * rewrite Hrun. unfold prefix_fallback. fold prefix.
        rewrite Hfind, Hnt. reflexivity.
    + intro Hnone.
      pose proof (proj2 (find_none_iff (fun t => startsWith t prefix) tags) Hnone)
        as Hfind.
      split.
      * unfold resolve, pass2. rewrite Hp1. fold prefix. rewrite Hfind.
        reflexivity.
      * rewrite Hrun. unfold prefix_fallback. fold prefix. rewrite Hfind.
        reflexivity.
Qed.

End Resolution.

(* ================================================================== *)
(** * Moving a file *)
(* ================================================================== *)

Section Move.

Context {W : Type} {host : Host W}.
Variable settings : Settings.

(** The joined path of lines 232-238 is the one of the specification, at
    the normalized segment. *)
Lemma preliminary_target (seg baseName : jsstring) (isFullPath : bool) :
  (if isFullPath
   then seg ++ lit "/" ++ baseName
   else (if isFullPath then [] else rootFolder settings)
          ++ lit "/" ++ seg ++ lit "/" ++ baseName)
  = Spec.target_path settings seg isFullPath baseName.
Proof. destruct isFullPath; reflexivity. Qed.

(** First rejection (main.js 219-223). *)
Lemma move_invalid_segment (file : TFile) (path : jsstring) (isFullPath : bool)
    (st : State W) :
  segment_rejected (normalizePath path) = true ->
  moveFileToProject settings file path isFullPath st =
  (inr false,
   logged st [Notice (NoticeInvalidPath path); Console Err (CInvalidPath path)]).
Proof.
  intro H. unfold moveFileToProject. unfold segment_rejected in H.
  cbv zeta. rewrite H. run_monad. rewrite <- app_assoc. reflexivity.
Qed.

(** Second rejection (main.js 246-250). *)
Lemma move_escaping_target (file : TFile) (path : jsstring) (isFullPath : bool)
    (st : State W) :
  segment_rejected (normalizePath path) = false ->
  startsWith (target_of settings path isFullPath (name file)) (lit "../") = true ->
  moveFileToProject settings file path isFullPath st =
  (inr false,
   logged st
     [Notice (NoticeBlocked (target_of settings path isFullPath (name file)));
      Console Err (CBlockedPath (target_of settings path isFullPath (name file)))]).
Proof.
  intros H1 H2. unfold moveFileToProject. unfold segment_rejected in H1.
  unfold target_of in *.
  cbv zeta. rewrite H1. rewrite preliminary_target, H2.
  run_monad. rewrite <- app_assoc. reflexivity.
Qed.

(** Past both checks the move is attempted; whatever the collaborators
    do, a boolean comes back. *)
Lemma move_attempt (file : TFile) (path : jsstring) (isFullPath : bool)
    (st : State W) :
  segment_rejected (normalizePath path) = false ->
  startsWith (target_of settings path isFullPath (name file)) (lit "../") = false ->
  exists b evs w',
    moveFileToProject settings file path isFullPath st =
      (inr b, {| world := w'; log := log st ++ evs |})
    /\ (forall r e, In (Requested r (Some e)) evs -> b = false)
    /\ (b = true <->
        In (Requested
              (ReqRename file (target_of settings path isFullPath (name file)))
              None) evs)
    /\ (forall f' T' o, In (Requested (ReqRename f' T') o) evs ->
          f' = file /\ T' = target_of settings path isFullPath (name file))
    /\ reads_of evs = [].
Proof.
  intros H1 H2. unfold moveFileToProject. unfold segment_rejected in H1.
  unfold target_of in *.
  cbv zeta. rewrite H1. rewrite preliminary_target, H2.
  set (T := normalizePath
              (Spec.target_path settings (normalizePath path) isFullPath (name file))).
  set (folderPath := substring0 T (lastIndexOf T SLASH)).
  run_monad.
  destruct (nonempty folderPath); step.
  - destruct (adapter_exists folderPath (world st)) as [[e|[|]] w1]; step.
    + finish.
    + destruct (fileManager_renameFile file T w1) as [[e|[]] w2]; step; finish.
    + destruct (adapter_mkdir folderPath w1) as [[e|[]] w2]; step.
      * finish.
      * destruct (fileManager_renameFile file T w2) as [[e|[]] w3]; step; finish.
  - destruct (fileManager_renameFile file T (world st)) as [[e|[]] w2]; step;
      finish.
Qed.

Lemma segment_rejected_iff (seg : jsstring) :
  segment_rejected seg = true <->
  seg = [] \/ seg = lit "." \/ startsWith seg (lit "..") = true.
Proof.
  unfold segment_rejected.
  rewrite !orb_true_iff, str_eqb_eq.
  destruct seg; simpl; intuition congruence.
Qed.

Lemma requests_of_app (l l' : list Event) :
  requests_of (l ++ l') = requests_of l ++ requests_of l'.
Proof.
  induction l as [|[r o|m|lv m] l IH]; simpl; [reflexivity| |exact IH|exact IH].
  rewrite IH. reflexivity.
Qed.

Lemma reads_of_app (l l' : list Event) :
  reads_of (l ++ l') = reads_of l ++ reads_of l'.
Proof.
  induction l as [|[[f|q|q|f q] o|m|lv m] l IH]; simpl;
    try exact IH; try reflexivity.
  rewrite IH. reflexivity.
Qed.

(** Every run of [moveFileToProject] returns a boolean and only adds
    entries to the log, none of them a read. *)
Lemma move_total (file : TFile) (path : jsstring) (isFullPath : bool)
    (st : State W) :
  exists b evs w',
    moveFileToProject settings file path isFullPath st =
      (inr b, {| world := w'; log := log st ++ evs |})
    /\ (forall r e, In (Requested r (Some e)) evs -> b = false)
    /\ (b = true <->
        In (Requested
              (ReqRename file (target_of settings path isFullPath (name file)))
              None) evs)
    /\ (forall f' T' o, In (Requested (ReqRename f' T') o) evs ->
          f' = file /\ T' = target_of settings path isFullPath (name file))
    /\ reads_of evs = [].
Proof.
  destruct (segment_rejected (normalizePath path)) eqn:H1.
  - rewrite (move_invalid_segment file path isFullPath st H1).
    do 3 eexists. split; [reflexivity|].
    cbn. repeat split; try intuition congruence.
  - destruct (startsWith (target_of settings path isFullPath (name file)) (lit "../"))
      eqn:H2.
    + rewrite (move_escaping_target file path isFullPath st H1 H2).
      do 3 eexists. split; [reflexivity|].
      cbn. repeat split; try intuition congruence.
    + apply move_attempt; assumption.
Qed.

(** C2: before any directory creation or rename the destination segment
    is checked.  When the normalized segment is empty, is a single dot or
    begins with two dots, the move is rejected; and when the joined path,
    normalized again, still begins with [../], the move is rejected; in
    both cases the result is [false], nothing is asked of the storage
    collaborators (no existence check, no directory creation, no rename)
    and the host state, hence the file, stays as it was. *)
Theorem rejected_paths_touch_nothing (file : TFile) (path : jsstring)
    (isFullPath : bool) (st : State W) :
  let seg := normalizePath path in
  let T := target_of settings path isFullPath (name file) in
  ((seg = [] \/ seg = lit "." \/ startsWith seg (lit "..") = true) ->
   moveFileToProject settings file path isFullPath st =
   (inr false,
    logged st [Notice (NoticeInvalidPath path); Console Err (CInvalidPath path)]))
  /\ (seg <> [] -> seg <> lit "." -> startsWith seg (lit "..") = false ->
      startsWith T (lit "../") = true ->
      moveFileToProject settings file path isFullPath st =
      (inr false,
       logged st [Notice (NoticeBlocked T); Console Err (CBlockedPath T)]))
  /\ ((seg = [] \/ seg = lit "." \/ startsWith seg (lit "..") = true
       \/ startsWith T (lit "../") = true) ->
      forall r st', moveFileToProject settings file path isFullPath st = (r, st') ->
      r = inr false
      /\ world st' = world st
      /\ requests_of (log st') = requests_of (log st)).
Proof.
  intros seg T.
  assert (forall evs, (forall ev, In ev evs -> forall r o, ev <> Requested r o) ->
                      requests_of (log st ++ evs) = requests_of (log st)) as Hq.
  { intros evs Hevs. rewrite requests_of_app.
    assert (requests_of evs = []) as ->; [|apply app_nil_r].
    induction evs as [|[r o|m|lv m] evs IH]; simpl; try reflexivity;
      try (apply IH; intros ev Hev; apply Hevs; right; exact Hev).
    exfalso. eapply (Hevs (Requested r o)); [left|]; reflexivity. }
  split; [|split].
  - intro H. apply move_invalid_segment, segment_rejected_iff, H.
  - intros Hn Hd Hs HT. apply move_escaping_target; [|exact HT].
    destruct (segment_rejected (normalizePath path)) eqn:E; [|reflexivity].
    apply segment_rejected_iff in E. fold seg in E. intuition congruence.
  - intros H r st' Hrun.
    destruct (segment_rejected (normalizePath path)) eqn:E.
    + rewrite (move_invalid_segment file path isFullPath st E) in Hrun.
      injection Hrun as <- <-. cbn [logged world log].
      repeat split. apply Hq. intros ev [<-|[<-|[]]]; discriminate.
    + assert (startsWith T (lit "../") = true) as HT.
      { destruct H as [H|[H|[H|H]]]; [| | |exact H];
          exfalso;
          assert (segment_rejected seg = true) as E'
            by (apply segment_rejected_iff; auto);
          unfold seg in E'; congruence. }
      rewrite (move_escaping_target file path isFullPath st E HT) in Hrun.
      injection Hrun as <- <-. cbn [logged world log].
      repeat split. apply Hq. intros ev [<-|[<-|[]]]; discriminate.
Qed.

(** C9: [moveFileToProject] is total with respect to its collaborators:
    for every input and every behaviour of the host it returns a boolean
    and lets no exception through.  A failure of the existence check, of
    the directory creation or of the rename gives [false], a rejected path
    gives [false], and [true] is returned exactly when the rename was
    asked for and went through. *)
Theorem move_never_throws (file : TFile) (path : jsstring) (isFullPath : bool)
    (st : State W) :
  exists b evs w',
    moveFileToProject settings file path isFullPath st =
      (inr b, {| world := w'; log := log st ++ evs |})
    /\ (forall r e, In (Requested r (Some e)) evs -> b = false)
    /\ (b = true <->
        In (Requested
              (ReqRename file (target_of settings path isFullPath (name file)))
              None) evs).
Proof.
  destruct (move_total file path isFullPath st)
    as (b & evs & w' & Hrun & Hfail & Hok & _).
  exists b, evs, w'. auto.
Qed.

(** A successful move has asked for exactly one rename, of this file, to
    the normalized joined path. *)
Lemma move_target (file : TFile) (path : jsstring) (isFullPath : bool)
    (st st' : State W) :
  moveFileToProject settings file path isFullPath st = (inr true, st') ->
  exists evs,
    log st' = log st ++ evs
    /\ In (Requested
             (ReqRename file (target_of settings path isFullPath (name file)))
             None) evs
    /\ (forall f' T' o, In (Requested (ReqRename f' T') o) evs ->
          f' = file /\ T' = target_of settings path isFullPath (name file)).
Proof.
  intro Hrun.
  destruct (move_total file path isFullPath st)
    as (b & evs & w' & Hrun' & _ & Hok & Huniq & _).
  rewrite Hrun in Hrun'. injection Hrun' as <- ->.
  exists evs. cbn [log]. repeat split; [apply Hok; reflexivity | |];
    eapply Huniq; eassumption.
Qed.

End Move.

(* ================================================================== *)
(** * One file, then all of them *)
(* ================================================================== *)

Section Batch.

Context {W : Type} {host : Host W}.
Variable settings : Settings.

Lemma extract_tags_total (content : jsstring) (st : State W) :
  exists evs,
    extract_tags content st = (inr (tags_of content), logged st evs)
    /\ reads_of evs = [].
Proof.
  rewrite extract_tags_run. unfold tags_of, body_of.
  destruct (fm_match content) as [[whole group1]|].
  - destruct (parseYaml group1) as [e|fmObj].
    + exists [Console Warn (CYamlFailed e)]. split; reflexivity.
    + destruct (frontmatter_tags fmObj).
      * exists []. unfold logged. rewrite app_nil_r. destruct st. split; reflexivity.
      * exists [Console Warn (CYamlFailed TypeError)]. split; reflexivity.
  - exists []. unfold logged. rewrite app_nil_r. destruct st. split; reflexivity.
Qed.

Lemma process_tags_quiet (file : TFile) (tags : list jsstring) (st : State W) :
  exists r evs w',
    process_tags settings file tags st =
      (r, {| world := w'; log := log st ++ evs |})
    /\ reads_of evs = [].
Proof.
  destruct tags as [|t0 tags0].
  - exists (inl (Error NoTagsFound)), [], (world st).
    rewrite app_nil_r. destruct st. split; reflexivity.
  - pose proof (@process_tags_resolve W host settings file (t0 :: tags0) st) as H.
    destruct (resolve settings (t0 :: tags0)) as [[dest isFullPath]|].
    + destruct H as (line & failure & ->); [discriminate|].
      run_monad.
      destruct (move_total settings file dest isFullPath
                  {| world := world st; log := log st ++ [Console Log line] |})
        as (b & evs & w' & -> & _ & _ & _ & Hreads).
      cbn [log]. rewrite <- app_assoc.
      destruct b; cbn [negb]; do 3 eexists; (split; [reflexivity|]);
        rewrite reads_of_app, Hreads; reflexivity.
    + rewrite H by discriminate.
      exists (inl (Error NoMatchingTag)), [], (world st).
      rewrite app_nil_r. destruct st. split; reflexivity.
Qed.

(** [processFile] asks for the text of its file, once, and of no other. *)
Lemma processFile_reads (file : TFile) (st : State W) :
  exists r evs w',
    processFile settings file st = (r, {| world := w'; log := log st ++ evs |})
    /\ reads_of evs = [file].
Proof.
  unfold processFile. run_monad.
  destruct (vault_read file (world st)) as [[e|content] w1]; step.
  - do 3 eexists. split; [rewrite <- app_assoc; reflexivity | reflexivity].
  - destruct (extract_tags_total content
                {| world := w1; log := log st ++ [Requested (ReqRead file) None] |})
      as (evs1 & -> & Hr1).
    unfold logged. step.
    destruct (process_tags_quiet file (tags_of content)
                {| world := w1;
                   log := ((log st ++ [Requested (ReqRead file) None]) ++ evs1)
                            ++ [Console Log (CDetectedTags (path file) (tags_of content))] |})
      as (r & evs2 & w2 & -> & Hr2).
    cbn [log]. do 3 eexists. split; [repeat rewrite <- app_assoc; reflexivity|].
    cbn [app reads_of]. rewrite reads_of_app, Hr1.
    cbn [app reads_of]. rewrite Hr2. reflexivity.
Qed.

(** A note without tags makes [processFile] throw. *)
Lemma processFile_no_tags (file : TFile) (st : State W) (content : jsstring) (w1 : W) :
  vault_read file (world st) = (inr content, w1) ->
  tags_of content = [] ->
  fst (processFile settings file st) = inl (Error NoTagsFound).
Proof.
  intros Hread Hnone. unfold processFile. run_monad. rewrite Hread. step.
  destruct (extract_tags_total content
              {| world := w1; log := log st ++ [Requested (ReqRead file) None] |})
    as (evs1 & -> & _).
  rewrite Hnone. reflexivity.
Qed.

(** One turn of the loop never throws and counts the file once. *)
Lemma batch_step (file : TFile) (successCount failCount : nat) (st : State W) :
  exists counts evs w',
    try_catch
      (processFile settings file ;; ret (S successCount, failCount))
      (fun e =>
         console Err (CFileFailed (path file) e) ;;
         ret (successCount, S failCount)) st
    = (inr counts, {| world := w'; log := log st ++ evs |})
    /\ reads_of evs = [file]
    /\ (counts = (S successCount, failCount)
        /\ fst (processFile settings file st) = inr tt
        \/ counts = (successCount, S failCount)
           /\ exists e, fst (processFile settings file st) = inl e).
Proof.
  destruct (processFile_reads file st) as (r & evs & w' & Hrun & Hreads).
  run_monad. rewrite Hrun. cbn [fst].
  destruct r as [e|[]]; step.
  - do 3 eexists. split; [rewrite <- app_assoc; reflexivity|]. split.
    + rewrite reads_of_app, Hreads. reflexivity.
    + right. eauto.
  - do 3 eexists. split; [reflexivity|]. split; [exact Hreads|].
    left. split; reflexivity.
Qed.

Lemma batch_loop_counts (files : list TFile) :
  forall (successCount failCount : nat) (st : State W),
  exists s f evs w',
    batch_loop settings files successCount failCount st =
      (inr (s, f), {| world := w'; log := log st ++ evs |})
    /\ s + f = successCount + failCount + List.length files
    /\ reads_of evs = files.
Proof.
  induction files as [|file files IH]; intros successCount failCount st.
  - exists successCount, failCount, [], (world st).
    cbn. rewrite app_nil_r. destruct st. repeat split. cbn. lia.
  - cbn [batch_loop]. unfold bind at 1.
    destruct (batch_step file successCount failCount st)
      as (counts & evs1 & w1 & -> & Hr1 & Hc).
    destruct (IH (fst counts) (snd counts)
                 {| world := w1; log := log st ++ evs1 |})
      as (s & f & evs2 & w2 & -> & Hsum & Hr2).
    exists s, f, (evs1 ++ evs2), w2. cbn [log]. rewrite <- app_assoc.
    repeat split.
    + cbn [List.length].
      destruct Hc as [[-> _]|[-> _]]; cbn [fst snd] in Hsum; lia.
    + rewrite reads_of_app, Hr1, Hr2. reflexivity.
Qed.

(** C5: in a batch over the filtered files the failure of one file (its
    text cannot be read, it has no tags, no rule matches, the move fails)
    never keeps the later files from being attempted: the text of every
    filtered file is asked for, in order.  Every file is counted once, as
    a success or as a failure, so the counts of the final notice add up to
    the number of filtered files; and a file without tags is counted as
    failed. *)
Theorem batch_counts_every_file (st : State W) :
  let targets := targetFiles settings (vault_getMarkdownFiles (world st)) in
  (exists evs w',
      moveAllFiles settings st = (inr tt, {| world := w'; log := log st ++ evs |})
      /\ (targets = [] /\ evs = [Notice NoticeNoTargets]
          \/ exists s f evs',
               evs = evs' ++ [Notice (NoticeDone s f)]
               /\ s + f = List.length targets
               /\ reads_of evs' = targets))
  /\ (forall file content w1 successCount failCount,
        vault_read file (world st) = (inr content, w1) ->
        tags_of content = [] ->
        fst (processFile settings file st) = inl (Error NoTagsFound)
        /\ fst (batch_loop settings [file] successCount failCount st)
           = inr (successCount, S failCount)).
Proof.
  intro targets. split.
  - unfold moveAllFiles. cbv zeta. fold targets.
    destruct targets as [|file files] eqn:Et.
    + cbn [List.length Nat.eqb]. run_monad.
      do 2 eexists. split; [reflexivity|]. left. split; reflexivity.
    + cbn [List.length Nat.eqb]. unfold bind.
      destruct (batch_loop_counts (file :: files) 0 0 st)
        as (s & f & evs & w' & -> & Hsum & Hreads).
      run_monad.
      do 2 eexists. split; [rewrite <- app_assoc; reflexivity|].
      right. exists s, f, evs. repeat split; [|exact Hreads].
      cbn [List.length] in *. lia.
  - intros file content w1 successCount failCount Hread Hnone.
    pose proof (processFile_no_tags file st Hread Hnone) as Hfail.
    split; [exact Hfail|].
    cbn [batch_loop]. unfold bind at 1.
    destruct (batch_step file successCount failCount st)
      as (counts & evs1 & w1' & -> & _ & Hc).
    destruct Hc as [[-> Hok]|[-> _]]; [congruence|]. reflexivity.
Qed.

End Batch.

(* ================================================================== *)
(** * The target path, the batch filter, and concrete runs *)
(* ================================================================== *)

(** C6, as the code has it: the path a file is moved to is built by
    appending the base name to the resolved destination and normalizing:
    it is [normalizePath] of (normalized destination + [/] + base name)
    when [isFullPath], and of ([rootFolder] + [/] + normalized destination
    + [/] + base name) otherwise; where normalization changes neither the
    destination nor the joined path, it is the plain concatenation.  The
    note [02/notes/x.md] with body tag [pjt/q1], under [rootFolder =
    03_project], is moved to [03_project/q1/x.md]. *)
Theorem target_path_normalized_join :
  (forall (W : Type) (host : Host W) (settings : Settings) (file : TFile)
          (path : jsstring) (isFullPath : bool) (st st' : State W),
      moveFileToProject settings file path isFullPath st = (inr true, st') ->
      let T := normalizePath
                 (Spec.target_path settings (normalizePath path) isFullPath
                    (name file)) in
      (exists evs,
          log st' = log st ++ evs
          /\ In (Requested (ReqRename file T) None) evs
          /\ (forall f' T' o, In (Requested (ReqRename f' T') o) evs ->
                f' = file /\ T' = T))
      /\ (normalizePath path = path ->
          normalizePath (Spec.target_path settings path isFullPath (name file))
          = Spec.target_path settings path isFullPath (name file) ->
          T = Spec.target_path settings path isFullPath (name file)))
  /\ (exists st',
        processFile DEFAULT_SETTINGS note_x (Demo.start disk_x) = (inr tt, st')
        /\ In (Requested (ReqRename note_x (lit "03_project/q1/x.md")) None) (log st')
        /\ Demo.notes (world st') = [(lit "03_project/q1/x.md", lit "pjt/q1")]).
Proof.
  split.
  - intros W host settings file path isFullPath st st' Hrun T. split.
    + exact (move_target settings file path isFullPath st Hrun).
    + intros Hp Hj. unfold T. rewrite Hp. exact Hj.
  - eexists. split; [vm_compute; reflexivity|].
    split; [|vm_compute; reflexivity].
    vm_compute. repeat (first [left; reflexivity | right]).
Qed.

(** C10: the batch filter compares strings, not path components: a
    Markdown file is processed exactly when its path string starts with
    the text of [notesFolder] (and ends with [.md]); with [notesFolder =
    02/notes] the file [02/notesarchive/x.md] of a sibling folder is
    selected and moved by the batch. *)
Theorem batch_filter_is_string_prefix :
  (forall (settings : Settings) (files : list TFile) (file : TFile),
      In file (targetFiles settings files) <->
      In file files
      /\ startsWith (path file) (notesFolder settings) = true
      /\ endsWith (path file) (lit ".md") = true)
  /\ (forall files : list TFile,
        In note_archived files ->
        In note_archived (targetFiles DEFAULT_SETTINGS files))
  /\ (exists st',
        moveAllFiles DEFAULT_SETTINGS (Demo.start disk_archived) = (inr tt, st')
        /\ reads_of (log st') = [note_archived]
        /\ Demo.notes (world st') = [(lit "03_project/q1/x.md", lit "pjt/q1")]).
Proof.
  assert (forall (settings : Settings) (files : list TFile) (file : TFile),
      In file (targetFiles settings files) <->
      In file files
      /\ startsWith (path file) (notesFolder settings) = true
      /\ endsWith (path file) (lit ".md") = true) as Hfilter.
  { intros settings files file. unfold targetFiles.
    rewrite filter_In, andb_true_iff. reflexivity. }
  split; [exact Hfilter|]. split.
  - intros files Hin. apply Hfilter. split; [exact Hin | split; reflexivity].
  - eexists. split; [vm_compute; reflexivity|].
    split; vm_compute; reflexivity.
Qed.

(* ================================================================== *)
(** * Runs on the small host *)
(* ================================================================== *)

(** The second of two tags wins nothing: [personal/health] comes first in
    the note and is served by the second rule of the default table. *)
Lemma rule_pass_tags_before_rules_witness :
  pass1 (tagRules DEFAULT_SETTINGS) [lit "personal/health"; lit "#work/urgent"]
  = Some (lit "personal/health",
          {| tagPattern := lit "personal/health";
             destination := lit "04_personal/health" |}).
Proof.
  refine (proj2 (@rule_pass_tags_before_rules Demo.Disk Demo.host DEFAULT_SETTINGS
                   note_x [lit "personal/health"; lit "#work/urgent"]
                   (Demo.start disk_x))
                (lit "personal/health") (lit "#work/urgent")
                {| tagPattern := lit "work/urgent";
                   destination := lit "01_inbox/urgent" |}
                {| tagPattern := lit "personal/health";
                   destination := lit "04_personal/health" |}
                eq_refl eq_refl _).
  vm_compute. discriminate.
Defined.

(** A tag that carries quotes is compared as it is: the specification's
    pass 1 would send it to the inbox, the code finds no rule for it. *)
Lemma quoted_tag_matches_no_rule :
  Spec.pass1 (tagRules DEFAULT_SETTINGS) [lit "'work/urgent'"]
  = Some (lit "01_inbox/urgent", true)
  /\ pass1 (tagRules DEFAULT_SETTINGS) [lit "'work/urgent'"] = None
  /\ resolve DEFAULT_SETTINGS [lit "'work/urgent'"] = None
  /\ fst (process_tags DEFAULT_SETTINGS note_x [lit "'work/urgent'"]
            (Demo.start disk_x))
     = inl (Error NoMatchingTag).
Proof. repeat split; vm_compute; reflexivity. Qed.

Lemma rejected_paths_touch_nothing_witness :
  moveFileToProject DEFAULT_SETTINGS note_x (lit "../../etc") true (Demo.start disk_x)
  = (inr false,
     logged (Demo.start disk_x)
       [Notice (NoticeInvalidPath (lit "../../etc"));
        Console Err (CInvalidPath (lit "../../etc"))])
  /\ moveFileToProject settings_outside note_x (lit "q1") false (Demo.start disk_x)
     = (inr false,
        logged (Demo.start disk_x)
          [Notice (NoticeBlocked (lit "../q1/x.md"));
           Console Err (CBlockedPath (lit "../q1/x.md"))])
  /\ (let run := moveFileToProject settings_outside note_x (lit "q1") false
                   (Demo.start disk_x) in
      fst run = inr false
      /\ world (snd run) = disk_x
      /\ requests_of (log (snd run)) = []).
Proof.
  split; [|split].
  - apply (proj1 (@rejected_paths_touch_nothing Demo.Disk Demo.host DEFAULT_SETTINGS
                    note_x (lit "../../etc") true (Demo.start disk_x))).
    right. right. vm_compute. reflexivity.
  - apply (proj1 (proj2 (@rejected_paths_touch_nothing Demo.Disk Demo.host
                           settings_outside note_x (lit "q1") false
                           (Demo.start disk_x)))).
    + vm_compute. discriminate.
    + vm_compute. discriminate.
    + vm_compute. reflexivity.
    + vm_compute. reflexivity.
  - apply (proj2 (proj2 (@rejected_paths_touch_nothing Demo.Disk Demo.host
                           settings_outside note_x (lit "q1") false
                           (Demo.start disk_x)))).
    + right. right. right. vm_compute. reflexivity.
    + vm_compute. reflexivity.
Defined.

Lemma prefix_fallback_after_rules_witness :
  resolve DEFAULT_SETTINGS [lit "random"; lit "pjt/alpha/beta"]
  = Some (lit "alpha/beta", false)
  /\ resolve DEFAULT_SETTINGS [lit "random"] = None
  /\ resolve DEFAULT_SETTINGS [lit "pjt/alpha"; lit "work/urgent"]
     = Some (lit "01_inbox/urgent", true)
  /\ requests_of
       (log (snd (process_tags DEFAULT_SETTINGS note_x
                    [lit "pjt/alpha"; lit "work/urgent"] (Demo.start disk_x))))
     = [ReqExists (lit "01_inbox/urgent");
        ReqMkdir (lit "01_inbox/urgent");
        ReqRename note_x (lit "01_inbox/urgent/x.md")].
Proof.
  split; [|split; [|split]].
  - refine (proj1 (proj1 (proj2 (@prefix_fallback_after_rules Demo.Disk Demo.host
                                   DEFAULT_SETTINGS note_x
                                   [lit "random"; lit "pjt/alpha/beta"]
                                   (Demo.start disk_x) _) eq_refl)
                         [lit "random"] (lit "pjt/alpha/beta") [] eq_refl _ eq_refl _)).
    + discriminate.
    + intros u [<-|[]]. vm_compute. reflexivity.
    + discriminate.
  - refine (proj1 (proj2 (proj2 (@prefix_fallback_after_rules Demo.Disk Demo.host
                                   DEFAULT_SETTINGS note_x [lit "random"]
                                   (Demo.start disk_x) _) eq_refl) _)).
    + discriminate.
    + intros u [<-|[]]. vm_compute. reflexivity.
  - refine (proj1 (proj1 (@prefix_fallback_after_rules Demo.Disk Demo.host
                            DEFAULT_SETTINGS note_x
                            [lit "pjt/alpha"; lit "work/urgent"]
                            (Demo.start disk_x) _)
                         (lit "work/urgent")
                         {| tagPattern := lit "work/urgent";
                            destination := lit "01_inbox/urgent" |} eq_refl)).
    discriminate.
  - rewrite (proj2 (proj1 (@prefix_fallback_after_rules Demo.Disk Demo.host
                             DEFAULT_SETTINGS note_x
                             [lit "pjt/alpha"; lit "work/urgent"]
                             (Demo.start disk_x)
                             ltac:(discriminate))
                          (lit "work/urgent")
                          {| tagPattern := lit "work/urgent";
                             destination := lit "01_inbox/urgent" |} eq_refl)).
    vm_compute. reflexivity.
Defined.

(** A tag that still carries a hash mark: the specification's pass 2
    would strip it and resolve to [x], the code compares it as it is. *)
Lemma hashed_tag_misses_prefix :
  Spec.pass2 (tagPrefix DEFAULT_SETTINGS) [lit "#pjt/x"] = Some (lit "x", false)
  /\ pass1 (tagRules DEFAULT_SETTINGS) [lit "#pjt/x"] = None
  /\ resolve DEFAULT_SETTINGS [lit "#pjt/x"] = None
  /\ fst (process_tags DEFAULT_SETTINGS note_x [lit "#pjt/x"] (Demo.start disk_x))
     = inl (Error NoMatchingTag).
Proof. repeat split; vm_compute; reflexivity. Qed.

Lemma extraction_order_witness :
  fst (extract_tags doc_ab_cd (Demo.start disk_x))
  = inr [lit "a"; lit "b"; lit "c"; lit "d"]
  /\ frontmatter_tags (VObj [(lit "tags", VArr [VStr (lit "#a"); VStr (lit "a")])])
     = Some [lit "a"; lit "a"]
  /\ frontmatter_tags
       (VObj [(lit "tags",
               VArr [VStr (lit "pjt/a");
                     VObj [(lit "toString", VOther true (lit "1"))]])])
     = None
  /\ frontmatter_tags (VObj [(lit "tags", VStr (lit "#pjt/q1"))])
     = Some [lit "pjt/q1"]
  /\ frontmatter_tags (VObj [(lit "title", VStr (lit "t"))]) = Some []
  /\ frontmatter_tags (VStr (lit "tags")) = Some []
  /\ extract_tags doc_tag_object (Demo.start disk_x)
     = (inr [lit "foo"; lit "bar"],
        logged (Demo.start disk_x) [Console Warn (CYamlFailed TypeError)]).
Proof.
  pose proof (@extraction_order Demo.Disk Demo.host doc_ab_cd (Demo.start disk_x))
    as [_ [Hshape [Hother [_ [_ [_ Hexample]]]]]].
  pose proof (@extraction_order Demo.Disk Demo.host doc_tag_object
                (Demo.start disk_x))
    as [_ [_ [_ [_ [_ [Hthrow _]]]]]].
  split; [|split; [|split; [|split; [|split; [|split]]]]].
  - apply Hexample. vm_compute. reflexivity.
  - apply (proj1 (Hshape [(lit "tags", VArr [VStr (lit "#a"); VStr (lit "a")])])
                 [VStr (lit "#a"); VStr (lit "a")] [lit "#a"; lit "a"]).
    + vm_compute. reflexivity.
    + repeat constructor.
  - apply (proj1 (proj2 (Hshape
             [(lit "tags",
               VArr [VStr (lit "pjt/a");
                     VObj [(lit "toString", VOther true (lit "1"))]])]))
                 [VStr (lit "pjt/a"); VObj [(lit "toString", VOther true (lit "1"))]]
                 (VObj [(lit "toString", VOther true (lit "1"))])).
    + vm_compute. reflexivity.
    + right. left. reflexivity.
    + vm_compute. reflexivity.
  - apply (proj1 (proj2 (proj2 (Hshape [(lit "tags", VStr (lit "#pjt/q1"))])))).
    + intros items. vm_compute. discriminate.
    + vm_compute. reflexivity.
  - apply (proj2 (proj2 (proj2 (Hshape [(lit "title", VStr (lit "t"))])))).
    vm_compute. reflexivity.
  - apply Hother. intros fields. discriminate.
  - apply (Hthrow (unlines [lit "---"; lit "tags: [pjt/a, {toString: 1}]"; lit "---"])
                  (lit "tags: [pjt/a, {toString: 1}]")
                  (VObj [(lit "tags",
                          VArr [VStr (lit "pjt/a");
                                VObj [(lit "toString", VOther true (lit "1"))]])])).
    + vm_compute. reflexivity.
    + vm_compute. reflexivity.
    + vm_compute. reflexivity.
Defined.

(** [tags: false] is a scalar; taken as a one-element sequence it would
    give the tag [false], the code gives none. *)
Lemma falsy_scalar_tag_dropped :
  parseYaml (lit "tags: false") = inr (VObj [(lit "tags", VBool false)])
  /\ fst (extract_tags doc_tags_false (Demo.start disk_x)) = inr [lit "x"]
  /\ spec_extract (Some (VObj [(lit "tags", VBool false)])) (body_of doc_tags_false)
     = [lit "false"; lit "x"].
Proof. repeat split; vm_compute; reflexivity. Qed.

Lemma batch_counts_every_file_witness :
  fst (processFile DEFAULT_SETTINGS note_z (Demo.start disk_three))
  = inl (Error NoTagsFound)
  /\ fst (batch_loop DEFAULT_SETTINGS [note_z] 2 0 (Demo.start disk_three))
     = inr (2, 1).
Proof.
  apply (proj2 (@batch_counts_every_file Demo.Disk Demo.host DEFAULT_SETTINGS
                  (Demo.start disk_three))
               note_z (lit "no! tags?") disk_three 2 0).
  - vm_compute. reflexivity.
  - vm_compute. reflexivity.
Defined.

(** Three notes, one of them without tags: two moved, one failed. *)
Example batch_of_three :
  exists st',
    moveAllFiles DEFAULT_SETTINGS (Demo.start disk_three) = (inr tt, st')
    /\ last (log st') (Notice NoticeNoTargets) = Notice (NoticeDone 2 1)
    /\ Demo.notes (world st')
       = [(lit "03_project/q1/a.md", lit "pjt/q1");
          (lit "02/notes/z.md", lit "no! tags?");
          (lit "01_inbox/urgent/b.md",
           unlines [lit "---"; lit "tags: [a, work/urgent]"; lit "---"; lit "#c d"])].
Proof.
  eexists. split; [vm_compute; reflexivity|]. split; vm_compute; reflexivity.
Qed.

Lemma target_path_normalized_join_witness :
  (exists evs,
      log (snd (moveFileToProject DEFAULT_SETTINGS note_x (lit "q1") false
                  (Demo.start disk_x)))
      = log (Demo.start disk_x) ++ evs
      /\ In (Requested (ReqRename note_x (lit "03_project/q1/x.md")) None) evs)
  /\ Demo.normalizePath
       (Spec.target_path DEFAULT_SETTINGS (Demo.normalizePath (lit "q1")) false
          (lit "x.md"))
     = lit "03_project/q1/x.md".
Proof.
  pose proof (proj1 target_path_normalized_join Demo.Disk Demo.host
                DEFAULT_SETTINGS note_x (lit "q1") false (Demo.start disk_x)
                (snd (moveFileToProject DEFAULT_SETTINGS note_x (lit "q1") false
                        (Demo.start disk_x)))
                eq_refl) as [[evs [Hlog [Hin _]]] Hplain].
  split.
  - exists evs. split; [exact Hlog | exact Hin].
  - apply Hplain; vm_compute; reflexivity.
Defined.

(** A trailing slash in the root folder: the joined path of the
    specification keeps the doubled slash, the path the file is moved to
    does not. *)
Lemma trailing_slash_is_normalized_away :
  (exists st',
      moveFileToProject settings_slash note_x (lit "q1") false (Demo.start disk_x)
      = (inr true, st')
      /\ In (Requested (ReqRename note_x (lit "03_project/q1/x.md")) None) (log st'))
  /\ Spec.target_path settings_slash (lit "q1") false (name note_x)
     = lit "03_project//q1/x.md"
  /\ lit "03_project/q1/x.md" <> lit "03_project//q1/x.md".
Proof.
  split; [|split].
  - eexists. split; [vm_compute; reflexivity | in_log].
  - vm_compute. reflexivity.
  - vm_compute. discriminate.
Qed.


Lemma batch_filter_is_string_prefix_witness :
  In note_archived (targetFiles DEFAULT_SETTINGS [note_x; note_archived]).
Proof.
  apply (proj1 (proj2 batch_filter_is_string_prefix) [note_x; note_archived]).
  right. left. reflexivity.
Defined.

(** ** The remaining examples of section 8 of the specification *)

Example resolve_rule_beats_prefix :
  resolve {| tagPrefix := lit "pjt/"; rootFolder := lit "03_project";
             notesFolder := lit "02/notes";
             tagRules := [ {| tagPattern := lit "work/urgent";
                              destination := lit "01_inbox/urgent" |} ] |}
          [lit "work/urgent"; lit "pjt/alpha"]
  = Some (lit "01_inbox/urgent", true).
Proof. reflexivity. Qed.

Example move_rejects_traversal :
  fst (moveFileToProject DEFAULT_SETTINGS note_x (lit "../../etc") false
         (Demo.start disk_x)) = inr false.
Proof. reflexivity. Qed.

Example normalize_example :
  normalize (DQUOTE :: lit "#pjt/a'" ++ [DQUOTE]) = lit "pjt/a".
Proof. reflexivity. Qed.

(** Stripping one hash mark, the only normalisation of [processFile], is
    not idempotent on its own. *)
Example strip_hash_twice :
  strip_hash (strip_hash (lit "##a")) <> strip_hash (lit "##a").
Proof. vm_compute. discriminate. Qed.

(* ================================================================== *)
(** * More on the tags of the body *)
(* ================================================================== *)

Section BodyTagsMore.

Lemma tagchar_not_quote_or_hash (c : char) :
  is_tagchar c = true -> is_quote_or_hash c = false.
Proof.
  unfold is_tagchar, is_word, between, is_quote_or_hash, SLASH, DASH, DQUOTE,
    SQUOTE, HASH.
  repeat rewrite orb_true_iff. repeat rewrite andb_true_iff.
  repeat rewrite N.leb_le. repeat rewrite N.eqb_eq.
  intro H. repeat (apply orb_false_iff; split); apply N.eqb_neq; lia.
Qed.

Lemma tagchars_keep_trailing (t : jsstring) :
  forallb is_tagchar t = true -> drop_trailing_quotes t = t.
Proof.
  induction t as [|c t IH]; [reflexivity|].
  cbn [forallb drop_trailing_quotes]. intro H.
  apply andb_true_iff in H as [Hc Ht].
  rewrite (quote_is_quote_or_hash _ (tagchar_not_quote_or_hash _ Hc)).
  cbn [andb]. rewrite (IH Ht). reflexivity.
Qed.

Lemma tagchars_clean_head (t : jsstring) :
  forallb is_tagchar t = true -> clean_head t.
Proof.
  destruct t as [|c t]; [intros _; exact I|].
  cbn [forallb clean_head]. intro H.
  apply andb_true_iff in H as [Hc _].
  apply tagchar_not_quote_or_hash, Hc.
Qed.

Lemma token_tag_alphabet (w t : jsstring) :
  Spec.token_tag w = Some t -> t <> [] /\ forallb is_tagchar t = true.
Proof.
  unfold Spec.token_tag.
  set (run := match w with
              | c :: w' => if N.eqb c HASH then w' else w
              | [] => w
              end).
  destruct (nonempty run) eqn:En; [|discriminate].
  destruct (forallb is_tagchar run) eqn:Ef; [|discriminate].
  cbn [andb]. intro H. injection H as <-.
  split; [destruct run; [discriminate | congruence] | exact Ef].
Qed.

Lemma collect_alphabet (ws : list jsstring) (t : jsstring) :
  In t (Spec.collect ws) -> t <> [] /\ forallb is_tagchar t = true.
Proof.
  induction ws as [|w ws IH]; [intros []|].
  cbn [Spec.collect].
  destruct (Spec.token_tag w) as [t'|] eqn:E; [|exact IH].
  intros [<-|H]; [eapply token_tag_alphabet, E | apply IH, H].
Qed.

(** Every tag found in the body is a non-empty string over
    [[A-Za-z0-9_/-]]: it carries no hash mark, quote or whitespace, so
    neither [replace(/^#/, '')] nor the normalisation of [moveActiveFile]
    changes it. *)
Theorem body_tags_alphabet (body t : jsstring) :
  In t (body_tags body) ->
  t <> []
  /\ forallb is_tagchar t = true
  /\ strip_hash t = t
  /\ normalize t = t.
Proof.
  rewrite body_tags_tokens. unfold Spec.body_tags. intro H.
  destruct (collect_alphabet _ _ H) as [Hne Hall].
  pose proof (tagchars_clean_head _ Hall) as Hc.
  repeat split; try assumption.
  - apply strip_hash_clean, Hc.
  - unfold normalize.
    rewrite (strip_quotes_clean _ Hc), (tagchars_keep_trailing _ Hall).
    apply strip_hash_clean, Hc.
Qed.

Lemma split_ws_nonempty (s : jsstring) : Spec.split_ws s <> [].
Proof. rewrite split_ws_cons. discriminate. Qed.

Lemma split_ws_space_between (a b : jsstring) (c : char) :
  is_space c = true ->
  Spec.split_ws (a ++ c :: b) = Spec.split_ws a ++ Spec.split_ws b.
Proof.
  intro Hc. induction a as [|x a IH].
  - cbn. rewrite Hc. reflexivity.
  - cbn [app Spec.split_ws]. rewrite IH.
    destruct (is_space x); [reflexivity|].
    destruct (Spec.split_ws a) as [|w ws] eqn:E;
      [exfalso; exact (split_ws_nonempty a E) | reflexivity].
Qed.

Lemma collect_app (l l' : list jsstring) :
  Spec.collect (l ++ l') = Spec.collect l ++ Spec.collect l'.
Proof.
  induction l as [|w l IH]; [reflexivity|].
  cbn [app Spec.collect]. rewrite IH.
  destruct (Spec.token_tag w); reflexivity.
Qed.

(** The body scan works token by token: the tags of two texts joined by
    a whitespace character are the tags of the first followed by the tags
    of the second. *)
Theorem body_tags_space_between (a b : jsstring) (c : char) :
  is_space c = true ->
  body_tags (a ++ c :: b) = body_tags a ++ body_tags b.
Proof.
  intro Hc. rewrite !body_tags_tokens. unfold Spec.body_tags.
  rewrite (split_ws_space_between a b c Hc). apply collect_app.
Qed.

End BodyTagsMore.

Lemma body_tags_alphabet_witness :
  lit "pjt/q1" <> []
  /\ forallb is_tagchar (lit "pjt/q1") = true
  /\ strip_hash (lit "pjt/q1") = lit "pjt/q1"
  /\ normalize (lit "pjt/q1") = lit "pjt/q1".
Proof.
  apply (body_tags_alphabet (lit "see #pjt/q1 (#draft)") (lit "pjt/q1")).
  in_log.
Defined.

Lemma body_tags_space_between_witness :
  body_tags (lit "#a b!" ++ LF :: lit "c-d #e#")
  = body_tags (lit "#a b!") ++ body_tags (lit "c-d #e#").
Proof.
  apply (body_tags_space_between (lit "#a b!") (lit "c-d #e#") LF).
  reflexivity.
Defined.

(* ================================================================== *)
(** * More on the frontmatter match *)
(* ================================================================== *)

Section FrontmatterMore.

Lemma startsWith_more (s p rest : jsstring) :
  startsWith s p = true -> startsWith (s ++ rest) p = true.
Proof.
  intro H. apply startsWith_app in H as [r ->].
  apply startsWith_app. exists (r ++ rest). symmetry. apply app_assoc.
Qed.

Lemma startsWith_skipn (s p : jsstring) :
  startsWith s p = true -> s = p ++ skipn (List.length p) s.
Proof.
  intro H. apply startsWith_app in H as [r ->].
  rewrite skipn_app, skipn_all, Nat.sub_diag. reflexivity.
Qed.

(** The lazy group stops at the first fence. *)
Lemma lazy_group_split (s g rest : jsstring) :
  lazy_group_then_fence s = Some (g, rest) ->
  s = g ++ fence ++ rest /\ contains_fence g = false.
Proof.
  revert g rest; induction s as [|c s IH]; intros g rest H.
  - discriminate.
  - cbn [lazy_group_then_fence] in H.
    destruct (startsWith (c :: s) (LF :: lit "---")) eqn:Es.
    + injection H as <- <-. split; [|reflexivity].
      apply (startsWith_skipn (c :: s) fence Es).
    + destruct (lazy_group_then_fence s) as [[g' rest']|] eqn:El; [|discriminate].
      injection H as <- <-.
      destruct (IH g' rest' eq_refl) as [-> Hg]. split; [reflexivity|].
      cbn [contains_fence]. rewrite Hg, orb_false_r.
      destruct (startsWith (c :: g') (LF :: lit "---")) eqn:E; [|reflexivity].
      apply (startsWith_more (c :: g') (LF :: lit "---") (fence ++ rest')) in E.
      cbn [app] in E. congruence.
Qed.

Lemma newline_group_split (s g rest : jsstring) :
  newline_group_fence s = Some (g, rest) ->
  s = LF :: g ++ fence ++ rest /\ contains_fence g = false.
Proof.
  destruct s as [|c s]; [discriminate|]. unfold newline_group_fence.
  destruct (N.eqb c LF) eqn:E; [|discriminate].
  apply N.eqb_eq in E. subst c. intro H.
  destruct (lazy_group_split _ H) as [-> Hg]. split; [reflexivity | exact Hg].
Qed.

Lemma spaces_group_split (s g rest : jsstring) :
  spaces_newline_group_fence s = Some (g, rest) ->
  exists ws,
    forallb is_space ws = true
    /\ s = ws ++ LF :: g ++ fence ++ rest
    /\ contains_fence g = false.
Proof.
  revert g rest; induction s as [|c s IH]; intros g rest H; [discriminate|].
  cbn [spaces_newline_group_fence] in H.
  assert (newline_group_fence (c :: s) = Some (g, rest) ->
          exists ws, forallb is_space ws = true
                     /\ c :: s = ws ++ LF :: g ++ fence ++ rest
                     /\ contains_fence g = false) as Hdirect.
  { intro Hn. destruct (newline_group_split _ Hn) as [-> Hg].
    exists []. split; [reflexivity|]. split; [reflexivity | exact Hg]. }
  destruct (is_space c) eqn:Ec; [|exact (Hdirect H)].
  destruct (spaces_newline_group_fence s) as [[g' rest']|] eqn:Es;
    [|exact (Hdirect H)].
  injection H as <- <-.
  destruct (IH g' rest' eq_refl) as (ws & Hws & -> & Hg).
  exists (c :: ws). cbn [forallb]. rewrite Ec, Hws.
  split; [reflexivity|]. split; [reflexivity | exact Hg].
Qed.

Lemma lazy_group_finds (g rest : jsstring) :
  lazy_group_then_fence (g ++ fence ++ rest) <> None.
Proof.
  induction g as [|c g IH].
  - unfold fence. cbn [app lazy_group_then_fence].
    assert (startsWith (LF :: lit "---" ++ rest) (LF :: lit "---") = true) as ->
      by (apply startsWith_app; exists rest; reflexivity).
    discriminate.
  - cbn [app lazy_group_then_fence].
    destruct (startsWith (c :: g ++ fence ++ rest) (LF :: lit "---"));
      [discriminate|].
    destruct (lazy_group_then_fence (g ++ fence ++ rest)) as [[g' rest']|];
      [discriminate | contradiction].
Qed.

Lemma spaces_group_finds (ws g rest : jsstring) :
  forallb is_space ws = true ->
  spaces_newline_group_fence (ws ++ LF :: g ++ fence ++ rest) <> None.
Proof.
  induction ws as [|c ws IH]; intro Hws.
  - cbn [app spaces_newline_group_fence].
    change (is_space LF) with true. cbv iota.
    destruct (spaces_newline_group_fence (g ++ fence ++ rest)); [discriminate|].
    unfold newline_group_fence. rewrite N.eqb_refl. apply lazy_group_finds.
  - cbn [forallb] in Hws. apply andb_true_iff in Hws as [Hc Hws].
    cbn [app spaces_newline_group_fence]. rewrite Hc.
    pose proof (IH Hws) as Hfound.
    destruct (spaces_newline_group_fence (ws ++ LF :: g ++ fence ++ rest));
      [discriminate | contradiction].
Qed.

(** A frontmatter block is detected exactly when the text starts with
    three dashes, then whitespace only, a line feed, and somewhere behind
    it a line feed followed by three dashes; nothing asks for the closing
    dashes to fill their line. *)
Theorem fm_match_detects (content : jsstring) :
  fm_match content <> None <->
  exists ws g rest,
    forallb is_space ws = true
    /\ content = lit "---" ++ ws ++ LF :: g ++ fence ++ rest.
Proof.
  unfold fm_match. split.
  - destruct (startsWith content (lit "---")) eqn:Es; [|congruence].
    destruct (spaces_newline_group_fence (skipn 3 content)) as [[g rest]|] eqn:E;
      [|congruence].
    intros _. destruct (spaces_group_split _ E) as (ws & Hws & Hs & _).
    exists ws, g, rest. split; [exact Hws|].
    rewrite (startsWith_skipn content (lit "---") Es).
    change (List.length (lit "---")) with 3. rewrite Hs. reflexivity.
  - intros (ws & g & rest & Hws & ->).
    assert (startsWith (lit "---" ++ ws ++ LF :: g ++ fence ++ rest) (lit "---")
            = true) as -> by (apply startsWith_app; eexists; reflexivity).
    change (skipn 3 (lit "---" ++ ws ++ LF :: g ++ fence ++ rest))
      with (ws ++ LF :: g ++ fence ++ rest).
    pose proof (spaces_group_finds ws g rest Hws) as H.
    destruct (spaces_newline_group_fence (ws ++ LF :: g ++ fence ++ rest))
      as [[g' rest']|]; [discriminate | contradiction].
Qed.

(** What a match returns: the matched text is the opening dashes,
    whitespace, a line feed, the captured block and the closing fence; the
    captured block itself holds no closing fence; and the matched text
    followed by the body is the whole document again. *)
Theorem fm_match_parts (content whole group1 : jsstring) :
  fm_match content = Some (whole, group1) ->
  (exists ws,
      forallb is_space ws = true
      /\ whole = lit "---" ++ ws ++ LF :: group1 ++ fence)
  /\ contains_fence group1 = false
  /\ content = whole ++ body_of content.
Proof.
  intro Hm. unfold body_of. rewrite Hm. revert Hm. unfold fm_match.
  destruct (startsWith content (lit "---")) eqn:Es; [|discriminate].
  destruct (spaces_newline_group_fence (skipn 3 content)) as [[g rest]|] eqn:E;
    [|discriminate].
  intro H. injection H as <- <-.
  destruct (spaces_group_split _ E) as (ws & Hws & Hs & Hg).
  assert (content = (lit "---" ++ ws ++ LF :: g ++ fence) ++ rest) as Hc.
  { rewrite (startsWith_skipn content (lit "---") Es).
    change (List.length (lit "---")) with 3. rewrite Hs.
    repeat (rewrite <- app_assoc; cbn [app]). reflexivity. }
  assert (firstn (List.length content - List.length rest) content
          = lit "---" ++ ws ++ LF :: g ++ fence) as Hw.
  { rewrite Hc at 2. rewrite Hc at 1. rewrite length_app, Nat.add_sub.
    rewrite firstn_app, firstn_all, Nat.sub_diag. cbn [firstn].
    apply app_nil_r. }
  rewrite Hw. split; [exists ws; split; [exact Hws | reflexivity]|].
  split; [exact Hg|].
  rewrite Hc at 2. rewrite skipn_app, skipn_all, Nat.sub_diag. cbn [skipn app].
  exact Hc.
Qed.

End FrontmatterMore.

Lemma fm_match_detects_witness :
  fm_match (unlines [lit "---   "; lit "tags: a"; lit "----x"]) <> None.
Proof.
  apply (proj2 (fm_match_detects (unlines [lit "---   "; lit "tags: a"; lit "----x"]))).
  exists (lit "   "), (lit "tags: a"), (lit "-x").
  split; vm_compute; reflexivity.
Defined.

Lemma fm_match_parts_witness :
  (exists ws,
      forallb is_space ws = true
      /\ unlines [lit "---"; lit "tags: [a, b]"; lit "---"]
         = lit "---" ++ ws ++ LF :: lit "tags: [a, b]" ++ fence)
  /\ contains_fence (lit "tags: [a, b]") = false
  /\ doc_ab_cd = unlines [lit "---"; lit "tags: [a, b]"; lit "---"] ++ body_of doc_ab_cd.
Proof.
  apply (fm_match_parts doc_ab_cd). vm_compute. reflexivity.
Defined.

(* ================================================================== *)
(** * More on normalisation and on paths *)
(* ================================================================== *)

Section NormaliseMore.

Lemma all_quotes_end_with_quote (t : jsstring) :
  t <> [] -> forallb is_quote t = true -> ends_with_quote t = true.
Proof.
  induction t as [|c t IH]; [congruence|]. intros _ H.
  cbn [forallb] in H. apply andb_true_iff in H as [Hc Ht].
  destruct t as [|d t]; [exact Hc|].
  change (ends_with_quote (c :: d :: t)) with (ends_with_quote (d :: t)).
  apply IH; [discriminate | exact Ht].
Qed.

Lemma drop_trailing_fixed (t : jsstring) :
  drop_trailing_quotes t = t <-> ends_with_quote t = false.
Proof.
  induction t as [|c t IH]; [split; reflexivity|].
  cbn [drop_trailing_quotes].
  destruct t as [|d t].
  - cbn [forallb ends_with_quote drop_trailing_quotes]. rewrite andb_true_r.
    destruct (is_quote c); split; congruence.
  - change (ends_with_quote (c :: d :: t)) with (ends_with_quote (d :: t)).
    destruct (forallb is_quote (c :: d :: t)) eqn:E.
    + split; [discriminate|]. intro H.
      cbn [forallb] in E. apply andb_true_iff in E as [_ E].
      rewrite (all_quotes_end_with_quote (t := d :: t)) in H;
        [discriminate | discriminate | exact E].
    + rewrite <- IH. split; intro H; [injection H as H; exact H | congruence].
Qed.

(** The strings normalisation leaves alone are exactly those that do not
    start with a quote or a hash mark and do not end with a quote; every
    result of [normalize] is one of them. *)
Theorem normalize_fixed_points (t : jsstring) :
  (normalize t = t <-> clean_head t /\ ends_with_quote t = false)
  /\ clean_head (normalize t)
  /\ ends_with_quote (normalize t) = false.
Proof.
  assert (clean_head (normalize t) /\ ends_with_quote (normalize t) = false)
    as [Hc He].
  { destruct (normalize_shape t) as [r [Hr ->]]. split.
    - apply drop_trailing_keeps_clean, Hr.
    - apply drop_trailing_fixed, drop_trailing_idem. }
  split; [|split; assumption].
  split.
  - intro H. rewrite <- H. split; assumption.
  - intros [Hc' He']. unfold normalize.
    rewrite (strip_quotes_clean _ Hc'), (proj2 (drop_trailing_fixed t) He').
    apply strip_hash_clean, Hc'.
Qed.

(** The last occurrence of a character, counted from [i]. *)
Lemma lastIndexOf_from_spec (c : char) (s : jsstring) :
  forall i : Z, (0 <= i)%Z ->
    (~ In c s /\ lastIndexOf_from i s c = (-1)%Z)
    \/ (exists pre post,
          s = pre ++ c :: post /\ ~ In c post
          /\ lastIndexOf_from i s c = (i + Z.of_nat (List.length pre))%Z).
Proof.
  induction s as [|x s IH]; intros i Hi.
  - left. split; [intros [] | reflexivity].
  - cbn [lastIndexOf_from].
    destruct (IH (i + 1)%Z ltac:(lia))
      as [[Hn ->]|(pre & post & -> & Hpost & ->)].
    + cbn [Z.leb Z.compare]. destruct (N.eqb x c) eqn:E.
      * apply N.eqb_eq in E. subst x. right. exists [], s.
        split; [reflexivity|]. split; [exact Hn|]. cbn. lia.
      * left. split; [|reflexivity].
        intros [->|H]; [rewrite N.eqb_refl in E; discriminate | exact (Hn H)].
    + assert ((0 <=? i + 1 + Z.of_nat (List.length pre))%Z = true) as ->
        by (apply Z.leb_le; lia).
      right. exists (x :: pre), post.
      split; [reflexivity|]. split; [exact Hpost|]. cbn [List.length]. lia.
Qed.

(** The folder asked of the adapter is the target path up to its last
    slash: a target without a slash has the empty folder (the vault root,
    for which nothing is created), and otherwise the target is the folder,
    a slash and a last segment without slashes. *)
Theorem parent_of_splits (targetPath : jsstring) :
  (~ In SLASH targetPath -> parent_of targetPath = [])
  /\ (In SLASH targetPath ->
      exists base,
        targetPath = parent_of targetPath ++ SLASH :: base
        /\ ~ In SLASH base).
Proof.
  unfold parent_of, lastIndexOf, substring0.
  destruct (lastIndexOf_from_spec SLASH targetPath (i := 0) ltac:(lia))
    as [[Hn ->]|(pre & post & -> & Hpost & ->)].
  - split; [reflexivity | contradiction].
  - split.
    + intro H. exfalso. apply H, in_elt.
    + intros _. exists post. split; [|exact Hpost].
      rewrite Z.add_0_l, Nat2Z.id, firstn_app, firstn_all, Nat.sub_diag.
      cbn [firstn]. rewrite app_nil_r. reflexivity.
Qed.

End NormaliseMore.

Lemma normalize_fixed_points_witness :
  normalize (lit "pjt/it's") = lit "pjt/it's".
Proof.
  apply (proj1 (normalize_fixed_points (lit "pjt/it's"))).
  split; vm_compute; reflexivity.
Defined.

Lemma parent_of_splits_witness :
  parent_of (lit "x.md") = []
  /\ exists base,
       lit "03_project/q1/x.md" = parent_of (lit "03_project/q1/x.md") ++ SLASH :: base
       /\ ~ In SLASH base.
Proof.
  split.
  - apply (proj1 (parent_of_splits (lit "x.md"))).
    vm_compute. intuition discriminate.
  - apply (proj2 (parent_of_splits (lit "03_project/q1/x.md"))).
    in_log.
Defined.

(* ================================================================== *)
(** * The order of the requests *)
(* ================================================================== *)

Section Protocol.

Context {W : Type} {host : Host W}.
Variable settings : Settings.

Lemma renamed_of_app (l l' : list Event) :
  renamed_of (l ++ l') = renamed_of l ++ renamed_of l'.
Proof.
  induction l as [|[[f|q|q|f q] [e|]|m|lv m] l IH]; cbn [app renamed_of];
    try exact IH; try reflexivity.
  rewrite IH. reflexivity.
Qed.

Lemma failed_of_app (l l' : list Event) :
  failed_of (l ++ l') = failed_of l ++ failed_of l'.
Proof.
  induction l as [|[r o|m|[| |] []] l IH]; cbn [app failed_of];
    try exact IH; try reflexivity.
  rewrite IH. reflexivity.
Qed.

(** One call of [moveFileToProject]: what it asks of the storage
    collaborators, in which order, and what that leaves in the log. *)
Lemma move_log (file : TFile) (path : jsstring) (isFullPath : bool)
    (st : State W) :
  let T := target_of settings path isFullPath (name file) in
  let F := parent_of T in
  exists b evs w',
    moveFileToProject settings file path isFullPath st =
      (inr b, {| world := w'; log := log st ++ evs |})
    /\ renamed_of evs = (if b then [(file, T)] else [])
    /\ failed_of evs = []
    /\ ((segment_rejected (normalizePath path) = true
         \/ startsWith T (lit "../") = true)
        /\ requests_of evs = [] /\ b = false
        \/ segment_rejected (normalizePath path) = false
           /\ startsWith T (lit "../") = false
           /\ (F = [] /\ requests_of evs = [ReqRename file T]
               \/ F <> []
                  /\ match adapter_exists F (world st) with
                     | (inl _, _) => requests_of evs = [ReqExists F] /\ b = false
                     | (inr true, _) =>
                         requests_of evs = [ReqExists F; ReqRename file T]
                     | (inr false, w1) =>
                         match adapter_mkdir F w1 with
                         | (inl _, _) =>
                             requests_of evs = [ReqExists F; ReqMkdir F]
                             /\ b = false
                         | (inr _, _) =>
                             requests_of evs
                             = [ReqExists F; ReqMkdir F; ReqRename file T]
                         end
                     end)).
Proof.
  intros T F.
  destruct (segment_rejected (normalizePath path)) eqn:H1.
  { rewrite (move_invalid_segment settings file path isFullPath st H1).
    close_protocol. repeat split. left. auto. }
  destruct (startsWith T (lit "../")) eqn:H2.
  { rewrite (move_escaping_target settings file path isFullPath st H1 H2).
    close_protocol. repeat split. left. auto. }
  assert (moveFileToProject settings file path isFullPath st =
          (console Log (CTarget T) ;;
           console Log (CFolder F) ;;
           try_catch
             ((if nonempty F
               then
                 present <- request (ReqExists F) (adapter_exists F) ;;
                 if negb present
                 then request (ReqMkdir F) (adapter_mkdir F)
                 else ret tt
               else console Log (CVaultRoot T)) ;;
              request (ReqRename file T) (fileManager_renameFile file T) ;;
              notice (NoticeMoved T) ;;
              console Log (CMoved (Vault.path file) T) ;;
              ret true)
             (fun e =>
                console Err (CMoveFailed e) ;;
                notice NoticeMoveFailed ;;
                ret false)) st) as ->.
  { unfold moveFileToProject. unfold segment_rejected in H1.
    unfold F, parent_of, T, target_of in *.
    cbv zeta. rewrite H1. rewrite preliminary_target, H2. reflexivity. }
  clearbody F T. run_monad.
  destruct (nonempty F) eqn:En; step.
  - assert (F <> []) as Hne by (destruct F; [discriminate | congruence]).
    destruct (adapter_exists F (world st)) as [[e|[|]] w1]; step.
    + close_protocol. repeat split. right. repeat split. right. auto.
    + destruct (fileManager_renameFile file T w1) as [[e|[]] w2]; step;
        close_protocol; repeat split; right; repeat split; right; auto.
    + destruct (adapter_mkdir F w1) as [[e|[]] w2]; step.
      * close_protocol. repeat split. right. repeat split. right. auto.
      * destruct (fileManager_renameFile file T w2) as [[e|[]] w3]; step;
          close_protocol; repeat split; right; repeat split; right; auto.
  - assert (F = []) as HF by (destruct F; [reflexivity | discriminate]).
    destruct (fileManager_renameFile file T (world st)) as [[e|[]] w2]; step;
      close_protocol; repeat split; right; repeat split; left; auto.
Qed.

(** The plain form of a move that passed both path checks. *)
Lemma move_attempt_run (file : TFile) (path : jsstring) (isFullPath : bool)
    (st : State W) :
  let T := target_of settings path isFullPath (name file) in
  let F := parent_of T in
  segment_rejected (normalizePath path) = false ->
  startsWith T (lit "../") = false ->
  moveFileToProject settings file path isFullPath st =
  (console Log (CTarget T) ;;
   console Log (CFolder F) ;;
   try_catch
     ((if nonempty F
       then
         present <- request (ReqExists F) (adapter_exists F) ;;
         if negb present
         then request (ReqMkdir F) (adapter_mkdir F)
         else ret tt
       else console Log (CVaultRoot T)) ;;
      request (ReqRename file T) (fileManager_renameFile file T) ;;
      notice (NoticeMoved T) ;;
      console Log (CMoved (Vault.path file) T) ;;
      ret true)
     (fun e =>
        console Err (CMoveFailed e) ;;
        notice NoticeMoveFailed ;;
        ret false)) st.
Proof.
  intros T F H1 H2.
  unfold moveFileToProject. unfold segment_rejected in H1.
  unfold F, parent_of, T, target_of in *.
  cbv zeta. rewrite H1. rewrite preliminary_target, H2. reflexivity.
Qed.

(** The requests of one move, their order and its result: nothing is asked
    for a rejected path and the result is [false]; otherwise the adapter is
    asked whether the parent folder of the target exists (not for the
    vault root), the folder is created only when the answer was no, and
    the rename comes last; a step that throws ends the call with [false]
    and nothing more is asked, and the result is [true] exactly when the
    rename was asked for and did not throw, which is also when the log
    records it as done.  The host is left as the last request left it. *)
Theorem move_request_order (file : TFile) (path : jsstring) (isFullPath : bool)
    (st : State W) :
  let T := target_of settings path isFullPath (name file) in
  let F := parent_of T in
  let rename_from (w : W) (evs : list Event) (before : list Request)
                  (b : bool) (w' : W) :=
    requests_of evs = before ++ [ReqRename file T]
    /\ match fileManager_renameFile file T w with
       | (inl _, w2) => b = false /\ w' = w2
       | (inr _, w2) => b = true /\ w' = w2
       end in
  exists b evs w',
    moveFileToProject settings file path isFullPath st =
      (inr b, {| world := w'; log := log st ++ evs |})
    /\ renamed_of evs = (if b then [(file, T)] else [])
    /\ ((segment_rejected (normalizePath path) = true
         \/ startsWith T (lit "../") = true)
        /\ requests_of evs = [] /\ b = false /\ w' = world st
        \/ segment_rejected (normalizePath path) = false
           /\ startsWith T (lit "../") = false
           /\ (F = [] /\ rename_from (world st) evs [] b w'
               \/ F <> []
                  /\ match adapter_exists F (world st) with
                     | (inl _, w1) =>
                         requests_of evs = [ReqExists F] /\ b = false /\ w' = w1
                     | (inr true, w1) =>
                         rename_from w1 evs [ReqExists F] b w'
                     | (inr false, w1) =>
                         match adapter_mkdir F w1 with
                         | (inl _, w2) =>
                             requests_of evs = [ReqExists F; ReqMkdir F]
                             /\ b = false /\ w' = w2
                         | (inr _, w2) =>
                             rename_from w2 evs [ReqExists F; ReqMkdir F] b w'
                         end
                     end)).
Proof.
  intros T F rename_from. unfold rename_from. clear rename_from.
  destruct (segment_rejected (normalizePath path)) eqn:H1.
  { rewrite (move_invalid_segment settings file path isFullPath st H1).
    close_protocol. split; [reflexivity|]. left. auto. }
  destruct (startsWith T (lit "../")) eqn:H2.
  { rewrite (move_escaping_target settings file path isFullPath st H1 H2).
    close_protocol. split; [reflexivity|]. left. auto. }
  rewrite (move_attempt_run file path isFullPath st H1 H2).
  fold T. fold F. clearbody F T. run_monad.
  destruct (nonempty F) eqn:En; step.
  - assert (F <> []) as Hne by (destruct F; [discriminate | congruence]).
    destruct (adapter_exists F (world st)) as [[e|[|]] w1]; step.
    + close_protocol. split; [reflexivity|]. right. repeat split. right. auto.
    + destruct (fileManager_renameFile file T w1) as [[e|[]] w2]; step;
        close_protocol; (split; [reflexivity|]); right; repeat split; right; auto.
    + destruct (adapter_mkdir F w1) as [[e|[]] w2]; step.
      * close_protocol. split; [reflexivity|]. right. repeat split. right. auto.
      * destruct (fileManager_renameFile file T w2) as [[e|[]] w3]; step;
          close_protocol; (split; [reflexivity|]); right; repeat split; right; auto.
  - assert (F = []) as HF by (destruct F; [reflexivity | discriminate]).
    destruct (fileManager_renameFile file T (world st)) as [[e|[]] w2]; step;
      close_protocol; (split; [reflexivity|]); right; repeat split; left; auto.
Qed.

(** A console line, then a move whose failure is turned into an error. *)
Lemma move_or_throw_log (file : TFile) (line : ConsoleMsg) (dest : jsstring)
    (isFullPath : bool) (failure : ErrorMessage) (st : State W) :
  exists r evs w',
    (console Log line ;;
     moveSuccess <- moveFileToProject settings file dest isFullPath ;;
     if negb moveSuccess then throw (Error failure) else ret tt) st
    = (r, {| world := w'; log := log st ++ evs |})
    /\ failed_of evs = []
    /\ (r = inr tt
        /\ renamed_of evs
           = [(file, target_of settings dest isFullPath (name file))]
        \/ r = inl (Error failure) /\ renamed_of evs = []).
Proof.
  run_monad.
  destruct (move_log file dest isFullPath
              {| world := world st; log := log st ++ [Console Log line] |})
    as (b & evs & w' & -> & Hren & Hfail & _).
  cbn [log]. rewrite <- app_assoc.
  destruct b; cbn [negb]; do 3 eexists; (split; [reflexivity|]);
    cbn [app failed_of renamed_of]; rewrite Hren, Hfail;
    (split; [reflexivity|]); [left | right]; split; reflexivity.
Qed.

Lemma process_tags_log (file : TFile) (tags : list jsstring) (st : State W) :
  exists r evs w',
    process_tags settings file tags st =
      (r, {| world := w'; log := log st ++ evs |})
    /\ failed_of evs = []
    /\ (r = inr tt /\ (exists T, renamed_of evs = [(file, T)])
        \/ (exists m, r = inl (Error m)) /\ renamed_of evs = [])
    /\ match tags with
       | [] => r = inl (Error NoTagsFound)
       | _ =>
           match resolve settings tags with
           | None => r = inl (Error NoMatchingTag)
           | Some (dest, true) =>
               r = inr tt
               \/ exists pattern, r = inl (Error (RuleMoveFailed pattern dest))
           | Some (dest, false) =>
               r = inr tt
               \/ exists pjtTag, r = inl (Error (PrefixMoveFailed pjtTag))
           end
       end.
Proof.
  assert (forall A (r : result A) (m : ErrorMessage),
             exists w', (r, st) = (r, {| world := w'; log := log st ++ [] |}))
    as Hsame.
  { intros. exists (world st). rewrite app_nil_r. destruct st. reflexivity. }
  destruct tags as [|t0 tags0].
  - destruct (Hsame unit (inl (Error NoTagsFound)) NoTagsFound) as [w' Hw'].
    exists (inl (Error NoTagsFound)), [], w'. split; [exact Hw'|].
    split; [reflexivity|]. split; [right; eauto | reflexivity].
  - rewrite process_tags_run by discriminate. unfold resolve.
    destruct (pass1 (tagRules settings) (t0 :: tags0)) as [[pattern rule]|].
    + destruct (move_or_throw_log file
                  (CRuleMatched pattern (strip_hash pattern) (destination rule))
                  (destination rule) true
                  (RuleMoveFailed pattern (destination rule)) st)
        as (r & evs & w' & -> & Hfail & Hren).
      exists r, evs, w'. split; [reflexivity|]. split; [exact Hfail|].
      destruct Hren as [[-> Hren]|[-> Hren]]; split; eauto.
    + unfold prefix_fallback, pass2.
      destruct (find (fun t => startsWith t (strip_hash (tagPrefix settings)))
                     (t0 :: tags0)) as [pjtTag|].
      * destruct (nonempty pjtTag).
        -- destruct (move_or_throw_log file
                       (CDefault pjtTag
                          (substringFrom pjtTag
                             (List.length (strip_hash (tagPrefix settings)))))
                       (substringFrom pjtTag
                          (List.length (strip_hash (tagPrefix settings))))
                       false (PrefixMoveFailed pjtTag) st)
             as (r & evs & w' & -> & Hfail & Hren).
           exists r, evs, w'. split; [reflexivity|]. split; [exact Hfail|].
           destruct Hren as [[-> Hren]|[-> Hren]]; split; eauto.
        -- destruct (Hsame unit (inl (Error NoMatchingTag)) NoMatchingTag)
             as [w' Hw'].
           exists (inl (Error NoMatchingTag)), [], w'. split; [exact Hw'|].
           split; [reflexivity|]. split; [right; eauto | reflexivity].
      * destruct (Hsame unit (inl (Error NoMatchingTag)) NoMatchingTag)
          as [w' Hw'].
        exists (inl (Error NoMatchingTag)), [], w'. split; [exact Hw'|].
        split; [reflexivity|]. split; [right; eauto | reflexivity].
Qed.

Lemma extract_tags_log (content : jsstring) (st : State W) :
  exists evs,
    extract_tags content st = (inr (tags_of content), logged st evs)
    /\ reads_of evs = [] /\ renamed_of evs = [] /\ failed_of evs = [].
Proof.
  rewrite extract_tags_run. unfold tags_of, body_of.
  destruct (fm_match content) as [[whole group1]|].
  - destruct (parseYaml group1) as [e|fmObj].
    + exists [Console Warn (CYamlFailed e)]. repeat split.
    + destruct (frontmatter_tags fmObj).
      * exists []. unfold logged. rewrite app_nil_r. destruct st. repeat split.
      * exists [Console Warn (CYamlFailed TypeError)]. repeat split.
  - exists []. unfold logged. rewrite app_nil_r. destruct st. repeat split.
Qed.

(** One run of [processFile]: its result, its log, and why it threw. *)
Lemma processFile_log (file : TFile) (st : State W) :
  exists r evs w',
    processFile settings file st = (r, {| world := w'; log := log st ++ evs |})
    /\ failed_of evs = []
    /\ (r = inr tt /\ (exists T, renamed_of evs = [(file, T)])
        \/ (exists m, r = inl (Error m)) /\ renamed_of evs = [])
    /\ match vault_read file (world st) with
       | (inl _, _) => r = inl (Error ReadFailed)
       | (inr content, _) =>
           match tags_of content with
           | [] => r = inl (Error NoTagsFound)
           | _ =>
               match resolve settings (tags_of content) with
               | None => r = inl (Error NoMatchingTag)
               | Some (dest, true) =>
                   r = inr tt
                   \/ exists pattern, r = inl (Error (RuleMoveFailed pattern dest))
               | Some (dest, false) =>
                   r = inr tt
                   \/ exists pjtTag, r = inl (Error (PrefixMoveFailed pjtTag))
               end
           end
       end.
Proof.
  unfold processFile. run_monad.
  destruct (vault_read file (world st)) as [[e|content] w1]; step.
  - do 3 eexists. split; [rewrite <- app_assoc; reflexivity|].
    cbn [app failed_of renamed_of]. repeat split. right. eauto.
  - destruct (extract_tags_log content
                {| world := w1; log := log st ++ [Requested (ReqRead file) None] |})
      as (evs1 & -> & _ & Hn1 & Hf1).
    unfold logged. step.
    destruct (process_tags_log file (tags_of content)
                {| world := w1;
                   log := ((log st ++ [Requested (ReqRead file) None]) ++ evs1)
                            ++ [Console Log (CDetectedTags (path file) (tags_of content))] |})
      as (r & evs2 & w2 & -> & Hf2 & Hren & Hwhy).
    cbn [log]. do 3 eexists. split; [repeat rewrite <- app_assoc; reflexivity|].
    cbn [app failed_of renamed_of].
    rewrite failed_of_app, renamed_of_app, Hf1, Hn1.
    cbn [app failed_of renamed_of]. rewrite Hf2.
    split; [reflexivity|]. split; [exact Hren | exact Hwhy].
Qed.

(** [processFile] never lets an exception of the host through as it is:
    it returns, or it throws one of its own five errors, and which one is
    decided in this order: the text cannot be read; the note has no tag;
    no tag has a rule or the prefix; the move for the rule, or for the
    prefix, came back [false]. *)
Theorem processFile_error_taxonomy (file : TFile) (st : State W) :
  let r := fst (processFile settings file st) in
  (r = inr tt \/ exists m, r = inl (Error m))
  /\ match vault_read file (world st) with
     | (inl _, _) => r = inl (Error ReadFailed)
     | (inr content, _) =>
         match tags_of content with
         | [] => r = inl (Error NoTagsFound)
         | _ =>
             match resolve settings (tags_of content) with
             | None => r = inl (Error NoMatchingTag)
             | Some (dest, true) =>
                 r = inr tt
                 \/ exists pattern, r = inl (Error (RuleMoveFailed pattern dest))
             | Some (dest, false) =>
                 r = inr tt
                 \/ exists pjtTag, r = inl (Error (PrefixMoveFailed pjtTag))
             end
         end
     end.
Proof.
  destruct (processFile_log file st) as (r & evs & w' & Hrun & _ & Hren & Hwhy).
  rewrite Hrun. cbn [fst]. split; [|exact Hwhy].
  destruct Hren as [[-> _]|[Hm _]]; auto.
Qed.

(** [processFile] returns without an exception exactly when the rename of
    its file went through: then the log holds that one rename, and when it
    throws the log holds no successful rename at all. *)
Theorem processFile_success_is_rename (file : TFile) (st : State W) :
  exists r evs w',
    processFile settings file st = (r, {| world := w'; log := log st ++ evs |})
    /\ (r = inr tt /\ (exists T, renamed_of evs = [(file, T)])
        \/ (exists m, r = inl (Error m)) /\ renamed_of evs = []).
Proof.
  destruct (processFile_log file st) as (r & evs & w' & Hrun & _ & Hren & _).
  exists r, evs, w'. split; [exact Hrun | exact Hren].
Qed.

Lemma batch_loop_log (files : list TFile) :
  forall (successCount failCount : nat) (st : State W),
  exists s f evs w',
    batch_loop settings files successCount failCount st =
      (inr (s, f), {| world := w'; log := log st ++ evs |})
    /\ s = successCount + List.length (renamed_of evs)
    /\ f = failCount + List.length (failed_of evs).
Proof.
  induction files as [|file files IH]; intros successCount failCount st.
  - exists successCount, failCount, [], (world st).
    cbn. rewrite app_nil_r. destruct st. repeat split; lia.
  - cbn [batch_loop]. unfold bind at 1. unfold try_catch, bind at 1.
    destruct (processFile_log file st) as (r & evs1 & w1 & -> & Hf1 & Hren & _).
    destruct Hren as [[-> [T Hren]]|[[m ->] Hren]]; run_monad.
    + destruct (IH (S successCount) failCount
                   {| world := w1; log := log st ++ evs1 |})
        as (s & f & evs2 & w2 & -> & Hs & Hf).
      exists s, f, (evs1 ++ evs2), w2. cbn [log]. rewrite <- app_assoc.
      split; [reflexivity|].
      rewrite renamed_of_app, failed_of_app, Hren, Hf1, !length_app.
      cbn [List.length]. lia.
    + destruct (IH successCount (S failCount)
                   {| world := w1;
                      log := (log st ++ evs1)
                               ++ [Console Err (CFileFailed (path file) (Error m))] |})
        as (s & f & evs2 & w2 & -> & Hs & Hf).
      exists s, f,
        (evs1 ++ Console Err (CFileFailed (path file) (Error m)) :: evs2), w2.
      cbn [log]. repeat rewrite <- app_assoc. cbn [app].
      split; [reflexivity|].
      rewrite renamed_of_app, failed_of_app, Hren, Hf1.
      cbn [app renamed_of failed_of List.length]. lia.
Qed.

(** The counts the batch reports are what happened: the success count is
    the number of renames that went through, the failure count the number
    of files given up with a console line. *)
Theorem batch_counts_are_renames (st : State W) :
  targetFiles settings (vault_getMarkdownFiles (world st)) <> [] ->
  exists s f evs w',
    moveAllFiles settings st =
      (inr tt,
       {| world := w'; log := log st ++ evs ++ [Notice (NoticeDone s f)] |})
    /\ s = List.length (renamed_of evs)
    /\ f = List.length (failed_of evs).
Proof.
  intro Hne. unfold moveAllFiles. cbv zeta.
  destruct (targetFiles settings (vault_getMarkdownFiles (world st)))
    as [|file files]; [congruence|].
  cbn [List.length Nat.eqb]. unfold bind.
  destruct (batch_loop_log (file :: files) 0 0 st)
    as (s & f & evs & w' & -> & Hs & Hf).
  run_monad. exists s, f, evs, w'.
  split; [rewrite <- app_assoc; reflexivity|]. split; [exact Hs | exact Hf].
Qed.

End Protocol.

Lemma batch_counts_are_renames_witness :
  exists s f evs w',
    moveAllFiles DEFAULT_SETTINGS (Demo.start disk_three) =
      (inr tt, {| world := w'; log := [] ++ evs ++ [Notice (NoticeDone s f)] |})
    /\ s = List.length (renamed_of evs)
    /\ f = List.length (failed_of evs).
Proof.
  apply (@batch_counts_are_renames Demo.Disk Demo.host DEFAULT_SETTINGS
           (Demo.start disk_three)).
  vm_compute. discriminate.
Defined.

(* ================================================================== *)
(** * More on resolution *)
(* ================================================================== *)

Section ResolutionMore.

Context {W : Type} {host : Host W}.
Variable settings : Settings.

Lemma strip_hash_hashed (p : jsstring) : strip_hash (HASH :: p) = p.
Proof. reflexivity. Qed.

Lemma find_hashed_rules (n : jsstring) (rules : list TagRule) :
  (forall r, In r rules -> no_leading_hash (tagPattern r)) ->
  option_map destination
    (find (rule_matches n)
          (map (fun r => {| tagPattern := HASH :: tagPattern r;
                            destination := destination r |}) rules))
  = option_map destination (find (rule_matches n) rules).
Proof.
  induction rules as [|r rules IH]; intro H; [reflexivity|].
  cbn [map find]. unfold rule_matches at 1 3. cbn [tagPattern].
  rewrite strip_hash_hashed, (H r (or_introl eq_refl)).
  destruct (str_eqb (tagPattern r) n); [reflexivity|].
  apply IH. intros r' Hr'. apply H. right. exact Hr'.
Qed.

Lemma pass1_hashed_rules (tags : list jsstring) :
  (forall r, In r (tagRules settings) -> no_leading_hash (tagPattern r)) ->
  option_map (fun pr => (fst pr, destination (snd pr)))
    (pass1 (tagRules (with_hashes settings)) tags)
  = option_map (fun pr => (fst pr, destination (snd pr)))
      (pass1 (tagRules settings) tags).
Proof.
  intro H. induction tags as [|t tags IH]; [reflexivity|].
  cbn [pass1 with_hashes tagRules].
  pose proof (find_hashed_rules (strip_hash t) (tagRules settings) H) as Hf.
  destruct (find (rule_matches (strip_hash t))
              (map (fun r => {| tagPattern := HASH :: tagPattern r;
                                destination := destination r |})
                   (tagRules settings))) as [r1|];
    destruct (find (rule_matches (strip_hash t)) (tagRules settings)) as [r2|];
    cbn [option_map] in Hf; try discriminate.
  - injection Hf as Hf. cbn [option_map fst snd]. rewrite Hf. reflexivity.
  - exact IH.
Qed.

(** A hash mark in front of [tagPrefix] and of the rule patterns makes no
    difference: settings written with and without it resolve every tag
    list to the same destination, and [processFile] acts the same. *)
Theorem hash_in_settings_is_optional (file : TFile) (tags : list jsstring)
    (st : State W) :
  no_leading_hash (tagPrefix settings) ->
  (forall r, In r (tagRules settings) -> no_leading_hash (tagPattern r)) ->
  resolve (with_hashes settings) tags = resolve settings tags
  /\ process_tags (with_hashes settings) file tags st
     = process_tags settings file tags st.
Proof.
  intros Hp Hr.
  pose proof (pass1_hashed_rules tags Hr) as H1.
  assert (strip_hash (tagPrefix (with_hashes settings))
          = strip_hash (tagPrefix settings)) as Hpre
    by (cbn [with_hashes tagPrefix]; rewrite strip_hash_hashed; symmetry; exact Hp).
  split.
  - unfold resolve, pass2. rewrite Hpre.
    destruct (pass1 (tagRules (with_hashes settings)) tags) as [[p1 r1]|];
      destruct (pass1 (tagRules settings) tags) as [[p2 r2]|];
      cbn [option_map fst snd] in H1; try discriminate.
    + injection H1 as _ ->. reflexivity.
    + reflexivity.
  - destruct tags as [|t0 tags0]; [reflexivity|].
    rewrite !process_tags_run by discriminate.
    unfold prefix_fallback. rewrite Hpre.
    destruct (pass1 (tagRules (with_hashes settings)) (t0 :: tags0)) as [[p1 r1]|];
      destruct (pass1 (tagRules settings) (t0 :: tags0)) as [[p2 r2]|];
      cbn [option_map fst snd] in H1; try discriminate.
    + injection H1 as -> ->. reflexivity.
    + reflexivity.
Qed.

Lemma find_without (f : jsstring -> bool) (x : jsstring) (l : list jsstring) :
  f x = false ->
  find f (filter (fun u => negb (str_eqb u x)) l) = find f l.
Proof.
  intro Hx. induction l as [|a l IH]; [reflexivity|].
  cbn [filter find]. destruct (str_eqb a x) eqn:E; cbn [negb].
  - apply str_eqb_eq in E. subst a. rewrite Hx. exact IH.
  - cbn [find]. rewrite IH. reflexivity.
Qed.

Lemma find_first_occurrences (f : jsstring -> bool) (l : list jsstring) :
  find f (first_occurrences l) = find f l.
Proof.
  induction l as [|a l IH]; [reflexivity|].
  cbn [first_occurrences find]. destruct (f a) eqn:E; [reflexivity|].
  rewrite (find_without f a _ E). exact IH.
Qed.

Lemma pass1_without (rules : list TagRule) (x : jsstring) (l : list jsstring) :
  find (rule_matches (strip_hash x)) rules = None ->
  pass1 rules (filter (fun u => negb (str_eqb u x)) l) = pass1 rules l.
Proof.
  intro Hx. induction l as [|a l IH]; [reflexivity|].
  cbn [filter pass1]. destruct (str_eqb a x) eqn:E; cbn [negb].
  - apply str_eqb_eq in E. subst a. rewrite Hx. exact IH.
  - cbn [pass1]. rewrite IH. reflexivity.
Qed.

Lemma pass1_first_occurrences (rules : list TagRule) (l : list jsstring) :
  pass1 rules (first_occurrences l) = pass1 rules l.
Proof.
  induction l as [|a l IH]; [reflexivity|].
  cbn [first_occurrences pass1].
  destruct (find (rule_matches (strip_hash a)) rules) eqn:E; [reflexivity|].
  rewrite (pass1_without rules a _ E). exact IH.
Qed.

(** Repeated tags never matter: the extractor keeps them, and resolution
    and [processFile] come out the same on the list with only the first
    occurrence of every tag. *)
Theorem repeated_tags_are_harmless (file : TFile) (tags : list jsstring)
    (st : State W) :
  resolve settings (first_occurrences tags) = resolve settings tags
  /\ fst (process_tags settings file (first_occurrences tags) st)
     = fst (process_tags settings file tags st)
  /\ requests_of (log (snd (process_tags settings file (first_occurrences tags) st)))
     = requests_of (log (snd (process_tags settings file tags st))).
Proof.
  split.
  - unfold resolve, pass2.
    rewrite pass1_first_occurrences, find_first_occurrences. reflexivity.
  - destruct tags as [|t0 tags0]; [split; reflexivity|].
    rewrite (process_tags_run settings file (tags := t0 :: tags0) st)
      by discriminate.
    rewrite (process_tags_run settings file
               (tags := first_occurrences (t0 :: tags0)) st)
      by (cbn [first_occurrences]; discriminate).
    rewrite pass1_first_occurrences.
    unfold prefix_fallback. rewrite find_first_occurrences.
    split; reflexivity.
Qed.

End ResolutionMore.

Lemma hash_in_settings_is_optional_witness :
  resolve (with_hashes settings_plain) [lit "a"; lit "personal/health"]
  = resolve settings_plain [lit "a"; lit "personal/health"].
Proof.
  refine (proj1 (@hash_in_settings_is_optional Demo.Disk Demo.host
                   settings_plain
                   note_x [lit "a"; lit "personal/health"] (Demo.start disk_x) _ _)).
  - reflexivity.
  - intros r [<-|[<-|[]]]; reflexivity.
Defined.

(* ================================================================== *)
(** * The command for the active note *)
(* ================================================================== *)

Section ActiveFileFacts.

Context {W : Type} {host : Host W} {workspace : Workspace W}.

Lemma take_rest_splits (s : jsstring) :
  s = fst (take_rest s) ++ snd (take_rest s)
  /\ forallb is_tag_rest (fst (take_rest s)) = true.
Proof.
  induction s as [|c s [IH1 IH2]]; [split; reflexivity|].
  cbn [take_rest]. destruct (is_tag_rest c) eqn:E; [|split; reflexivity].
  destruct (take_rest s) as [run behind]. cbn [fst snd] in *.
  split; [cbn [app]; congruence | cbn [forallb]; rewrite E, IH2; reflexivity].
Qed.

(** A match of [prefixEsc[^\s#]+]: the prefix and a non-empty run. *)
Lemma prefix_rest_splits (p s m behind : jsstring) :
  prefix_rest p s = Some (m, behind) ->
  exists run,
    run <> [] /\ forallb is_tag_rest run = true
    /\ m = p ++ run /\ s = p ++ run ++ behind.
Proof.
  unfold prefix_rest.
  destruct (startsWith s p) eqn:Es; [|discriminate].
  pose proof (take_rest_splits (skipn (List.length p) s)) as [Hs Hall].
  destruct (take_rest (skipn (List.length p) s)) as [[|c run] behind'];
    [discriminate|].
  intro H. injection H as <- <-. cbn [fst snd] in *.
  exists (c :: run). split; [discriminate|]. split; [exact Hall|].
  split; [reflexivity|].
  rewrite (startsWith_skipn s p Es) at 1. rewrite Hs. reflexivity.
Qed.

Lemma hash_prefix_rest_splits (p s m behind : jsstring) :
  hash_prefix_rest p s = Some (m, behind) ->
  exists run,
    run <> [] /\ forallb is_tag_rest run = true
    /\ (m = p ++ run \/ m = HASH :: p ++ run)
    /\ s = m ++ behind.
Proof.
  unfold hash_prefix_rest.
  assert (prefix_rest p s = Some (m, behind) ->
          exists run, run <> [] /\ forallb is_tag_rest run = true
                      /\ (m = p ++ run \/ m = HASH :: p ++ run)
                      /\ s = m ++ behind) as Hplain.
  { intro H. destruct (prefix_rest_splits _ _ H) as (run & Hne & Hall & -> & ->).
    exists run. repeat split; auto. rewrite <- app_assoc. reflexivity. }
  destruct s as [|c s]; [exact Hplain|].
  destruct (N.eqb c HASH) eqn:Eh; [|exact Hplain].
  destruct (prefix_rest p s) as [[m' behind']|] eqn:E; [|exact Hplain].
  intro H. injection H as <- <-.
  apply N.eqb_eq in Eh. subst c.
  destruct (prefix_rest_splits _ _ E) as (run & Hne & Hall & -> & ->).
  exists run. repeat split; auto. cbn [app]. rewrite <- app_assoc. reflexivity.
Qed.

(** Every search uses up at least one character, so the fuel of
    [body_matches] never runs out. *)
Lemma match_all_fuel (p : jsstring) (fuel : nat) :
  forall fuel' s,
    List.length s < fuel -> List.length s < fuel' ->
    match_all fuel p s = match_all fuel' p s.
Proof.
  induction fuel as [|fuel IH]; intros fuel' s H H'; [lia|].
  destruct fuel' as [|fuel']; [lia|].
  cbn [match_all].
  destruct (hash_prefix_rest p s) as [[m behind]|] eqn:E.
  - destruct (hash_prefix_rest_splits _ _ E) as (run & Hne & _ & Hm & ->).
    assert (0 < List.length m) as Hlen
      by (destruct Hm as [->| ->]; destruct run; try congruence;
          rewrite ?length_app; cbn [List.length]; rewrite ?length_app;
          cbn [List.length]; lia).
    rewrite length_app in H, H'.
    rewrite (IH fuel' behind) by lia. reflexivity.
  - destruct s as [|c s]; [reflexivity|]. cbn [List.length] in H, H'.
    apply IH; lia.
Qed.

Lemma match_all_shape (p : jsstring) (fuel : nat) :
  forall s m,
    In m (match_all fuel p s) ->
    exists run,
      run <> [] /\ forallb is_tag_rest run = true
      /\ (m = p ++ run \/ m = HASH :: p ++ run).
Proof.
  induction fuel as [|fuel IH]; intros s m; [intros []|].
  cbn [match_all].
  destruct (hash_prefix_rest p s) as [[m' behind]|] eqn:E.
  - intros [<-|H]; [|exact (IH _ _ H)].
    destruct (hash_prefix_rest_splits _ _ E) as (run & Hne & Hall & Hm & _).
    exists run. auto.
  - destruct s as [|c s]; [intros []|]. apply IH.
Qed.

Lemma drop_trailing_behind (p run : jsstring) :
  p <> [] -> ends_with_quote p = false ->
  drop_trailing_quotes (p ++ run) = p ++ drop_trailing_quotes run.
Proof.
  induction p as [|c p IH]; [congruence|]. intros _ He.
  cbn [app drop_trailing_quotes].
  assert (forallb is_quote (c :: p ++ run) = false) as ->.
  { destruct (forallb is_quote (c :: p ++ run)) eqn:E; [|reflexivity].
    cbn [forallb] in E. apply andb_true_iff in E as [Hc E].
    rewrite forallb_app in E. apply andb_true_iff in E as [Hp _].
    destruct p as [|d p]; [cbn in He; congruence|].
    change (ends_with_quote (c :: d :: p)) with (ends_with_quote (d :: p)) in He.
    rewrite (all_quotes_end_with_quote (t := d :: p)) in He;
      [discriminate | discriminate | exact Hp]. }
  destruct p as [|d p]; [reflexivity|].
  rewrite IH; [reflexivity | discriminate | exact He].
Qed.

Lemma drop_leading_clean_head (s : jsstring) :
  clean_head s -> drop_leading_quotes_hashes s = s.
Proof.
  destruct s as [|c s]; [reflexivity|]. cbn. intros ->. reflexivity.
Qed.

(** What normalisation makes of a body match. *)
Lemma normalize_match (p run : jsstring) :
  p <> [] -> clean_head p -> ends_with_quote p = false ->
  normalize (p ++ run) = p ++ drop_trailing_quotes run
  /\ normalize (HASH :: p ++ run) = p ++ drop_trailing_quotes run.
Proof.
  intros Hne Hc He.
  assert (clean_head (p ++ run)) as Hc'
    by (destruct p; [congruence | exact Hc]).
  assert (clean_head (p ++ drop_trailing_quotes run)) as Hc''
    by (destruct p; [congruence | exact Hc]).
  split; unfold normalize.
  - rewrite (strip_quotes_clean _ Hc'), (drop_trailing_behind run Hne He).
    apply strip_hash_clean, Hc''.
  - unfold strip_quotes. change (is_quote_or_hash HASH) with true. cbv iota.
    change (drop_leading_quotes_hashes (HASH :: p ++ run))
      with (drop_leading_quotes_hashes (p ++ run)).
    rewrite (drop_leading_clean_head _ Hc'), (drop_trailing_behind run Hne He).
    apply strip_hash_clean, Hc''.
Qed.

(** The body expression of [moveActiveFile] asks for no word boundary:
    every match is the prefix, behind an optional hash mark, followed by
    a non-empty run without whitespace or hash mark.  For a prefix such as
    [pjt/] (not empty, not starting with a quote or hash mark, not ending
    with a quote) normalisation turns a match into the prefix followed by
    the run without its trailing quotes, so the first match of the body
    passes the prefix test: without frontmatter tags it decides where the
    note goes. *)
Theorem body_matches_are_prefixed (p body : jsstring) :
  regex_plain p = true ->
  p <> [] -> clean_head p -> ends_with_quote p = false ->
  (forall m, In m (body_matches p body) ->
     exists run,
       run <> [] /\ forallb is_tag_rest run = true
       /\ (m = p ++ run \/ m = HASH :: p ++ run)
       /\ normalize m = p ++ drop_trailing_quotes run)
  /\ find (fun t => startsWith t p) (map normalize (body_matches p body))
     = match body_matches p body with
       | m :: _ => Some (normalize m)
       | [] => None
       end.
Proof.
  intros _ Hne Hc He.
  assert (forall m, In m (body_matches p body) ->
     exists run,
       run <> [] /\ forallb is_tag_rest run = true
       /\ (m = p ++ run \/ m = HASH :: p ++ run)
       /\ normalize m = p ++ drop_trailing_quotes run) as Hshape.
  { intros m Hm. unfold body_matches in Hm.
    destruct (match_all_shape _ _ _ _ Hm) as (run & Hr & Hall & Hcase).
    exists run. repeat split; auto.
    destruct (normalize_match run Hne Hc He) as [H1 H2].
    destruct Hcase as [->| ->]; assumption. }
  split; [exact Hshape|].
  destruct (body_matches p body) as [|m ms]; [reflexivity|].
  cbn [map find].
  destruct (Hshape m (or_introl eq_refl)) as (run & _ & _ & _ & ->).
  assert (startsWith (p ++ drop_trailing_quotes run) p = true) as ->
    by (apply startsWith_app; eexists; reflexivity).
  reflexivity.
Qed.

Lemma shared_move_total (settings : Settings) (file : TFile) (path : jsstring)
    (d : Desk W) :
  exists b d', shared (moveFileToProject settings file path false) d = (inr b, d').
Proof.
  unfold shared.
  destruct (move_total settings file path false
              {| world := desk_world d; log := [] |})
    as (b & evs & w' & -> & _).
  eauto.
Qed.

(** [moveActiveFile] lets no exception through, whatever the host does: a
    missing or non-Markdown active file ends in a notice with nothing
    asked of the host, a failed read in a console line and a notice with
    nothing asked beyond the read. *)
Theorem moveActiveFile_never_throws (settings : Settings) (d : Desk W) :
  regex_plain (strip_hash (tagPrefix settings)) = true ->
  fst (moveActiveFile settings d) = inr tt
  /\ (forall file,
        workspace_getActiveFile (desk_world d) = Some file ->
        endsWith (path file) (lit ".md") = false ->
        moveActiveFile settings d = (inr tt, say NoticeNoActiveFile d))
  /\ (workspace_getActiveFile (desk_world d) = None ->
      moveActiveFile settings d = (inr tt, say NoticeNoActiveFile d))
  /\ (forall file e w1,
        workspace_getActiveFile (desk_world d) = Some file ->
        endsWith (path file) (lit ".md") = true ->
        vault_read file (desk_world d) = (inl e, w1) ->
        moveActiveFile settings d =
        (inr tt,
         {| desk_world := w1;
            desk_log := desk_log d
                        ++ [Shared (Requested (ReqRead file) (Some e));
                            Shared (Console Err (CReadFailed e));
                            NoticeReadFailed] |})).
Proof.
  intros _. split; [|split; [|split]].
  - unfold moveActiveFile.
    destruct (workspace_getActiveFile (desk_world d)) as [file|]; [|reflexivity].
    destruct (negb (endsWith (path file) (lit ".md"))); [reflexivity|].
    destruct (shared (request (ReqRead file) (vault_read file)) d)
      as [[e|content] d1]; [reflexivity|].
    cbv zeta.
    set (fm := match fm_match content with
               | Some (_, group1) =>
                   match parseYaml group1 with
                   | inr fmObj =>
                       match frontmatter_strings fmObj with
                       | Some strings => (strings, d1)
                       | None =>
                           ([], say (Shared (Console Warn (CYamlFailed TypeError))) d1)
                       end
                   | inl e => ([], say (Shared (Console Warn (CYamlFailed e))) d1)
                   end
               | None => ([], d1)
               end).
    destruct fm as [fmTags d2].
    match goal with
    | |- context [find ?f ?l] => destruct (find f l) as [first|]
    end; [|reflexivity].
    destruct (nonempty first); [|reflexivity].
    match goal with
    | |- context [shared (moveFileToProject ?s ?f ?p false) ?dd] =>
        destruct (shared_move_total s f p dd) as (b & d' & ->)
    end.
    reflexivity.
  - intros file Hf He. unfold moveActiveFile. rewrite Hf, He. reflexivity.
  - intros Hf. unfold moveActiveFile. rewrite Hf. reflexivity.
  - intros file e w1 Hf He Hr. unfold moveActiveFile. rewrite Hf, He.
    cbn [negb]. unfold shared, request, say. cbn [world log].
    rewrite Hr. cbn [map app desk_world desk_log].
    repeat rewrite <- app_assoc. reflexivity.
Qed.

Lemma moveFileToProject_root (s s' : Settings) (file : TFile) (path : jsstring)
    (isFullPath : bool) (st : State W) :
  rootFolder s = rootFolder s' ->
  moveFileToProject s file path isFullPath st
  = moveFileToProject s' file path isFullPath st.
Proof. intro H. unfold moveFileToProject. rewrite H. reflexivity. Qed.

(** The rule table plays no part in [moveActiveFile]: two settings with
    the same prefix and root folder behave alike on every desk, whatever
    their rules and notes folder. *)
Theorem moveActiveFile_ignores_rules (s s' : Settings) (d : Desk W) :
  tagPrefix s = tagPrefix s' ->
  rootFolder s = rootFolder s' ->
  moveActiveFile s d = moveActiveFile s' d.
Proof.
  intros Hp Hr. unfold moveActiveFile. rewrite Hp.
  destruct (workspace_getActiveFile (desk_world d)) as [file|]; [|reflexivity].
  destruct (negb (endsWith (path file) (lit ".md"))); [reflexivity|].
  destruct (shared (request (ReqRead file) (vault_read file)) d)
    as [[e|content] d1]; [reflexivity|].
  cbv zeta.
  set (fm := match fm_match content with
             | Some (_, group1) =>
                 match parseYaml group1 with
                 | inr fmObj =>
                     match frontmatter_strings fmObj with
                     | Some strings => (strings, d1)
                     | None =>
                         ([], say (Shared (Console Warn (CYamlFailed TypeError))) d1)
                     end
                 | inl e => ([], say (Shared (Console Warn (CYamlFailed e))) d1)
                 end
             | None => ([], d1)
             end).
  destruct fm as [fmTags d2].
  match goal with
  | |- context [find ?f ?l] => destruct (find f l) as [first|]
  end; [|reflexivity].
  destruct (nonempty first); [|reflexivity].
  unfold shared.
  match goal with
  | |- context [moveFileToProject s ?f ?p false ?st] =>
      rewrite (moveFileToProject_root s s' f p false st Hr)
  end.
  reflexivity.
Qed.

End ActiveFileFacts.

Lemma body_matches_are_prefixed_witness :
  find (fun t => startsWith t (lit "pjt/"))
       (map normalize (body_matches (lit "pjt/") (lit "see:'#pjt/q1' and pjt/q2")))
  = Some (lit "pjt/q1").
Proof.
  apply (proj2 (body_matches_are_prefixed (p := lit "pjt/")
                  (lit "see:'#pjt/q1' and pjt/q2")
                  eq_refl ltac:(discriminate) eq_refl eq_refl)).
Defined.

Lemma moveActiveFile_never_throws_witness :
  fst (moveActiveFile DEFAULT_SETTINGS (desk_start disk_inline (Some note_x)))
  = inr tt
  /\ moveActiveFile DEFAULT_SETTINGS (desk_start disk_inline None)
     = (inr tt, say NoticeNoActiveFile (desk_start disk_inline None))
  /\ moveActiveFile DEFAULT_SETTINGS (desk_start disk_inline (Some note_z))
     = (inr tt,
        {| desk_world := mkDemoDesk disk_inline (Some note_z);
           desk_log := [Shared (Requested (ReqRead note_z)
                                  (Some (HostError (lit "ENOENT"))));
                        Shared (Console Err (CReadFailed (HostError (lit "ENOENT"))));
                        NoticeReadFailed] |}).
Proof.
  split; [|split].
  - apply (proj1 (@moveActiveFile_never_throws DemoDesk demo_desk_host
                    demo_workspace DEFAULT_SETTINGS
                    (desk_start disk_inline (Some note_x)) eq_refl)).
  - apply (proj1 (proj2 (proj2 (@moveActiveFile_never_throws DemoDesk demo_desk_host
                    demo_workspace DEFAULT_SETTINGS
                    (desk_start disk_inline None) eq_refl)))).
    reflexivity.
  - apply (proj2 (proj2 (proj2 (@moveActiveFile_never_throws DemoDesk demo_desk_host
                    demo_workspace DEFAULT_SETTINGS
                    (desk_start disk_inline (Some note_z)) eq_refl)))
                 note_z (HostError (lit "ENOENT"))
                 (mkDemoDesk disk_inline (Some note_z)));
      vm_compute; reflexivity.
Defined.

Lemma moveActiveFile_ignores_rules_witness :
  moveActiveFile DEFAULT_SETTINGS (desk_start disk_urgent (Some note_x))
  = moveActiveFile settings_no_rules (desk_start disk_urgent (Some note_x)).
Proof.
  apply (@moveActiveFile_ignores_rules DemoDesk demo_desk_host demo_workspace
           DEFAULT_SETTINGS settings_no_rules
           (desk_start disk_urgent (Some note_x)));
    reflexivity.
Defined.

(** A note whose only tag has a rule: the batch moves it to the inbox,
    the command for the active note leaves it where it is. *)
Example rule_tag_batch_and_active :
  Demo.notes (world (snd (moveAllFiles DEFAULT_SETTINGS (Demo.start disk_urgent))))
  = [(lit "01_inbox/urgent/x.md", lit "work/urgent")]
  /\ on_disk (desk_world (snd (moveActiveFile DEFAULT_SETTINGS
                                 (desk_start disk_urgent (Some note_x)))))
     = disk_urgent
  /\ last (desk_log (snd (moveActiveFile DEFAULT_SETTINGS
                            (desk_start disk_urgent (Some note_x)))))
          NoticeNoActiveFile
     = NoticeNoPrefixTag.
Proof. repeat split; vm_compute; reflexivity. Qed.

(* ================================================================== *)
(** * The earlier version *)
(* ================================================================== *)

Section OldFacts.

Context {W : Type} {host : Host W}.
Variable settings : Settings.

(** One call of the earlier [moveFileToProject], with its requests. *)
Lemma old_move_log (file : TFile) (path : jsstring)
    (isFullPath : bool) (st : State W) :
  let T := Spec.target_path settings path isFullPath (name file) in
  let F := parent_of T in
  exists evs w',
    Old.moveFileToProject settings file path isFullPath st =
      (inr tt, {| world := w'; log := log st ++ evs |})
    /\ match adapter_exists F (world st) with
       | (inl _, _) => requests_of evs = [ReqExists F]
       | (inr true, _) => requests_of evs = [ReqExists F; ReqRename file T]
       | (inr false, w1) =>
           match adapter_mkdir F w1 with
           | (inl _, _) => requests_of evs = [ReqExists F; ReqMkdir F]
           | (inr _, _) =>
               requests_of evs = [ReqExists F; ReqMkdir F; ReqRename file T]
           end
       end.
Proof.
  intros T F. unfold Old.moveFileToProject. cbv zeta.
  change (if isFullPath
          then path ++ lit "/" ++ name file
          else rootFolder settings ++ lit "/" ++ path ++ lit "/" ++ name file)
    with T.
  fold (parent_of T). fold F. clearbody F T.
  run_monad.
  destruct (adapter_exists F (world st)) as [[e|[|]] w1]; step.
  - do 2 eexists. split; [repeat rewrite <- app_assoc; reflexivity|]. reflexivity.
  - destruct (fileManager_renameFile file T w1) as [[e|[]] w2]; step;
      (do 2 eexists; split; [repeat rewrite <- app_assoc; reflexivity|]);
      reflexivity.
  - destruct (adapter_mkdir F w1) as [[e|[]] w2]; step.
    + do 2 eexists. split; [repeat rewrite <- app_assoc; reflexivity|]. reflexivity.
    + destruct (fileManager_renameFile file T w2) as [[e|[]] w3]; step;
        (do 2 eexists; split; [repeat rewrite <- app_assoc; reflexivity|]);
        reflexivity.
Qed.

(** The earlier [moveFileToProject] lets every path through: whatever
    the path, even one that climbs out of the vault, it asks the adapter
    about the parent folder of the plain concatenation (an empty folder
    included), creates it when the answer is no, and asks for the rename
    to the plain concatenation; it never throws and reports nothing to
    its caller. *)
Theorem old_move_has_no_path_check (file : TFile) (path : jsstring)
    (isFullPath : bool) (st : State W) :
  let T := Spec.target_path settings path isFullPath (name file) in
  let F := parent_of T in
  exists evs w',
    Old.moveFileToProject settings file path isFullPath st =
      (inr tt, {| world := w'; log := log st ++ evs |})
    /\ match adapter_exists F (world st) with
       | (inl _, _) => requests_of evs = [ReqExists F]
       | (inr true, _) => requests_of evs = [ReqExists F; ReqRename file T]
       | (inr false, w1) =>
           match adapter_mkdir F w1 with
           | (inl _, _) => requests_of evs = [ReqExists F; ReqMkdir F]
           | (inr _, _) =>
               requests_of evs = [ReqExists F; ReqMkdir F; ReqRename file T]
           end
       end.
Proof.
  exact (old_move_log file path isFullPath st).
Qed.

Lemma old_move_returns (file : TFile) (path : jsstring) (isFullPath : bool)
    (st : State W) :
  exists st', Old.moveFileToProject settings file path isFullPath st = (inr tt, st').
Proof.
  destruct (old_move_log file path isFullPath st)
    as (evs & w' & -> & _).
  eauto.
Qed.

Lemma existsb_find {A : Type} (f : A -> bool) (l : list A) :
  existsb f l = match find f l with Some _ => true | None => false end.
Proof.
  induction l as [|a l IH]; [reflexivity|]. cbn.
  destruct (f a); [reflexivity | exact IH].
Qed.

Lemma old_rule_loop_returns (file : TFile) (tags : list jsstring) (st : State W) :
  exists st',
    Old.rule_loop settings file tags st =
    (inr (existsb (fun pattern =>
                     existsb (fun r => str_eqb (tagPattern r) pattern)
                             (tagRules settings)) tags),
     st').
Proof.
  revert st; induction tags as [|t tags IH]; intro st; [eexists; reflexivity|].
  cbn [Old.rule_loop existsb]. rewrite existsb_find.
  destruct (find (fun r => str_eqb (tagPattern r) t) (tagRules settings))
    as [rule|]; [|exact (IH st)].
  run_monad.
  destruct (old_move_returns file (destination rule) true
              {| world := world st;
                 log := log st ++ [Console Log (CRuleMatched t t (destination rule))] |})
    as (st' & ->).
  eexists. reflexivity.
Qed.

Lemma old_process_tags_returns (file : TFile) (tags : list jsstring) (st : State W) :
  fst ((if Nat.eqb (List.length tags) 0
        then throw (Error NoTagsFound)
        else
          returned <- Old.rule_loop settings file tags ;;
          if returned then ret tt else Old.prefix_fallback settings file tags) st)
  = inr tt
  <-> Old.resolves settings tags = true.
Proof.
  unfold Old.resolves.
  destruct tags as [|t0 tags0]; [split; discriminate|].
  cbn [List.length Nat.eqb]. unfold bind at 1.
  destruct (old_rule_loop_returns file (t0 :: tags0) st) as (st' & ->).
  destruct (existsb _ (t0 :: tags0)); [split; reflexivity|].
  cbn [orb]. unfold Old.prefix_fallback.
  destruct (find (fun t => startsWith t (strip_hash (tagPrefix settings)))
                 (t0 :: tags0)) as [pjtTag|]; [|split; discriminate].
  destruct (nonempty pjtTag); [|split; discriminate].
  run_monad.
  match goal with
  | |- context [Old.moveFileToProject settings file ?p false ?s] =>
      destruct (old_move_returns file p false s) as (st'' & ->)
  end.
  split; reflexivity.
Qed.

(** In the earlier version the outcome of the move never reaches
    [processFile]: it returns without an exception exactly when the text
    could be read and a tag has a rule (equal to it as it stands) or the
    prefix, whether or not the file was renamed; the batch then counts a
    failed move as a success.  On a vault where the destination is taken,
    the earlier batch loop counts one success with no rename gone through,
    the later one counts one failure. *)
Theorem old_processFile_hides_failed_moves (file : TFile) (st : State W) :
  (fst (Old.processFile settings file st) = inr tt <->
   exists content w1,
     vault_read file (world st) = (inr content, w1)
     /\ Old.resolves settings (tags_of content) = true)
  /\ (let old := Old.batch_loop DEFAULT_SETTINGS [note_x] 0 0 (Demo.start disk_taken) in
      let new := batch_loop DEFAULT_SETTINGS [note_x] 0 0 (Demo.start disk_taken) in
      fst old = inr (1, 0) /\ renamed_of (log (snd old)) = []
      /\ fst new = inr (0, 1) /\ renamed_of (log (snd new)) = []).
Proof.
  split; [|repeat split; vm_compute; reflexivity].
  unfold Old.processFile. unfold bind at 1. unfold try_catch, request.
  destruct (vault_read file (world st)) as [[e|content] w1].
  - run_monad. split; [discriminate|].
    intros (content & w1' & H & _). discriminate.
  - cbn [world log]. unfold bind at 1.
    destruct (extract_tags_log content
                {| world := w1; log := log st ++ [Requested (ReqRead file) None] |})
      as (evs1 & -> & _).
    unfold bind at 1, emit at 1.
    rewrite old_process_tags_returns.
    split.
    + intro H. exists content, w1. split; [reflexivity | exact H].
    + intros (content' & w1' & H & Hres). injection H as <- <-. exact Hres.
Qed.

End OldFacts.

Lemma old_processFile_hides_failed_moves_witness :
  fst (Old.processFile DEFAULT_SETTINGS note_x (Demo.start disk_taken)) = inr tt.
Proof.
  apply (proj2 (proj1 (@old_processFile_hides_failed_moves Demo.Disk Demo.host
                         DEFAULT_SETTINGS note_x (Demo.start disk_taken)))).
  exists (lit "pjt/q1"), disk_taken. split; vm_compute; reflexivity.
Defined.

(* ================================================================== *)
(** * Edges of the extraction, of the move and of the batch *)
(* ================================================================== *)

Section Edges.

Context {W : Type} {host : Host W}.
Variable settings : Settings.

(** An opening fence that is never closed is itself taken for a tag:
    when the text starts with three dashes followed by whitespace or
    nothing, and no closing fence follows, the first tag of the note is
    [---]. *)
Theorem unterminated_fence_is_a_tag (rest : jsstring) :
  lookahead_space_or_end rest = true ->
  contains_fence rest = false ->
  fm_match (lit "---" ++ rest) = None
  /\ exists more, tags_of (lit "---" ++ rest) = lit "---" :: more.
Proof.
  intros Hla Hnf.
  assert (fm_match (lit "---" ++ rest) = None) as Hm
    by (apply fm_match_unterminated; exact Hnf).
  split; [exact Hm|].
  unfold tags_of, body_of. rewrite Hm. cbn [app].
  unfold body_tags. cbn [exec_loop]. unfold match_here.
  rewrite hash_tag_run_first_word.
  assert (first_word (lit "---" ++ rest) = lit "---") as Hw.
  { change (lit "---" ++ rest) with (DASH :: DASH :: DASH :: rest).
    rewrite !first_word_nonspace by reflexivity.
    rewrite lookahead_first_word in Hla.
    destruct (first_word rest); [reflexivity | discriminate]. }
  rewrite Hw. change (Spec.token_tag (lit "---")) with (Some (lit "---")).
  cbv iota. eexists. reflexivity.
Qed.

(** A rename is asked for only behind both checks: whatever the host
    does, every rename request of [moveFileToProject] is for this file
    and for the normalized joined path, the normalized segment is not
    empty, not a dot and does not start with two dots, and the path does
    not start with [../]. *)
Theorem rename_only_after_checks (file : TFile) (path : jsstring)
    (isFullPath : bool) (st : State W) :
  exists b evs w',
    moveFileToProject settings file path isFullPath st =
      (inr b, {| world := w'; log := log st ++ evs |})
    /\ forall f' T',
         In (ReqRename f' T') (requests_of evs) ->
         f' = file
         /\ T' = target_of settings path isFullPath (name file)
         /\ segment_rejected (normalizePath path) = false
         /\ startsWith T' (lit "../") = false.
Proof.
  destruct (move_log settings file path isFullPath st)
    as (b & evs & w' & Hrun & _ & _ & Hreq).
  exists b, evs, w'. split; [exact Hrun|].
  intros f' T' Hin.
  destruct Hreq as [(_ & Hnone & _)|(Hseg & Hesc & Hcases)].
  - rewrite Hnone in Hin. destruct Hin.
  - assert (f' = file /\ T' = target_of settings path isFullPath (name file))
      as [-> ->].
    { destruct Hcases as [[_ Hr]|[_ Hr]].
      - rewrite Hr in Hin. destruct Hin as [H|[]]. injection H as <- <-. auto.
      - destruct (adapter_exists _ (world st)) as [[e|[|]] w1].
        + destruct Hr as [Hr _]. rewrite Hr in Hin.
          destruct Hin as [H|[]]. discriminate.
        + rewrite Hr in Hin. destruct Hin as [H|[H|[]]]; [discriminate|].
          injection H as <- <-. auto.
        + destruct (adapter_mkdir _ w1) as [[e|[]] w2].
          * destruct Hr as [Hr _]. rewrite Hr in Hin.
            destruct Hin as [H|[H|[]]]; discriminate.
          * rewrite Hr in Hin.
            destruct Hin as [H|[H|[H|[]]]]; try discriminate.
            injection H as <- <-. auto. }
    auto.
Qed.

End Edges.

Lemma unterminated_fence_is_a_tag_witness :
  fm_match doc_unterminated = None
  /\ exists more, tags_of doc_unterminated = lit "---" :: more.
Proof.
  apply (@unterminated_fence_is_a_tag Demo.Disk Demo.host
           (LF :: unlines [lit "tags: [a]"; lit "foo"]));
    vm_compute; reflexivity.
Defined.

Lemma rename_only_after_checks_witness :
  exists b evs w',
    moveFileToProject DEFAULT_SETTINGS note_x (lit "q1") false (Demo.start disk_x)
    = (inr b, {| world := w'; log := [] ++ evs |})
    /\ In (ReqRename note_x (lit "03_project/q1/x.md")) (requests_of evs)
    /\ segment_rejected (Demo.normalizePath (lit "q1")) = false
    /\ startsWith (lit "03_project/q1/x.md") (lit "../") = false.
Proof.
  destruct (@rename_only_after_checks Demo.Disk Demo.host DEFAULT_SETTINGS
              note_x (lit "q1") false (Demo.start disk_x))
    as (b & evs & w' & Hrun & Hall).
  exists b, evs, w'. split; [exact Hrun|].
  assert (In (ReqRename note_x (lit "03_project/q1/x.md")) (requests_of evs)) as Hin.
  { revert Hrun. vm_compute. intro Hrun. injection Hrun as _ _ <-. in_log. }
  split; [exact Hin|].
  destruct (Hall note_x (lit "03_project/q1/x.md") Hin) as (_ & _ & Hseg & Hesc).
  split; [exact Hseg | exact Hesc].
Defined.

(* ================================================================== *)
(** * The batch stays within its files *)
(* ================================================================== *)

Section BatchScope.

Context {W : Type} {host : Host W}.
Variable settings : Settings.

Lemma batch_loop_scope (files : list TFile) :
  forall (successCount failCount : nat) (st : State W),
  exists counts evs w',
    batch_loop settings files successCount failCount st =
      (inr counts, {| world := w'; log := log st ++ evs |})
    /\ forall f T, In (f, T) (renamed_of evs) -> In f files.
Proof.
  induction files as [|file files IH]; intros successCount failCount st.
  - exists (successCount, failCount), [], (world st).
    cbn. rewrite app_nil_r. destruct st. split; [reflexivity | intros f T []].
  - cbn [batch_loop]. unfold bind at 1. unfold try_catch, bind at 1.
    destruct (processFile_log settings file st)
      as (r & evs1 & w1 & -> & _ & Hren & _).
    assert (forall f T, In (f, T) (renamed_of evs1) -> f = file) as Hone.
    { intros f T Hin.
      destruct Hren as [[_ [T' Hren]]|[_ Hren]]; rewrite Hren in Hin.
      - destruct Hin as [H|[]]. injection H as <- _. reflexivity.
      - destruct Hin. }
    destruct r as [e|[]]; run_monad.
    + destruct (IH successCount (S failCount)
                   {| world := w1;
                      log := (log st ++ evs1)
                               ++ [Console Err (CFileFailed (path file) e)] |})
        as (counts & evs2 & w2 & -> & Hin2).
      exists counts, (evs1 ++ Console Err (CFileFailed (path file) e) :: evs2), w2.
      cbn [log]. repeat rewrite <- app_assoc. cbn [app].
      split; [reflexivity|].
      intros f T Hin. rewrite renamed_of_app in Hin. cbn [renamed_of] in Hin.
      apply in_app_or in Hin as [Hin|Hin];
        [left; symmetry; eapply Hone, Hin | right; eapply Hin2, Hin].
    + destruct (IH (S successCount) failCount
                   {| world := w1; log := log st ++ evs1 |})
        as (counts & evs2 & w2 & -> & Hin2).
      exists counts, (evs1 ++ evs2), w2. cbn [log]. rewrite <- app_assoc.
      split; [reflexivity|].
      intros f T Hin. rewrite renamed_of_app in Hin.
      apply in_app_or in Hin as [Hin|Hin];
        [left; symmetry; eapply Hone, Hin | right; eapply Hin2, Hin].
Qed.

(** The batch moves nothing but its own files: every file renamed during
    [moveAllFiles] is one of the listed Markdown files whose path starts
    with the text of [notesFolder] and ends with [.md]. *)
Theorem batch_renames_only_targets (st : State W) :
  exists evs w',
    moveAllFiles settings st = (inr tt, {| world := w'; log := log st ++ evs |})
    /\ forall f T,
         In (f, T) (renamed_of evs) ->
         In f (vault_getMarkdownFiles (world st))
         /\ startsWith (path f) (notesFolder settings) = true
         /\ endsWith (path f) (lit ".md") = true.
Proof.
  unfold moveAllFiles. cbv zeta.
  destruct (targetFiles settings (vault_getMarkdownFiles (world st)))
    as [|file files] eqn:Et.
  - cbn [List.length Nat.eqb]. run_monad.
    do 2 eexists. split; [reflexivity | intros f T []].
  - cbn [List.length Nat.eqb]. unfold bind.
    destruct (batch_loop_scope (file :: files) 0 0 st)
      as (counts & evs & w' & -> & Hin).
    run_monad. do 2 eexists. split; [rewrite <- app_assoc; reflexivity|].
    intros f T Hf. rewrite renamed_of_app in Hf. cbn [renamed_of] in Hf.
    rewrite app_nil_r in Hf. apply Hin in Hf. rewrite <- Et in Hf.
    unfold targetFiles in Hf. apply filter_In in Hf as [Hlisted Htest].
    apply andb_true_iff in Htest as [Hs He]. auto.
Qed.

End BatchScope.

Lemma batch_renames_only_targets_witness :
  exists evs w',
    moveAllFiles DEFAULT_SETTINGS (Demo.start disk_three)
    = (inr tt, {| world := w'; log := [] ++ evs |})
    /\ In (mkTFile (lit "02/notes/a.md") (lit "a.md"), lit "03_project/q1/a.md")
          (renamed_of evs)
    /\ startsWith (lit "02/notes/a.md") (notesFolder DEFAULT_SETTINGS) = true.
Proof.
  destruct (@batch_renames_only_targets Demo.Disk Demo.host DEFAULT_SETTINGS
              (Demo.start disk_three))
    as (evs & w' & Hrun & Hall).
  exists evs, w'. split; [exact Hrun|].
  assert (In (mkTFile (lit "02/notes/a.md") (lit "a.md"), lit "03_project/q1/a.md")
             (renamed_of evs)) as Hin.
  { revert Hrun. vm_compute. intro Hrun. injection Hrun as _ <-. in_log. }
  split; [exact Hin|].
  exact (proj1 (proj2 (Hall _ _ Hin))).
Defined.
